(** * Mares Icon HD backend of libdivecomputer: protocol engine and
      ring-buffer dive enumerator

    A shallow embedding of [src/mares_iconhd.c].  The transport, the
    session framework, the ring-buffer stream and the per-dive callback
    are external collaborators of that file; they appear here as the
    fields of an environment record acting on an abstract world.  Every
    function of the C file is a Rocq function of the same name over that
    environment; [unsigned int] values are integers reduced modulo 2^32
    where the C arithmetic can wrap. *)

From Stdlib.Strings Require Import Byte String.
From Stdlib Require Import ZArith List Bool Lia.
Import ListNotations.
Open Scope Z_scope.

Set Implicit Arguments.

(** ** Status codes and results *)

Inductive dc_status_t : Type :=
| DC_STATUS_SUCCESS
| DC_STATUS_INVALIDARGS
| DC_STATUS_NOMEMORY
| DC_STATUS_PROTOCOL
| DC_STATUS_TIMEOUT
| DC_STATUS_CANCELLED
| DC_STATUS_DATAFORMAT
| DC_STATUS_IO.

Definition status_eqb (a b : dc_status_t) : bool :=
  match a, b with
  | DC_STATUS_SUCCESS, DC_STATUS_SUCCESS
  | DC_STATUS_INVALIDARGS, DC_STATUS_INVALIDARGS
  | DC_STATUS_NOMEMORY, DC_STATUS_NOMEMORY
  | DC_STATUS_PROTOCOL, DC_STATUS_PROTOCOL
  | DC_STATUS_TIMEOUT, DC_STATUS_TIMEOUT
  | DC_STATUS_CANCELLED, DC_STATUS_CANCELLED
  | DC_STATUS_DATAFORMAT, DC_STATUS_DATAFORMAT
  | DC_STATUS_IO, DC_STATUS_IO => true
  | _, _ => false
  end.

Inductive dc_transport_t : Type :=
| DC_TRANSPORT_SERIAL
| DC_TRANSPORT_BLE.

Inductive dc_direction_t : Type :=
| DC_DIRECTION_INPUT
| DC_DIRECTION_OUTPUT
| DC_DIRECTION_ALL.

(** The result of running a C function: it returns, it stops on a failed
    [assert] or an access outside an object, or the iteration budget of
    the model is used up. *)
Inductive res (A : Type) : Type :=
| Ret (a : A)
| Trap
| OutOfFuel.
Arguments Trap {A}.
Arguments OutOfFuel {A}.

Definition bind {A B : Type} (m : res A) (k : A -> res B) : res B :=
  match m with
  | Ret a => k a
  | Trap => Trap
  | OutOfFuel => OutOfFuel
  end.

Notation "'let*' x ':=' m 'in' k" := (bind m (fun x => k))
  (at level 10, x pattern, m at level 100, k at level 200).

(** ** Bytes and fixed-width integers *)

Definition u8 (b : byte) : Z := Z.of_N (Byte.to_N b).

Definition byte_of_Z (z : Z) : byte :=
  match Byte.of_N (Z.to_N (z mod 256)) with
  | Some b => b
  | None => x00
  end.

Definition u32 (z : Z) : Z := z mod 2 ^ 32.

Definition bytes_eqb (a b : list byte) : bool :=
  if list_eq_dec Byte.byte_eq_dec a b then true else false.

(** The [n] bytes at [p + off], read from a C array held as a list; a
    position past the end yields 0, the value the arrays of this file are
    initialised with. *)
Definition slice (p : list byte) (off n : Z) : list byte :=
  map (fun i => nth (Z.to_nat (off + Z.of_nat i)) p x00) (seq 0 (Z.to_nat n)).

(** Modelled from the spec: [array_uint16_le] and [array_uint32_le] of
    array.h, the little-endian decoders of a 16-bit and a 32-bit field. *)
Definition array_uint16_le (get : Z -> byte) (p : Z) : Z :=
  u8 (get p) + Z.shiftl (u8 (get (p + 1))) 8.

Definition array_uint32_le (get : Z -> byte) (p : Z) : Z :=
  u8 (get p) + Z.shiftl (u8 (get (p + 1))) 8
  + Z.shiftl (u8 (get (p + 2))) 16 + Z.shiftl (u8 (get (p + 3))) 24.

Definition of_list (l : list byte) : Z -> byte :=
  fun i => if i <? 0 then x00 else nth (Z.to_nat i) l x00.

(** ** Constants *)

Definition MATRIX : Z := 0x0F.
Definition SMART : Z := 0x000010.
Definition SMARTAPNEA : Z := 0x010010.
Definition ICONHD : Z := 0x14.
Definition ICONHDNET : Z := 0x15.
Definition PUCKPRO : Z := 0x18.
Definition NEMOWIDE2 : Z := 0x19.
Definition PUCK2 : Z := 0x1F.
Definition QUADAIR : Z := 0x23.
Definition SMARTAIR : Z := 0x24.
Definition QUAD : Z := 0x29.

Definition MAXRETRIES : Z := 4.

Definition ACK : Z := 0xAA.
Definition EOF : Z := 0xEA.

Definition AIR : Z := 0.
Definition GAUGE : Z := 1.
Definition NITROX : Z := 2.
Definition FREEDIVE : Z := 3.

(** ** Data model *)

Record mares_iconhd_layout_t : Type := {
  memsize : Z;
  rb_profile_begin : Z;
  rb_profile_end : Z
}.

Definition mares_iconhd_layout : mares_iconhd_layout_t :=
  {| memsize := 0x100000; rb_profile_begin := 0x00A000; rb_profile_end := 0x100000 |}.

Definition mares_iconhdnet_layout : mares_iconhd_layout_t :=
  {| memsize := 0x100000; rb_profile_begin := 0x00E000; rb_profile_end := 0x100000 |}.

Definition mares_matrix_layout : mares_iconhd_layout_t :=
  {| memsize := 0x40000; rb_profile_begin := 0x0A000; rb_profile_end := 0x3E000 |}.

Definition mares_nemowide2_layout : mares_iconhd_layout_t :=
  {| memsize := 0x40000; rb_profile_begin := 0x0A000; rb_profile_end := 0x40000 |}.

(** The session object.  [world] stands for the two members the C struct
    only hands to its collaborators: [base] (context, cancellation flag,
    event handlers) and [iostream] (the transport handle). *)
Record mares_iconhd_device_t (W : Type) : Type := {
  world : W;
  layout : option mares_iconhd_layout_t;
  fingerprint : list byte;
  version : list byte;
  model : Z;
  packetsize : Z;
  cache : list byte;
  available : Z;
  offset : Z
}.

Definition set_world {W} (d : mares_iconhd_device_t W) (w : W) :=
  {| world := w; layout := layout d; fingerprint := fingerprint d;
     version := version d; model := model d; packetsize := packetsize d;
     cache := cache d; available := available d; offset := offset d |}.

Definition set_cache {W} (d : mares_iconhd_device_t W)
    (c : list byte) (a o : Z) :=
  {| world := world d; layout := layout d; fingerprint := fingerprint d;
     version := version d; model := model d; packetsize := packetsize d;
     cache := c; available := a; offset := o |}.

Definition set_fingerprint {W} (d : mares_iconhd_device_t W) (f : list byte) :=
  {| world := world d; layout := layout d; fingerprint := f;
     version := version d; model := model d; packetsize := packetsize d;
     cache := cache d; available := available d; offset := offset d |}.

Record dc_event_progress_t : Type := {
  current : Z;
  maximum : Z
}.

Inductive dc_event_t : Type :=
| DC_EVENT_PROGRESS (p : dc_event_progress_t)
| DC_EVENT_VENDOR (data : list byte) (size : Z)
| DC_EVENT_DEVINFO (model firmware serial : Z).

(** The per-dive callback: record bytes, fingerprint slice, and the user
    data held in the world; it answers whether to go on. *)
Definition dc_dive_callback_t (W : Type) : Type :=
  W -> list byte -> list byte -> bool * W.

(** ** The collaborators *)

Record Env (W : Type) : Type := {
  (* the initial value of a progress record, a macro of device-private.h *)
  EVENT_PROGRESS_INITIALIZER : dc_event_progress_t;
  dc_device_isinstance : W -> bool;
  dc_device_allocate : W -> bool;
  device_is_cancelled : W -> bool;
  device_event_emit : W -> dc_event_t -> W;
  dc_iostream_get_transport : W -> dc_transport_t;
  dc_iostream_configure : W -> dc_status_t * W;
  dc_iostream_set_timeout : W -> Z -> dc_status_t * W;
  dc_iostream_set_dtr : W -> Z -> dc_status_t * W;
  dc_iostream_set_rts : W -> Z -> dc_status_t * W;
  (* at most the requested number of bytes, and a status *)
  dc_iostream_read : W -> Z -> dc_status_t * list byte * W;
  (* the number of bytes taken, and a status *)
  dc_iostream_write : W -> list byte -> dc_status_t * nat * W;
  dc_iostream_purge : W -> dc_direction_t -> W;
  (* the initial contents of the block, or NULL *)
  malloc : W -> Z -> option (Z -> byte);
  (* packet size, begin, end and anchor address of the stream *)
  dc_rbstream_new :
    mares_iconhd_device_t W -> Z -> Z -> Z -> Z ->
    dc_status_t * mares_iconhd_device_t W;
  (* the bytes that end at the stream's cursor *)
  dc_rbstream_read :
    mares_iconhd_device_t W -> dc_event_progress_t -> Z ->
    dc_status_t * list byte * dc_event_progress_t * mares_iconhd_device_t W;
  dc_rbstream_free : mares_iconhd_device_t W -> mares_iconhd_device_t W
}.

Section Backend.

Context {W : Type} (E : Env W).

Local Abbreviation device := (mares_iconhd_device_t W).

(** ** Chunked I/O adapter *)

Fixpoint mares_iconhd_read_loop (n : nat) (transport : dc_transport_t)
    (rc : dc_status_t) (d : device) (data : list byte) (nbytes size : Z)
    : res (dc_status_t * list byte * device) :=
  if nbytes <? size then
    match n with
    | O => OutOfFuel
    | S n' =>
      match transport with
      | DC_TRANSPORT_BLE =>
        let refill :=
          if available d =? 0 then
            (* Read a packet into the cache. *)
            let '(rc1, bs, w1) := dc_iostream_read E (world d) 20 in
            let bs := firstn 20 bs in
            if status_eqb rc1 DC_STATUS_SUCCESS then
              inr (rc1, set_cache (set_world d w1)
                     (bs ++ skipn (length bs) (cache d))
                     (Z.of_nat (length bs)) 0)
            else inl (rc1, set_world d w1)
          else inr (rc, d) in
        match refill with
        | inl (rc1, d1) => Ret (rc1, data, d1)
        | inr (rc1, d1) =>
          (* Set the minimum packet size. *)
          let len := available d1 in
          (* Limit the packet size to the total size. *)
          let len := if nbytes + len >? size then size - nbytes else len in
          (* Copy the data from the cached packet. *)
          let chunk := slice (cache d1) (offset d1) len in
          let d2 := set_cache d1 (cache d1) (available d1 - len) (offset d1 + len) in
          mares_iconhd_read_loop n' transport rc1 d2 (data ++ chunk) (nbytes + len) size
        end
      | _ =>
        let len := size - nbytes in
        let len := if nbytes + len >? size then size - nbytes else len in
        (* Read the packet. *)
        let '(rc1, bs, w1) := dc_iostream_read E (world d) len in
        let bs := firstn (Z.to_nat len) bs in
        if status_eqb rc1 DC_STATUS_SUCCESS then
          mares_iconhd_read_loop n' transport rc1 (set_world d w1) (data ++ bs)
            (nbytes + Z.of_nat (length bs)) size
        else Ret (rc1, data ++ bs, set_world d w1)
      end
    end
  else Ret (rc, data, d).

Definition mares_iconhd_read (fuel : nat) (d : device) (size : Z)
    : res (dc_status_t * list byte * device) :=
  let transport := dc_iostream_get_transport E (world d) in
  mares_iconhd_read_loop fuel transport DC_STATUS_SUCCESS d [] 0 size.

Fixpoint mares_iconhd_write_loop (n : nat) (transport : dc_transport_t)
    (rc : dc_status_t) (d : device) (data : list byte) (nbytes size : Z)
    : res (dc_status_t * device) :=
  if nbytes <? size then
    match n with
    | O => OutOfFuel
    | S n' =>
      (* Set the maximum packet size. *)
      let len :=
        match transport with
        | DC_TRANSPORT_BLE => 20
        | _ => size - nbytes
        end in
      (* Limit the packet size to the total size. *)
      let len := if nbytes + len >? size then size - nbytes else len in
      (* Write the packet. *)
      let '(rc1, written, w1) :=
        dc_iostream_write E (world d) (slice data nbytes len) in
      if status_eqb rc1 DC_STATUS_SUCCESS then
        mares_iconhd_write_loop n' transport rc1 (set_world d w1) data
          (nbytes + Z.of_nat written) size
      else Ret (rc1, set_world d w1)
    end
  else Ret (rc, d).

Definition mares_iconhd_write (fuel : nat) (d : device) (data : list byte)
    (size : Z) : res (dc_status_t * device) :=
  let transport := dc_iostream_get_transport E (world d) in
  mares_iconhd_write_loop fuel transport DC_STATUS_SUCCESS d data 0 size.

(** ** Packet codec and retry engine *)

(** In C the answer is written into the buffer the caller passes; here
    an exchange hands back the bytes it has read and the caller stores
    them.  What the buffer holds after an exchange that failed is not
    modelled. *)

Definition mares_iconhd_packet (fuel : nat) (d : device)
    (command : list byte) (csize asize : Z)
    : res (dc_status_t * list byte * device) :=
  (* assert (csize >= 2) *)
  if csize <? 2 then Trap else
  if device_is_cancelled E (world d) then Ret (DC_STATUS_CANCELLED, [], d) else
  (* Send the command header to the dive computer. *)
  let* (status, d) := mares_iconhd_write fuel d command 2 in
  if negb (status_eqb status DC_STATUS_SUCCESS) then Ret (status, [], d) else
  (* Receive the header byte. *)
  let* (status, header, d) := mares_iconhd_read fuel d 1 in
  if negb (status_eqb status DC_STATUS_SUCCESS) then Ret (status, [], d) else
  (* Verify the header byte. *)
  if negb (u8 (nth 0 header x00) =? ACK) then Ret (DC_STATUS_PROTOCOL, [], d) else
  (* Send the command payload to the dive computer. *)
  let* (status, d) :=
    if csize >? 2 then mares_iconhd_write fuel d (skipn 2 command) (csize - 2)
    else Ret (status, d) in
  if negb (status_eqb status DC_STATUS_SUCCESS) then Ret (status, [], d) else
  (* Read the packet. *)
  let* (status, answer, d) := mares_iconhd_read fuel d asize in
  if negb (status_eqb status DC_STATUS_SUCCESS) then Ret (status, answer, d) else
  (* Receive the trailer byte. *)
  let* (status, trailer, d) := mares_iconhd_read fuel d 1 in
  if negb (status_eqb status DC_STATUS_SUCCESS) then Ret (status, answer, d) else
  (* Verify the trailer byte. *)
  if negb (u8 (nth 0 trailer x00) =? EOF) then Ret (DC_STATUS_PROTOCOL, answer, d) else
  Ret (DC_STATUS_SUCCESS, answer, d).

Fixpoint mares_iconhd_transfer_loop (n : nat) (fuel : nat) (d : device)
    (command : list byte) (csize asize : Z) (nretries : Z)
    : res (dc_status_t * list byte * device) :=
  match n with
  | O => OutOfFuel
  | S n' =>
    let* (rc, answer, d) := mares_iconhd_packet fuel d command csize asize in
    if status_eqb rc DC_STATUS_SUCCESS then Ret (DC_STATUS_SUCCESS, answer, d) else
    (* Automatically discard a corrupted packet, and request a new one. *)
    if negb (status_eqb rc DC_STATUS_PROTOCOL) && negb (status_eqb rc DC_STATUS_TIMEOUT)
    then Ret (rc, answer, d) else
    (* Abort if the maximum number of retries is reached. *)
    if nretries >=? MAXRETRIES then Ret (rc, answer, d) else
    (* Discard any garbage bytes. *)
    let d := set_world d (dc_iostream_purge E (world d) DC_DIRECTION_INPUT) in
    mares_iconhd_transfer_loop n' fuel d command csize asize (nretries + 1)
  end.

Definition mares_iconhd_transfer (fuel : nat) (d : device)
    (command : list byte) (csize asize : Z)
    : res (dc_status_t * list byte * device) :=
  mares_iconhd_transfer_loop (S (Z.to_nat MAXRETRIES)) fuel d command csize asize 0.

(** ** Model detector *)

(** [unsigned char name[16 + 1]] initialised from a string literal. *)
Definition model_name (s : String.string) : list byte :=
  let b := String.list_byte_of_string s in
  b ++ repeat x00 (16 + 1 - length b).

Definition models : list (list byte * Z) :=
  [ (model_name "Matrix"%string, MATRIX);
    (model_name "Smart"%string, SMART);
    (model_name "Smart Apnea"%string, SMARTAPNEA);
    (model_name "Icon HD"%string, ICONHD);
    (model_name "Icon AIR"%string, ICONHDNET);
    (model_name "Puck Pro"%string, PUCKPRO);
    (model_name "Nemo Wide 2"%string, NEMOWIDE2);
    (model_name "Puck 2"%string, PUCK2);
    (model_name "Quad Air"%string, QUADAIR);
    (model_name "Smart Air"%string, SMARTAIR);
    (model_name "Quad"%string, QUAD) ].

(** [memcmp (a, b, n) == 0] *)
Definition memcmp_eq (a b : list byte) (n : Z) : bool :=
  bytes_eqb (slice a 0 n) (slice b 0 n).

Fixpoint get_model_loop (version : list byte) (table : list (list byte * Z))
    (model : Z) : Z :=
  match table with
  | [] => model
  | (name, id) :: table' =>
    if memcmp_eq (slice version 0x46 16) name (17 - 1) then id
    else get_model_loop version table' model
  end.

Definition mares_iconhd_get_model (d : device) : Z :=
  (* Check the product name in the version packet against the list
     with valid names, and return the corresponding model number. *)
  get_model_loop (version d) models 0.

Definition set_identity (d : device) (m : Z)
    (l : mares_iconhd_layout_t) (ps : Z) : device :=
  {| world := world d; layout := Some l; fingerprint := fingerprint d;
     version := version d; model := m; packetsize := ps;
     cache := cache d; available := available d; offset := offset d |}.

Definition set_version (d : device) (v : list byte) : device :=
  {| world := world d; layout := layout d; fingerprint := fingerprint d;
     version := v; model := model d; packetsize := packetsize d;
     cache := cache d; available := available d; offset := offset d |}.

(** The result carries the session when one is handed back through
    [out], and the world as the call leaves it. *)
Definition mares_iconhd_device_open (fuel : nat) (out : bool) (w : W)
    : res (dc_status_t * option device * W) :=
  if negb out then Ret (DC_STATUS_INVALIDARGS, None, w) else
  (* Allocate memory. *)
  if negb (dc_device_allocate E w) then Ret (DC_STATUS_NOMEMORY, None, w) else
  (* Set the default values. *)
  let d := {| world := w; layout := None; fingerprint := repeat x00 10;
              version := repeat x00 140; model := 0; packetsize := 0;
              cache := repeat x00 20; available := 0; offset := 0 |} in
  (* Set the serial communication protocol (115200 8E1). *)
  let '(status, w) := dc_iostream_configure E (world d) in
  if negb (status_eqb status DC_STATUS_SUCCESS) then Ret (status, None, w) else
  (* Set the timeout for receiving data (1000 ms). *)
  let '(status, w) := dc_iostream_set_timeout E w 1000 in
  if negb (status_eqb status DC_STATUS_SUCCESS) then Ret (status, None, w) else
  (* Clear the DTR line. *)
  let '(status, w) := dc_iostream_set_dtr E w 0 in
  if negb (status_eqb status DC_STATUS_SUCCESS) then Ret (status, None, w) else
  (* Clear the RTS line. *)
  let '(status, w) := dc_iostream_set_rts E w 0 in
  if negb (status_eqb status DC_STATUS_SUCCESS) then Ret (status, None, w) else
  (* Make sure everything is in a sane state. *)
  let w := dc_iostream_purge E w DC_DIRECTION_ALL in
  (* Send the version command. *)
  let command := [xc2; x67] in
  let* (status, answer, d) :=
    mares_iconhd_transfer fuel (set_world d w) command 2 140 in
  if negb (status_eqb status DC_STATUS_SUCCESS) then Ret (status, None, world d) else
  let d := set_version d (answer ++ skipn (length answer) (version d)) in
  (* Autodetect the model using the version packet. *)
  let m := mares_iconhd_get_model d in
  (* Load the correct memory layout. *)
  let d :=
    if m =? MATRIX then set_identity d m mares_matrix_layout 256
    else if (m =? PUCKPRO) || (m =? PUCK2) || (m =? NEMOWIDE2) || (m =? SMART)
            || (m =? SMARTAPNEA) || (m =? QUAD)
    then set_identity d m mares_nemowide2_layout 256
    else if (m =? QUADAIR) || (m =? SMARTAIR)
    then set_identity d m mares_iconhdnet_layout 256
    else if m =? ICONHDNET then set_identity d m mares_iconhdnet_layout 4096
    else set_identity d m mares_iconhd_layout 4096 in
  Ret (DC_STATUS_SUCCESS, Some d, world d).

Definition mares_iconhd_device_set_fingerprint (d : device)
    (data : list byte) (size : Z) : dc_status_t * device :=
  if negb (size =? 0) && negb (size =? 10) then (DC_STATUS_INVALIDARGS, d)
  else if negb (size =? 0) then (DC_STATUS_SUCCESS, set_fingerprint d (slice data 0 10))
  else (DC_STATUS_SUCCESS, set_fingerprint d (repeat x00 10)).

(** ** Chunked memory reader *)

Fixpoint mares_iconhd_device_read_loop (n : nat) (fuel : nat)
    (rc : dc_status_t) (d : device) (address : Z) (data : list byte)
    (nbytes size : Z) : res (dc_status_t * list byte * device) :=
  if nbytes <? size then
    match n with
    | O => OutOfFuel
    | S n' =>
      (* Calculate the packet size. *)
      let len := u32 (size - nbytes) in
      let len := if len >? packetsize d then packetsize d else len in
      (* Read the packet. *)
      let command :=
        [xe7; x42;
         byte_of_Z (Z.land address 0xFF);
         byte_of_Z (Z.land (Z.shiftr address 8) 0xFF);
         byte_of_Z (Z.land (Z.shiftr address 16) 0xFF);
         byte_of_Z (Z.land (Z.shiftr address 24) 0xFF);
         byte_of_Z (Z.land len 0xFF);
         byte_of_Z (Z.land (Z.shiftr len 8) 0xFF);
         byte_of_Z (Z.land (Z.shiftr len 16) 0xFF);
         byte_of_Z (Z.land (Z.shiftr len 24) 0xFF)] in
      let* (rc, answer, d) := mares_iconhd_transfer fuel d command 10 len in
      if negb (status_eqb rc DC_STATUS_SUCCESS) then Ret (rc, data ++ answer, d) else
      mares_iconhd_device_read_loop n' fuel rc d (u32 (address + len))
        (data ++ answer) (u32 (nbytes + len)) size
    end
  else Ret (rc, data, d).

Definition mares_iconhd_device_read (fuel : nat) (d : device)
    (address size : Z) : res (dc_status_t * list byte * device) :=
  mares_iconhd_device_read_loop fuel fuel DC_STATUS_SUCCESS d address [] 0 size.

(** ** Ring-buffer dive enumerator *)

(** The scratch block [buffer] of the enumerator is [size] bytes held by
    a map from positions to bytes; every access is checked against the
    block and stops the run when it falls outside. *)
Definition in_bounds (size p n : Z) : bool :=
  (0 <=? p) && (p + n <=? size).

Definition bytes_at (mem : Z -> byte) (p n : Z) : list byte :=
  map (fun i => mem (p + Z.of_nat i)) (seq 0 (Z.to_nat n)).

Definition store (mem : Z -> byte) (p n : Z) (bs : list byte) : Z -> byte :=
  fun i => if (p <=? i) && (i <? p + n) then nth (Z.to_nat (i - p)) bs x00 else mem i.

Definition load16 (size : Z) (mem : Z -> byte) (p : Z) : res Z :=
  if in_bounds size p 2 then Ret (array_uint16_le mem p) else Trap.

Definition load32 (size : Z) (mem : Z -> byte) (p : Z) : res Z :=
  if in_bounds size p 4 then Ret (array_uint32_le mem p) else Trap.

Definition load_bytes (size : Z) (mem : Z -> byte) (p n : Z) : res (list byte) :=
  if in_bounds size p n then Ret (bytes_at mem p n) else Trap.

(** [dc_rbstream_read (rbstream, &progress, buffer + p, n)] *)
Definition rbstream_read_at (d : device) (progress : dc_event_progress_t)
    (size : Z) (mem : Z -> byte) (p n : Z)
    : res (dc_status_t * (Z -> byte) * dc_event_progress_t * device) :=
  if in_bounds size p n then
    let '(rc, bs, progress, d) := dc_rbstream_read E d progress n in
    Ret (rc, store mem p n bs, progress, d)
  else Trap.

(** The dive header size the enumerator reads first. *)
Definition foreach_header (model : Z) : Z :=
  if model =? ICONHDNET then 0x80
  else if model =? QUADAIR then 0x84
  else if (model =? SMART) || (model =? SMARTAIR) then 4 (* Type and number of samples only! *)
  else if model =? SMARTAPNEA then 6 (* Type and number of samples only! *)
  else 0x5C.

(** The header size, sample size and fingerprint offset of a dive. *)
Definition foreach_sizes (model mode : Z) : Z * Z * Z :=
  if model =? ICONHDNET then (0x80, 12, 6)
  else if model =? QUADAIR then (0x84, 12, 6)
  else if model =? SMART then
    if mode =? FREEDIVE then (0x2E, 6, 0x20) else (0x5C, 8, 2)
  else if model =? SMARTAPNEA then (0x50, 14, 0x40)
  else if model =? SMARTAIR then (0x84, 12, 2)
  else (0x5C, 8, 6).

(** One dive handed to the callback: the record and its fingerprint. *)
Definition dive_t : Type := (list byte * list byte)%type.

(** The variables of the enumerator loop; [wk_calls] lists the callback
    invocations made so far, oldest first. *)
Record walk_t : Type := {
  wk_rc : dc_status_t;
  wk_dev : device;
  wk_progress : dc_event_progress_t;
  wk_mem : Z -> byte;
  wk_offset : Z;
  wk_calls : list dive_t
}.

(** What the first half of an iteration has in hand once the dive is
    read: the loop variables, with [wk_offset] moved to the start of the
    dive, and the locals [type], [nsamples], [headersize], [samplesize],
    [fingerprint] and [nbytes]. *)
Record found_t : Type := {
  fd_walk : walk_t;
  fd_type : Z;
  fd_nsamples : Z;
  fd_headersize : Z;
  fd_samplesize : Z;
  fd_fingerprint : Z;
  fd_nbytes : Z
}.

Inductive read_t : Type :=
| Found (r : found_t)
| Stop (s : walk_t)
| Failed (rc : dc_status_t) (d : device).

Inductive step_t : Type :=
| Continue (s : walk_t)
| Break (s : walk_t)
| Return (rc : dc_status_t) (d : device) (calls : list dive_t).

Definition with_read (s : walk_t) (rc : dc_status_t) (mem : Z -> byte)
    (progress : dc_event_progress_t) (d : device) (offset : Z) : walk_t :=
  {| wk_rc := rc; wk_dev := d; wk_progress := progress; wk_mem := mem;
     wk_offset := offset; wk_calls := wk_calls s |}.

(** The loop body up to and including [offset -= nbytes]. *)
Definition foreach_read_dive (model header size : Z) (s : walk_t) : res read_t :=
  let offset := wk_offset s in
  (* Read the first part of the dive header. *)
  let* (rc, mem, progress, d) :=
    rbstream_read_at (wk_dev s) (wk_progress s) size (wk_mem s) (offset - header) header in
  if negb (status_eqb rc DC_STATUS_SUCCESS)
  then Ret (Failed rc (dc_rbstream_free E d)) else
  (* Get the number of samples in the profile data. *)
  let* (type, nsamples) :=
    if (model =? SMART) || (model =? SMARTAPNEA) || (model =? SMARTAIR) then
      let* type := load16 size mem (offset - header + 2) in
      let* nsamples := load16 size mem (offset - header + 0) in
      Ret (type, nsamples)
    else
      let* type := load16 size mem (offset - header + 0) in
      let* nsamples := load16 size mem (offset - header + 2) in
      Ret (type, nsamples) in
  if (nsamples =? 0xFFFF) || (type =? 0xFFFF)
  then Ret (Stop (with_read s rc mem progress d offset)) else
  (* Get the dive mode. *)
  let mode := Z.land type 0x03 in
  (* Get the header/sample size and fingerprint offset. *)
  let '(headersize, samplesize, fingerprint_offset) := foreach_sizes model mode in
  if offset <? headersize
  then Ret (Stop (with_read s rc mem progress d offset)) else
  (* Read the second part of the dive header. *)
  let* (rc, mem, progress, d) :=
    rbstream_read_at d progress size mem (offset - headersize) (u32 (headersize - header)) in
  if negb (status_eqb rc DC_STATUS_SUCCESS)
  then Ret (Failed rc (dc_rbstream_free E d)) else
  (* Calculate the total number of bytes for this dive. *)
  let nbytes := u32 (4 + headersize + nsamples * samplesize) in
  let* nbytes :=
    if (model =? ICONHDNET) || (model =? QUADAIR) || (model =? SMARTAIR) then
      Ret (u32 (nbytes + (nsamples / 4) * 8))
    else if model =? SMARTAPNEA then
      let* settings := load16 size mem (offset - headersize + 0x1C) in
      let* divetime := load32 size mem (offset - headersize + 0x24) in
      let samplerate := Z.shiftl 1 (Z.land (Z.shiftr settings 9) 0x03) in
      Ret (u32 (nbytes + divetime * samplerate * 2))
    else Ret nbytes in
  if offset <? nbytes
  then Ret (Stop (with_read s rc mem progress d offset)) else
  (* Read the remainder of the dive. *)
  let* (rc, mem, progress, d) :=
    rbstream_read_at d progress size mem (offset - nbytes) (u32 (nbytes - headersize)) in
  if negb (status_eqb rc DC_STATUS_SUCCESS)
  then Ret (Failed rc (dc_rbstream_free E d)) else
  (* Move to the start of the dive. *)
  let offset := offset - nbytes in
  Ret (Found {| fd_walk := with_read s rc mem progress d offset;
                fd_type := type; fd_nsamples := nsamples;
                fd_headersize := headersize; fd_samplesize := samplesize;
                fd_fingerprint := fingerprint_offset; fd_nbytes := nbytes |}).

(** The rest of the loop body: the stored length, the fingerprint and
    the callback. *)
Definition foreach_emit_dive (size : Z)
    (callback : option (dc_dive_callback_t W)) (r : found_t) : res step_t :=
  let s := fd_walk r in
  let offset := wk_offset s in
  (* Verify that the length that is stored in the profile data
     equals the calculated length. *)
  let* length := load32 size (wk_mem s) offset in
  if negb (length =? fd_nbytes r) then Ret (Break s) else
  let fp := offset + length - fd_headersize r + fd_fingerprint r in
  let* fp_bytes := load_bytes size (wk_mem s) fp 10 in
  if memcmp_eq fp_bytes (fingerprint (wk_dev s)) 10 then Ret (Break s) else
  match callback with
  | Some cb =>
    let* data := load_bytes size (wk_mem s) offset length in
    let '(go_on, w) := cb (world (wk_dev s)) data fp_bytes in
    let s' := {| wk_rc := wk_rc s; wk_dev := set_world (wk_dev s) w;
                 wk_progress := wk_progress s; wk_mem := wk_mem s;
                 wk_offset := offset; wk_calls := wk_calls s ++ [(data, fp_bytes)] |} in
    if negb go_on then Ret (Break s') else Ret (Continue s')
  | None => Ret (Continue s)
  end.

Definition foreach_iteration (model header size : Z)
    (callback : option (dc_dive_callback_t W)) (s : walk_t) : res step_t :=
  let* r := foreach_read_dive model header size s in
  match r with
  | Found r => foreach_emit_dive size callback r
  | Stop s' => Ret (Break s')
  | Failed rc d => Ret (Return rc d (wk_calls s))
  end.

Fixpoint foreach_loop (n : nat) (model header size : Z)
    (callback : option (dc_dive_callback_t W)) (s : walk_t)
    : res (dc_status_t * device * list dive_t) :=
  if wk_offset s >=? header + 4 then
    match n with
    | O => OutOfFuel
    | S n' =>
      let* r := foreach_iteration model header size callback s in
      match r with
      | Continue s' => foreach_loop n' model header size callback s'
      | Break s' => Ret (wk_rc s', dc_rbstream_free E (wk_dev s'), wk_calls s')
      | Return rc d calls => Ret (rc, d, calls)
      end
    end
  else Ret (wk_rc s, dc_rbstream_free E (wk_dev s), wk_calls s).

Definition emit (d : device) (e : dc_event_t) : device :=
  set_world d (device_event_emit E (world d) e).

(** The loop over the two candidate addresses of the ring pointer: a
    failed read leaves the function with its status, otherwise the loop
    ends with the pointer it settled on. *)
Fixpoint foreach_eop (fuel : nat) (config : list Z) (rc : dc_status_t)
    (d : device) (progress : dc_event_progress_t) (eop : Z)
    : res (dc_status_t * device + dc_status_t * device * dc_event_progress_t * Z) :=
  match config with
  | [] => Ret (inr (rc, d, progress, eop))
  | address :: config' =>
    (* Read the pointer. *)
    let* (rc, pointer, d) := mares_iconhd_device_read fuel d address 4 in
    if negb (status_eqb rc DC_STATUS_SUCCESS) then Ret (inl (rc, d)) else
    (* Update and emit a progress event. *)
    let progress := {| current := u32 (current progress + 4);
                       maximum := u32 (maximum progress + 4) |} in
    let d := emit d (DC_EVENT_PROGRESS progress) in
    let eop := array_uint32_le (of_list pointer) 0 in
    if negb (eop =? 0xFFFFFFFF) then Ret (inr (rc, d, progress, eop))
    else foreach_eop fuel config' rc d progress eop
  end.

Definition mares_iconhd_device_foreach (fuel : nat) (d : device)
    (callback : option (dc_dive_callback_t W))
    : res (dc_status_t * device * list dive_t) :=
  if negb (dc_device_isinstance E (world d)) then Ret (DC_STATUS_INVALIDARGS, d, []) else
  match layout d with
  | None => Trap
  | Some layout =>
    (* Enable progress notifications. *)
    let progress :=
      {| current := current (EVENT_PROGRESS_INITIALIZER E);
         maximum := u32 (rb_profile_end layout - rb_profile_begin layout + 4) |} in
    let d := emit d (DC_EVENT_PROGRESS progress) in
    (* Emit a vendor event. *)
    let d := emit d (DC_EVENT_VENDOR (version d) 140) in
    (* Read the serial number. *)
    let* (rc, serial, d) := mares_iconhd_device_read fuel d 0x0C 4 in
    if negb (status_eqb rc DC_STATUS_SUCCESS) then Ret (rc, d, []) else
    (* Update and emit a progress event. *)
    let progress := {| current := u32 (current progress + 4);
                       maximum := maximum progress |} in
    let d := emit d (DC_EVENT_PROGRESS progress) in
    (* Emit a device info event. *)
    let d := emit d (DC_EVENT_DEVINFO (model d) 0 (array_uint32_le (of_list serial) 0)) in
    (* Get the model code. *)
    let model := model d in
    (* Get the corresponding dive header size. *)
    let header := foreach_header model in
    (* Get the end of the profile ring buffer. *)
    let* r := foreach_eop fuel [0x2001; 0x3001] rc d progress 0 in
    match r with
    | inl (rc, d) => Ret (rc, d, [])
    | inr (rc, d, progress, eop) =>
      if (eop <? rb_profile_begin layout) || (eop >=? rb_profile_end layout) then
        if eop =? 0xFFFFFFFF then Ret (DC_STATUS_SUCCESS, d, []) (* No dives available. *)
        else Ret (DC_STATUS_DATAFORMAT, d, [])
      else
      (* Create the ringbuffer stream. *)
      let '(rc, d) :=
        dc_rbstream_new E d (packetsize d) (rb_profile_begin layout)
          (rb_profile_end layout) eop in
      if negb (status_eqb rc DC_STATUS_SUCCESS) then Ret (rc, d, []) else
      (* Allocate memory for the dives. *)
      let size := u32 (rb_profile_end layout - rb_profile_begin layout) in
      match malloc E (world d) size with
      | None => Ret (DC_STATUS_NOMEMORY, dc_rbstream_free E d, [])
      | Some buffer =>
        foreach_loop fuel model header size callback
          {| wk_rc := rc; wk_dev := d; wk_progress := progress; wk_mem := buffer;
             wk_offset := size; wk_calls := [] |}
      end
    end
  end.

End Backend.

Arguments walk_t : clear implicits.
Arguments found_t : clear implicits.
Arguments read_t : clear implicits.
Arguments step_t : clear implicits.
Arguments Found {W}.
Arguments Stop {W}.
Arguments Failed {W}.
Arguments Continue {W}.
Arguments Break {W}.
Arguments Return {W}.

(** ** A simulated device

    A concrete world on which the backend can be run: a serial or BLE
    line scripted as a list of bursts (a purge of the input drops the
    current burst), a log of what was written, a cancellation flag, and
    the memory image behind the ring-buffer stream. *)

Record sim_t : Type := {
  sim_transport : dc_transport_t;
  sim_cancelled : bool;
  sim_incoming : list (list byte);
  sim_sent : list (list byte);
  sim_memory : Z -> byte;
  sim_begin : Z;
  sim_end : Z;
  sim_cursor : Z;
  sim_requests : list Z
}.

Definition sim_line (w : sim_t) (incoming : list (list byte))
    (sent : list (list byte)) : sim_t :=
  {| sim_transport := sim_transport w; sim_cancelled := sim_cancelled w;
     sim_incoming := incoming; sim_sent := sent;
     sim_memory := sim_memory w; sim_begin := sim_begin w; sim_end := sim_end w;
     sim_cursor := sim_cursor w; sim_requests := sim_requests w |}.

Definition sim_ring (w : sim_t) (b e c : Z) (requests : list Z) : sim_t :=
  {| sim_transport := sim_transport w; sim_cancelled := sim_cancelled w;
     sim_incoming := sim_incoming w; sim_sent := sim_sent w;
     sim_memory := sim_memory w; sim_begin := b; sim_end := e;
     sim_cursor := c; sim_requests := requests |}.

Definition sim_read (w : sim_t) (n : Z) : dc_status_t * list byte * sim_t :=
  match sim_incoming w with
  | (b :: burst) :: rest =>
    let got := firstn (Z.to_nat n) (b :: burst) in
    (DC_STATUS_SUCCESS, got,
     sim_line w (skipn (Z.to_nat n) (b :: burst) :: rest) (sim_sent w))
  | _ => (DC_STATUS_TIMEOUT, [], w)
  end.

Definition sim_write (w : sim_t) (bs : list byte) : dc_status_t * nat * sim_t :=
  (DC_STATUS_SUCCESS, length bs, sim_line w (sim_incoming w) (sim_sent w ++ [bs])).

Definition sim_purge (w : sim_t) (dir : dc_direction_t) : sim_t :=
  match dir with
  | DC_DIRECTION_OUTPUT => w
  | _ => sim_line w (tl (sim_incoming w)) (sim_sent w)
  end.

(** Modelled from the spec: the ring-buffer stream of rbstream.c, a
    backward-reading accessor bound to [[begin, end)] and anchored at a
    write pointer; a read hands out the bytes that end at the cursor,
    wrapping from [begin] to [end], and moves the cursor back. *)
Definition ring_wrap (b e x : Z) : Z := b + (x - b) mod (e - b).

Definition sim_rbstream_new (d : mares_iconhd_device_t sim_t)
    (packetsize b e address : Z) : dc_status_t * mares_iconhd_device_t sim_t :=
  (DC_STATUS_SUCCESS, set_world d (sim_ring (world d) b e address (sim_requests (world d)))).

Definition sim_rbstream_read (d : mares_iconhd_device_t sim_t)
    (progress : dc_event_progress_t) (n : Z)
    : dc_status_t * list byte * dc_event_progress_t * mares_iconhd_device_t sim_t :=
  let w := world d in
  let bs := map (fun k => sim_memory w
                   (ring_wrap (sim_begin w) (sim_end w) (sim_cursor w - n + Z.of_nat k)))
                (seq 0 (Z.to_nat n)) in
  (DC_STATUS_SUCCESS, bs,
   {| current := u32 (current progress + n); maximum := maximum progress |},
   set_world d (sim_ring w (sim_begin w) (sim_end w)
                  (ring_wrap (sim_begin w) (sim_end w) (sim_cursor w - n))
                  (sim_requests w ++ [n]))).

Definition sim_env : Env sim_t :=
  {| EVENT_PROGRESS_INITIALIZER := {| current := 0; maximum := 2 ^ 32 - 1 |};
     dc_device_isinstance := fun _ => true;
     dc_device_allocate := fun _ => true;
     device_is_cancelled := sim_cancelled;
     device_event_emit := fun w _ => w;
     dc_iostream_get_transport := sim_transport;
     dc_iostream_configure := fun w => (DC_STATUS_SUCCESS, w);
     dc_iostream_set_timeout := fun w _ => (DC_STATUS_SUCCESS, w);
     dc_iostream_set_dtr := fun w _ => (DC_STATUS_SUCCESS, w);
     dc_iostream_set_rts := fun w _ => (DC_STATUS_SUCCESS, w);
     dc_iostream_read := sim_read;
     dc_iostream_write := sim_write;
     dc_iostream_purge := sim_purge;
     malloc := fun _ _ => Some (fun _ => x00);
     dc_rbstream_new := sim_rbstream_new;
     dc_rbstream_read := sim_rbstream_read;
     dc_rbstream_free := fun d => d |}.

(** A session on a serial line with the given script, as [open] leaves
    it for model [m]. *)
Definition sim_world (incoming : list (list byte)) (memory : Z -> byte) : sim_t :=
  {| sim_transport := DC_TRANSPORT_SERIAL; sim_cancelled := false;
     sim_incoming := incoming; sim_sent := [];
     sim_memory := memory; sim_begin := 0; sim_end := 0; sim_cursor := 0;
     sim_requests := [] |}.

Definition sim_device (m : Z) (l : mares_iconhd_layout_t) (ps : Z)
    (fp : list byte) (w : sim_t) : mares_iconhd_device_t sim_t :=
  {| world := w; layout := Some l; fingerprint := fp;
     version := repeat x00 140; model := m; packetsize := ps;
     cache := repeat x00 20; available := 0; offset := 0 |}.

(** The callbacks used on the simulated device. *)
Definition sim_accept : dc_dive_callback_t sim_t := fun w _ _ => (true, w).
Definition sim_refuse : dc_dive_callback_t sim_t := fun w _ _ => (false, w).

(** ** Vocabulary of the statements *)

Section Vocabulary.

Context {W : Type} (E : Env W).

(** The payload step of [packet]: the command bytes after the first two,
    sent only when there are any. *)
Definition packet_payload (fuel : nat) (d : mares_iconhd_device_t W)
    (command : list byte) (csize : Z) : res (dc_status_t * mares_iconhd_device_t W) :=
  if csize >? 2 then mares_iconhd_write E fuel d (skipn 2 command) (csize - 2)
  else Ret (DC_STATUS_SUCCESS, d).

(** The two failures [transfer] answers with a new attempt. *)
Definition retryable (rc : dc_status_t) : Prop :=
  rc = DC_STATUS_PROTOCOL \/ rc = DC_STATUS_TIMEOUT.

(** [retried k d dk]: starting from session [d], [k] exchanges in a row
    failed with [Protocol] or [Timeout], the input was purged after each
    of them, and the session is now [dk]. *)
Inductive retried (fuel : nat) (command : list byte) (csize asize : Z)
    : nat -> mares_iconhd_device_t W -> mares_iconhd_device_t W -> Prop :=
| retried_none d : retried fuel command csize asize 0 d d
| retried_more k d dk rc answer d' :
    retried fuel command csize asize k d dk ->
    mares_iconhd_packet E fuel dk command csize asize = Ret (rc, answer, d') ->
    retryable rc ->
    retried fuel command csize asize (S k) d
      (set_world d' (dc_iostream_purge E (world d') DC_DIRECTION_INPUT)).

End Vocabulary.

(** The model id the spec assigns to a version blob: the id of the first
    entry of the name table whose 16 NUL-padded bytes equal bytes
    [[0x46, 0x46 + 16)] of the blob, and 0 when there is none. *)
Definition detect_model (version : list byte) : Z :=
  match find (fun entry => bytes_eqb (slice version 0x46 16) (firstn 16 (fst entry))) models with
  | Some entry => snd entry
  | None => 0
  end.



(** *** The walk of the enumerator *)

Definition is_smart_family (model : Z) : bool :=
  (model =? SMART) || (model =? SMARTAPNEA) || (model =? SMARTAIR).

(** The total record length as the spec words it, over the integers:
    [4 + headersize + nsamples * samplesize], plus [(nsamples / 4) * 8]
    for ICONHDNET, QUADAIR and SMARTAIR, plus
    [divetime * samplerate * 2] for SMARTAPNEA, the last two fields being
    read from the header that starts at position [h] of [mem]. *)
Definition dive_length (model : Z) (mem : Z -> byte) (h : Z)
    (headersize samplesize nsamples : Z) : Z :=
  4 + headersize + nsamples * samplesize +
  (if (model =? ICONHDNET) || (model =? QUADAIR) || (model =? SMARTAIR)
   then (nsamples / 4) * 8
   else if model =? SMARTAPNEA then
     let settings := array_uint16_le mem (h + 0x1C) in
     let divetime := array_uint32_le mem (h + 0x24) in
     let samplerate := Z.shiftl 1 (Z.land (Z.shiftr settings 9) 0x03) in
     divetime * samplerate * 2
   else 0).

Section WalkVocabulary.

Context {W : Type} (E : Env W).

(** The length a record declares about itself, its bytes and its
    fingerprint slice, as the second half of an iteration sees them. *)
Definition stored_length (r : found_t W) : Z :=
  array_uint32_le (wk_mem (fd_walk r)) (wk_offset (fd_walk r)).

Definition dive_data (r : found_t W) : list byte :=
  bytes_at (wk_mem (fd_walk r)) (wk_offset (fd_walk r)) (fd_nbytes r).

Definition dive_fingerprint (r : found_t W) : list byte :=
  bytes_at (wk_mem (fd_walk r))
    (wk_offset (fd_walk r) + fd_nbytes r - fd_headersize r + fd_fingerprint r) 10.

Definition dive_of (r : found_t W) : dive_t := (dive_data r, dive_fingerprint r).

Definition fingerprint_matches (r : found_t W) : bool :=
  memcmp_eq (dive_fingerprint r) (fingerprint (wk_dev (fd_walk r))) 10.

(** The loop variables once the callback has been given the dive and has
    left the world as [w]. *)
Definition after_callback (r : found_t W) (w : W) : walk_t W :=
  {| wk_rc := wk_rc (fd_walk r); wk_dev := set_world (wk_dev (fd_walk r)) w;
     wk_progress := wk_progress (fd_walk r); wk_mem := wk_mem (fd_walk r);
     wk_offset := wk_offset (fd_walk r);
     wk_calls := wk_calls (fd_walk r) ++ [dive_of r] |}.

(** [walked s0 rs s]: from the loop variables [s0] the enumerator ran one
    iteration for each record of [rs], in that order; each iteration
    read its record, found the declared length equal to the computed one
    and the fingerprint different from the session's, and was told by the
    callback to go on; the loop variables are now [s]. *)
Inductive walked (model header size : Z) (cb : dc_dive_callback_t W)
    : walk_t W -> list (found_t W) -> walk_t W -> Prop :=
| walked_none s : walked model header size cb s [] s
| walked_more s0 rs s r w :
    walked model header size cb s0 rs s ->
    header + 4 <= wk_offset s ->
    foreach_read_dive E model header size s = Ret (Found r) ->
    stored_length r = fd_nbytes r ->
    fingerprint_matches r = false ->
    cb (world (wk_dev (fd_walk r))) (dive_data r) (dive_fingerprint r) = (true, w) ->
    walked model header size cb s0 (rs ++ [r]) (after_callback r w).

(** The start positions of the records of a walk go strictly down. *)
Fixpoint descending (from : Z) (rs : list (found_t W)) : Prop :=
  match rs with
  | [] => True
  | r :: rs' =>
    wk_offset (fd_walk r) + fd_nbytes r = from /\
    0 < fd_nbytes r /\
    descending (wk_offset (fd_walk r)) rs'
  end.

(** The offset a walk over [rs] ends at. *)
Fixpoint walk_end (from : Z) (rs : list (found_t W)) : Z :=
  match rs with
  | [] => from
  | r :: rs' => walk_end (wk_offset (fd_walk r)) rs'
  end.

End WalkVocabulary.

(** *** The prologue of [foreach] *)

Section PrologueVocabulary.

Context {W : Type} (E : Env W).

Local Abbreviation device := (mares_iconhd_device_t W).

(** A progress record after one more pointer has been read. *)
Definition bump (progress : dc_event_progress_t) : dc_event_progress_t :=
  {| current := u32 (current progress + 4); maximum := u32 (maximum progress + 4) |}.

(** The session and the progress record as [foreach] has them when it
    turns to the ring pointer, [dB] being the session the read of the
    serial number left. *)
Definition progress_at_serial (l : mares_iconhd_layout_t) : dc_event_progress_t :=
  {| current := current (EVENT_PROGRESS_INITIALIZER E);
     maximum := u32 (rb_profile_end l - rb_profile_begin l + 4) |}.

Definition session_at_serial (d : device) (l : mares_iconhd_layout_t) : device :=
  emit E (emit E d (DC_EVENT_PROGRESS (progress_at_serial l)))
    (DC_EVENT_VENDOR (version d) 140).

Definition progress_at_pointer (l : mares_iconhd_layout_t) : dc_event_progress_t :=
  {| current := u32 (current (progress_at_serial l) + 4);
     maximum := maximum (progress_at_serial l) |}.

Definition session_at_pointer (dB : device) (l : mares_iconhd_layout_t)
    (serial : list byte) : device :=
  emit E (emit E dB (DC_EVENT_PROGRESS (progress_at_pointer l)))
    (DC_EVENT_DEVINFO (model dB) 0 (array_uint32_le (of_list serial) 0)).

End PrologueVocabulary.

(** *** Dives as the callback receives them *)

(** A dive whose record starts with its own length as a 32-bit
    little-endian field and holds at least a header, and whose
    fingerprint is ten bytes of the record. *)
Definition well_formed_dive (dive : dive_t) : Prop :=
  let data := fst dive in
  let fp := snd dive in
  array_uint32_le (of_list data) 0 = Z.of_nat (length data) /\
  0x2E <= Z.of_nat (length data) /\
  exists k, 0 <= k /\ k + 10 <= Z.of_nat (length data) /\ fp = slice data k 10.

(** *** The chunked I/O adapter *)

Section AdapterVocabulary.

Context {W : Type} (E : Env W).

(** The receive cache of a session is in order: 20 bytes, of which
    [available] bytes starting at [offset] wait to be handed out. *)
Definition cache_ok (d : mares_iconhd_device_t W) : Prop :=
  length (cache d) = 20%nat /\
  0 <= offset d /\ 0 <= available d /\ offset d + available d <= 20.

(** The bytes received and not yet handed out. *)
Definition pending (d : mares_iconhd_device_t W) : list byte :=
  slice (cache d) (offset d) (available d).

(** [frames_read w frames w']: from world [w] the transport delivered
    the packets [frames], one read of at most 20 bytes each, and left
    the world [w']. *)
Inductive frames_read : W -> list (list byte) -> W -> Prop :=
| frames_read_none w : frames_read w [] w
| frames_read_more w bs w1 frames w' :
    dc_iostream_read E w 20 = (DC_STATUS_SUCCESS, bs, w1) ->
    frames_read w1 frames w' ->
    frames_read w (firstn 20 bs :: frames) w'.

(** [frames_written w frames w']: from world [w] the transport took the
    packets [frames], one write each, and left the world [w']. *)
Inductive frames_written : W -> list (list byte) -> W -> Prop :=
| frames_written_none w : frames_written w [] w
| frames_written_more w bs n w1 frames w' :
    dc_iostream_write E w bs = (DC_STATUS_SUCCESS, n, w1) ->
    frames_written w1 frames w' ->
    frames_written w (bs :: frames) w'.

(** A transport whose successful read of at least one byte delivers at
    least one byte, and one whose successful write takes the whole
    packet. *)
Definition productive_reads : Prop :=
  forall w n bs w',
    0 < n -> dc_iostream_read E w n = (DC_STATUS_SUCCESS, bs, w') -> bs <> [].

Definition whole_writes : Prop :=
  forall w bs n w',
    dc_iostream_write E w bs = (DC_STATUS_SUCCESS, n, w') -> n = length bs.

(** Two sessions that differ at most in the world and the receive
    cache. *)
Definition same_session (d d' : mares_iconhd_device_t W) : Prop :=
  layout d' = layout d /\ fingerprint d' = fingerprint d /\
  version d' = version d /\ model d' = model d /\ packetsize d' = packetsize d.

End AdapterVocabulary.

(** ** Inputs of the runs on the simulated device *)

Definition sim_blank : Z -> byte := fun _ => xff.

(** One good exchange: header 0xAA, four answer bytes, trailer 0xEA. *)
Definition sim_exchange : mares_iconhd_device_t sim_t :=
  sim_device SMART mares_nemowide2_layout 256 (repeat x00 10)
    (sim_world [[xaa; x01; x02; x03; x04; xea]] sim_blank).

(** Two corrupted exchanges, then a good one. *)
Definition sim_noisy : mares_iconhd_device_t sim_t :=
  sim_device SMART mares_nemowide2_layout 256 (repeat x00 10)
    (sim_world [[x00]; [xaa; x01; x02; x03; x04; x00];
                [xaa; x01; x02; x03; x04; xea]] sim_blank).

(** The line of a device that answers the read of the serial number and
    the read of the ring pointer at 0x2001, the pointer being [eop]. *)
Definition sim_script (eop : Z) : list (list byte) :=
  [[xaa; x01; x02; x03; x04; xea;
    xaa; byte_of_Z eop; byte_of_Z (Z.shiftr eop 8);
    byte_of_Z (Z.shiftr eop 16); byte_of_Z (Z.shiftr eop 24); xea]].

(** A version blob that names the Puck 2, behind the burst the purge of
    [open] drops. *)
Definition sim_puck2 : sim_t :=
  sim_world
    [[]; [xaa] ++ repeat x00 0x46 ++ firstn 16 (model_name "Puck 2")
         ++ repeat x00 (140 - 0x46 - 16) ++ [xea]]
    sim_blank.

(** The memory of a Smart that holds [count] dives without samples, the
    newest ending at address [top]: each is 4 bytes of length, 0x60, and
    a header of 0x5C bytes whose fingerprint bytes carry the age of the
    dive, 1 for the newest; the rest of the memory is erased. *)
Definition sim_smart_memory (count top : Z) : Z -> byte :=
  fun a =>
    if (a <? top) && (top - 96 * count <=? a) then
      let k := top - 1 - a in
      let p := 95 - k mod 96 in
      if p =? 0 then x60
      else if (6 <=? p) && (p <? 16) then byte_of_Z (k / 96 + 1)
      else x00
    else xff.

(** The memory of a Smart Apnea that holds one dive without samples
    ending at address [top], with the given dive time in its header. *)
Definition sim_apnea_memory (divetime top : Z) : Z -> byte :=
  fun a =>
    if (a <? top) && (top - 84 <=? a) then
      let p := a - (top - 84) in
      if p =? 0 then x54
      else if (40 <=? p) && (p <? 44) then byte_of_Z (Z.shiftr divetime (8 * (p - 40)))
      else if (68 <=? p) && (p <? 78) then x01
      else x00
    else xff.

(** A Smart whose ring pointer is [rb_profile_begin] and whose ring ends
    with one dive. *)
Definition sim_smart_at_begin : mares_iconhd_device_t sim_t :=
  sim_device SMART mares_nemowide2_layout 256 (repeat x00 10)
    (sim_world (sim_script 0xA000) (sim_smart_memory 1 0x40000)).

(** A Smart with an erased ring and the pointer at [rb_profile_begin]. *)
Definition sim_smart_erased : mares_iconhd_device_t sim_t :=
  sim_device SMART mares_nemowide2_layout 256 (repeat x00 10)
    (sim_world (sim_script 0xA000) sim_blank).

(** An Icon HD with an erased ring. *)
Definition sim_iconhd_erased : mares_iconhd_device_t sim_t :=
  sim_device ICONHD mares_iconhd_layout 4096 (repeat x00 10)
    (sim_world (sim_script 0x20000) sim_blank).

(** A device whose two ring pointers are both 0xFFFFFFFF, and one whose
    pointer lies below the ring. *)
Definition sim_no_pointer : mares_iconhd_device_t sim_t :=
  sim_device SMART mares_nemowide2_layout 256 (repeat x00 10)
    (sim_world
       [[xaa; x01; x02; x03; x04; xea; xaa; xff; xff; xff; xff; xea;
         xaa; xff; xff; xff; xff; xea]] sim_blank).

Definition sim_bad_pointer : mares_iconhd_device_t sim_t :=
  sim_device SMART mares_nemowide2_layout 256 (repeat x00 10)
    (sim_world (sim_script 0x1000) sim_blank).

(** A Smart Apnea whose newest dive carries the dive time 0x80000000,
    and one whose newest dive carries 0x7FFFFFD6. *)
Definition sim_apnea_long : mares_iconhd_device_t sim_t :=
  sim_device SMARTAPNEA mares_nemowide2_layout 256 (repeat x00 10)
    (sim_world (sim_script 0x20000) (sim_apnea_memory 0x80000000 0x20000)).

Definition sim_apnea_wrap : mares_iconhd_device_t sim_t :=
  sim_device SMARTAPNEA mares_nemowide2_layout 256 (repeat x00 10)
    (sim_world (sim_script 0x20000) (sim_apnea_memory 0x7FFFFFD6 0x20000)).

(** The loop variables of a walk over a Smart ring of three dives, in a
    session whose fingerprint is that of the second newest or of none. *)
Definition sim_walk (fp : list byte) (memory : Z -> byte) : walk_t sim_t :=
  {| wk_rc := DC_STATUS_SUCCESS;
     wk_dev := sim_device SMART mares_nemowide2_layout 256 fp
                 (sim_ring (sim_world [] memory) 0xA000 0x40000 0x20000 []);
     wk_progress := {| current := 8; maximum := 0x36008 |};
     wk_mem := fun _ => x00;
     wk_offset := 0x36000;
     wk_calls := [] |}.

(** The memory of a Smart with three dives, the second newest declaring
    a length of 0x61. *)
Definition sim_smart_damaged : Z -> byte :=
  fun a => if a =? 0x20000 - 192 then x61 else sim_smart_memory 3 0x20000 a.

(** What a run on the simulated device shows from outside: the status,
    the sizes asked of the ring stream, and the dives handed over. *)
Definition sim_outcome
    (r : res (dc_status_t * mares_iconhd_device_t sim_t * list dive_t))
    : option (dc_status_t * list Z * list dive_t) :=
  match r with
  | Ret (rc, d, calls) => Some (rc, sim_requests (world d), calls)
  | Trap => None
  | OutOfFuel => None
  end.

(** The dive the first half of an iteration reads on a Smart from the
    loop variables [s], and the loop variables after the callback
    [sim_accept] has taken it. *)
Definition sim_record (s : walk_t sim_t) : found_t sim_t :=
  match foreach_read_dive sim_env SMART (foreach_header SMART) 0x36000 s with
  | Ret (Found r) => r
  | _ => {| fd_walk := s; fd_type := 0; fd_nsamples := 0; fd_headersize := 0;
            fd_samplesize := 0; fd_fingerprint := 0; fd_nbytes := 0 |}
  end.

Definition sim_next (s : walk_t sim_t) : walk_t sim_t :=
  after_callback (sim_record s) (world (wk_dev (fd_walk (sim_record s)))).

(** The session and the bytes a 4-byte memory read leaves on the
    simulated device, and the session [open] hands back. *)
Definition sim_read_session (d : mares_iconhd_device_t sim_t) (address : Z)
    : mares_iconhd_device_t sim_t :=
  match mares_iconhd_device_read sim_env 8 d address 4 with
  | Ret (_, _, d') => d'
  | _ => d
  end.

Definition sim_read_bytes (d : mares_iconhd_device_t sim_t) (address : Z) : list byte :=
  match mares_iconhd_device_read sim_env 8 d address 4 with
  | Ret (_, data, _) => data
  | _ => []
  end.

Definition sim_opened (w : sim_t) : mares_iconhd_device_t sim_t :=
  match mares_iconhd_device_open sim_env 8 true w with
  | Ret (_, Some d, _) => d
  | _ => sim_device 0 mares_iconhd_layout 0 [] w
  end.

Definition sim_found (s : walk_t sim_t) : bool :=
  match foreach_read_dive sim_env SMART (foreach_header SMART) 0x36000 s with
  | Ret (Found _) => true
  | _ => false
  end.


(** A session on a packet transport whose line holds one burst of 25
    bytes, which the transport delivers as a packet of 20 bytes and a
    packet of 5. *)
Definition sim_ble : mares_iconhd_device_t sim_t :=
  sim_device SMART mares_nemowide2_layout 256 (repeat x00 10)
    {| sim_transport := DC_TRANSPORT_BLE; sim_cancelled := false;
       sim_incoming := [map byte_of_Z (map Z.of_nat (seq 1 25))]; sim_sent := [];
       sim_memory := sim_blank; sim_begin := 0; sim_end := 0; sim_cursor := 0;
       sim_requests := [] |}.

(** A session the application has cancelled. *)
Definition sim_stopped : mares_iconhd_device_t sim_t :=
  sim_device SMART mares_nemowide2_layout 256 (repeat x00 10)
    {| sim_transport := DC_TRANSPORT_SERIAL; sim_cancelled := true;
       sim_incoming := sim_script 0x20000; sim_sent := [];
       sim_memory := sim_blank; sim_begin := 0; sim_end := 0; sim_cursor := 0;
       sim_requests := [] |}.

(** What a run gives: whether it came back, whether it came back with
    [Success], and what it came back with. *)
Definition sim_returned {A : Type} (r : res A) : bool :=
  match r with
  | Ret _ => true
  | _ => false
  end.

Definition sim_ok2 {A : Type} (r : res (dc_status_t * A)) : bool :=
  match r with
  | Ret (DC_STATUS_SUCCESS, _) => true
  | _ => false
  end.

Definition sim_ok3 {A B : Type} (r : res (dc_status_t * A * B)) : bool :=
  match r with
  | Ret (DC_STATUS_SUCCESS, _, _) => true
  | _ => false
  end.

Definition sim_result {A : Type} (default : A) (r : res A) : A :=
  match r with
  | Ret a => a
  | _ => default
  end.

(** The memory of a Smart whose newest dive, ending at address [top], is
    a free dive with one sample: 4 bytes of length, 0x38, the six bytes
    of the sample and a header of 0x2E bytes that ends with the sample
    count 1 and the type 3; the rest of the memory is erased. *)
Definition sim_smart_freedive (top : Z) : Z -> byte :=
  fun a =>
    if (a <? top) && (top - 56 <=? a) then
      if a =? top - 56 then x38
      else if a =? top - 4 then x01
      else if a =? top - 2 then x03
      else x00
    else xff.
(** * Properties *)

Lemma status_eqb_eq (a b : dc_status_t) : status_eqb a b = true <-> a = b.
Proof. destruct a, b; simpl; split; intro H; try reflexivity; discriminate H. Qed.

Lemma status_eqb_refl (a : dc_status_t) : status_eqb a a = true.
Proof. apply status_eqb_eq. reflexivity. Qed.

Lemma status_eqb_neq (a b : dc_status_t) : status_eqb a b = false <-> a <> b.
Proof.
  split.
  - intros H Heq. apply status_eqb_eq in Heq. congruence.
  - intro H. destruct (status_eqb a b) eqn:Hab; [apply status_eqb_eq in Hab; contradiction | reflexivity].
Qed.

Lemma u8_range (b : byte) : 0 <= u8 b < 256.
Proof.
  unfold u8. pose proof (Byte.to_N_bounded b) as H.
  split; [apply N2Z.is_nonneg | lia].
Qed.

(** Boolean tests of the model turned into propositions. *)
Ltac zbool :=
  repeat match goal with
  | H : (_ >? _) = _ |- _ => rewrite Z.gtb_ltb in H
  | H : (_ >=? _) = _ |- _ => rewrite Z.geb_leb in H
  | H : (_ <? _) = true |- _ => apply Z.ltb_lt in H
  | H : (_ <? _) = false |- _ => apply Z.ltb_ge in H
  | H : (_ <=? _) = true |- _ => apply Z.leb_le in H
  | H : (_ <=? _) = false |- _ => apply Z.leb_gt in H
  | H : (_ =? _) = true |- _ => apply Z.eqb_eq in H
  | H : (_ =? _) = false |- _ => apply Z.eqb_neq in H
  | H : negb _ = true |- _ => apply negb_true_iff in H
  | H : negb _ = false |- _ => apply negb_false_iff in H
  | H : (_ && _) = true |- _ => apply andb_true_iff in H; destruct H
  | H : (_ || _) = false |- _ => apply orb_false_iff in H; destruct H
  end.

Lemma slice_length (p : list byte) (off n : Z) : length (slice p off n) = Z.to_nat n.
Proof. unfold slice. rewrite length_map, length_seq. reflexivity. Qed.

Section AdapterFacts.

Context {W : Type} (E : Env W).

Local Abbreviation device := (mares_iconhd_device_t W).

Local Opaque firstn skipn slice.

(** A successful read of the adapter hands back exactly the number of
    bytes asked for. *)
Lemma mares_iconhd_read_loop_exact (n : nat) :
  forall transport rc (d : device) data nbytes size data' d',
    0 <= available d ->
    Z.of_nat (length data) = nbytes ->
    nbytes <= size ->
    mares_iconhd_read_loop E n transport rc d data nbytes size
      = Ret (DC_STATUS_SUCCESS, data', d') ->
    Z.of_nat (length data') = size /\ 0 <= available d'.
Proof.
  induction n as [|n IH]; intros transport rc d data nbytes size data' d' Ha Hl Hs H;
    simpl in H; destruct (nbytes <? size) eqn:Hlt;
    try discriminate H.
  - apply Z.ltb_ge in Hlt. inversion H; subst. split; [lia | assumption].
  - apply Z.ltb_lt in Hlt. destruct transport.
    + (* serial *)
      destruct (dc_iostream_read E (world d) _) as [[rc1 bs] w1] eqn:Hr.
      destruct (status_eqb rc1 DC_STATUS_SUCCESS) eqn:Hrc.
      * apply IH in H; try assumption.
        -- rewrite length_app, Nat2Z.inj_add. lia.
        -- assert (Hb : (length (firstn (Z.to_nat (if nbytes + (size - nbytes) >? size
                          then size - nbytes else size - nbytes)) bs) <=
                         Z.to_nat (size - nbytes))%nat).
           { destruct (nbytes + (size - nbytes) >? size); apply firstn_le_length. }
           destruct (nbytes + (size - nbytes) >? size);
           lia.
      * inversion H; subst. discriminate Hrc.
    + (* BLE *)
      destruct (available d =? 0) eqn:Hav.
      * destruct (dc_iostream_read E (world d) 20) as [[rc1 bs] w1] eqn:Hr.
        destruct (status_eqb rc1 DC_STATUS_SUCCESS) eqn:Hrc.
        -- cbv zeta in H. apply IH in H; try assumption.
           ++ simpl. destruct (_ >? size) eqn:Hc; simpl in *; zbool; lia.
           ++ rewrite length_app, slice_length, Nat2Z.inj_add. simpl.
              destruct (_ >? size) eqn:Hc; simpl in *; zbool; lia.
           ++ simpl. destruct (_ >? size) eqn:Hc; simpl in *; zbool; lia.
        -- inversion H; subst. discriminate Hrc.
      * cbv zeta in H. apply IH in H; try assumption.
        -- simpl. destruct (_ >? size) eqn:Hc; simpl in *; zbool; lia.
        -- rewrite length_app, slice_length, Nat2Z.inj_add.
           destruct (_ >? size) eqn:Hc; simpl in *; zbool; lia.
        -- destruct (_ >? size) eqn:Hc; simpl in *; zbool; lia.
  - apply Z.ltb_ge in Hlt. inversion H; subst. split; [lia | assumption].
Qed.

Lemma mares_iconhd_read_exact (fuel : nat) (d : device) (size : Z) data d' :
  0 <= available d -> 0 <= size ->
  mares_iconhd_read E fuel d size = Ret (DC_STATUS_SUCCESS, data, d') ->
  Z.of_nat (length data) = size /\ 0 <= available d'.
Proof.
  intros Ha Hs H. unfold mares_iconhd_read in H.
  eapply mares_iconhd_read_loop_exact in H; eauto.
Qed.

Lemma mares_iconhd_write_loop_cache (n : nat) :
  forall transport rc (d : device) data nbytes size rc' d',
    mares_iconhd_write_loop E n transport rc d data nbytes size = Ret (rc', d') ->
    available d' = available d.
Proof.
  induction n as [|n IH]; intros transport rc d data nbytes size rc' d' H;
    simpl in H; destruct (nbytes <? size); try discriminate H;
    try (inversion H; subst; reflexivity).
  destruct (dc_iostream_write E (world d) _) as [[rc1 len] w1].
  destruct (status_eqb rc1 DC_STATUS_SUCCESS).
  - apply IH in H. exact H.
  - inversion H; subst. reflexivity.
Qed.

Lemma mares_iconhd_write_cache (fuel : nat) (d : device) data size rc' d' :
  mares_iconhd_write E fuel d data size = Ret (rc', d') ->
  available d' = available d.
Proof. apply mares_iconhd_write_loop_cache. Qed.

End AdapterFacts.


Section TransferFacts.

Context {W : Type} (E : Env W).

Local Abbreviation device := (mares_iconhd_device_t W).

Variables (fuel : nat) (command : list byte) (csize asize : Z).

Local Abbreviation packet := (fun d => mares_iconhd_packet E fuel d command csize asize).
Local Abbreviation purged :=
  (fun d : device => set_world d (dc_iostream_purge E (world d) DC_DIRECTION_INPUT)).

Lemma retryable_test (rc : dc_status_t) :
  retryable rc ->
  status_eqb rc DC_STATUS_SUCCESS = false /\
  negb (status_eqb rc DC_STATUS_PROTOCOL) && negb (status_eqb rc DC_STATUS_TIMEOUT) = false.
Proof. intros [-> | ->]; split; reflexivity. Qed.

Lemma not_retryable_test (rc : dc_status_t) :
  rc <> DC_STATUS_PROTOCOL -> rc <> DC_STATUS_TIMEOUT ->
  negb (status_eqb rc DC_STATUS_PROTOCOL) && negb (status_eqb rc DC_STATUS_TIMEOUT) = true.
Proof. intros H1 H2. destruct rc; try reflexivity; congruence. Qed.

(** The loop after [k] failed attempts is the loop started afresh on the
    purged session with [k] more retries on the counter. *)
Lemma transfer_loop_retried k (d dk : device) :
  retried E fuel command csize asize k d dk ->
  forall n nretries,
    nretries + Z.of_nat k <= MAXRETRIES ->
    mares_iconhd_transfer_loop E (k + n) fuel d command csize asize nretries
    = mares_iconhd_transfer_loop E n fuel dk command csize asize (nretries + Z.of_nat k).
Proof.
  induction 1 as [d | k d dk rc answer d' Hk IH Hp Hrc]; intros n nretries Hn.
  - replace (nretries + Z.of_nat 0) with nretries by lia. reflexivity.
  - replace (S k + n)%nat with (k + S n)%nat by lia.
    rewrite IH by lia.
    cbn [mares_iconhd_transfer_loop]. rewrite Hp. cbn [bind].
    destruct (retryable_test Hrc) as [-> ->].
    replace (nretries + Z.of_nat k >=? MAXRETRIES) with false
      by (symmetry; rewrite Z.geb_leb; apply Z.leb_gt; lia).
    replace (nretries + Z.of_nat (S k)) with (nretries + Z.of_nat k + 1) by lia.
    reflexivity.
Qed.

Lemma retried_first k (d d1 dk : device) rc answer :
  packet d = Ret (rc, answer, d1) -> retryable rc ->
  retried E fuel command csize asize k (purged d1) dk ->
  retried E fuel command csize asize (S k) d dk.
Proof.
  intros Hp Hrc H. remember (purged d1) as d0 eqn:Hd0.
  induction H as [d0 | k d0 dk rc' answer' d' Hk IH Hp' Hrc'].
  - subst d0. eapply retried_more; [constructor | exact Hp | exact Hrc].
  - eapply retried_more; [apply IH; assumption | exact Hp' | exact Hrc'].
Qed.

(** Every way the loop can return, read back as a run of attempts. *)
Lemma transfer_loop_returns n :
  forall (d : device) nretries rc answer d',
    0 <= nretries <= MAXRETRIES ->
    mares_iconhd_transfer_loop E n fuel d command csize asize nretries
      = Ret (rc, answer, d') ->
    exists k dk,
      retried E fuel command csize asize k d dk /\
      packet dk = Ret (rc, answer, d') /\
      nretries + Z.of_nat k <= MAXRETRIES /\
      (retryable rc -> nretries + Z.of_nat k = MAXRETRIES).
Proof.
  induction n as [|n IH]; intros d nretries rc answer d' Hn H; [discriminate H|].
  cbn [mares_iconhd_transfer_loop] in H.
  destruct (packet d) as [[[rc1 a1] d1]| |] eqn:Hp; cbn [bind] in H; try discriminate H.
  destruct (status_eqb rc1 DC_STATUS_SUCCESS) eqn:Hs.
  { apply status_eqb_eq in Hs. inversion H; subst.
    exists 0%nat, d. split; [constructor|]. split; [assumption|].
    split; [lia|]. intros [Hx | Hx]; discriminate Hx. }
  destruct (negb (status_eqb rc1 DC_STATUS_PROTOCOL) &&
            negb (status_eqb rc1 DC_STATUS_TIMEOUT)) eqn:Hr.
  { inversion H; subst. exists 0%nat, d. split; [constructor|]. split; [assumption|].
    split; [lia|]. intros [Hx | Hx]; subst; discriminate Hr. }
  assert (Hrc1 : retryable rc1).
  { destruct rc1; try discriminate Hr; try discriminate Hs;
      [left | right]; reflexivity. }
  destruct (nretries >=? MAXRETRIES) eqn:Hm.
  { inversion H; subst. exists 0%nat, d. split; [constructor|]. split; [assumption|].
    zbool. split; lia. }
  zbool. apply IH in H; [|lia]. destruct H as (k & dk & Hk & Hpk & Hle & Hend).
  exists (S k), dk. split; [eapply retried_first; eauto|]. split; [assumption|].
  split; [lia|]. intro Hx. specialize (Hend Hx). lia.
Qed.

(** The loop started with enough rounds never runs out of them. *)
Lemma transfer_loop_total n :
  forall (d : device) nretries,
    (forall d0, exists r, packet d0 = Ret r) ->
    0 <= nretries -> (0 < n)%nat -> MAXRETRIES - nretries < Z.of_nat n ->
    exists r, mares_iconhd_transfer_loop E n fuel d command csize asize nretries = Ret r.
Proof.
  induction n as [|n IH]; intros d nretries Hp H0 Hpos Hn; [lia|].
  cbn [mares_iconhd_transfer_loop].
  destruct (Hp d) as [[[rc a] d1] ->]. cbn [bind].
  destruct (status_eqb rc DC_STATUS_SUCCESS); [eexists; reflexivity|].
  destruct (_ && _); [eexists; reflexivity|].
  destruct (nretries >=? MAXRETRIES) eqn:Hm; [eexists; reflexivity|].
  zbool. unfold MAXRETRIES in *. apply IH; try assumption; lia.
Qed.

(** C6: [transfer] repeats [packet] only after a [Protocol] or [Timeout]
    failure and purges the input before each new attempt.  An attempt
    among the first five that succeeds, or fails in any other way, ends
    the call with that attempt's result; the result of the fifth attempt
    is returned whatever it is, with no purge after it.  Every result of
    [transfer] arises in one of these two ways, after at most four
    retries, and [transfer] returns whenever [packet] does. *)
Theorem transfer_retry (d : device) :
  (forall k dk rc answer d',
     (k <= 4)%nat ->
     retried E fuel command csize asize k d dk ->
     packet dk = Ret (rc, answer, d') ->
     rc <> DC_STATUS_PROTOCOL -> rc <> DC_STATUS_TIMEOUT ->
     mares_iconhd_transfer E fuel d command csize asize = Ret (rc, answer, d'))
  /\
  (forall d4 rc answer d',
     retried E fuel command csize asize 4 d d4 ->
     packet d4 = Ret (rc, answer, d') ->
     mares_iconhd_transfer E fuel d command csize asize = Ret (rc, answer, d'))
  /\
  (forall rc answer d',
     mares_iconhd_transfer E fuel d command csize asize = Ret (rc, answer, d') ->
     exists k dk,
       (k <= 4)%nat /\
       retried E fuel command csize asize k d dk /\
       packet dk = Ret (rc, answer, d') /\
       (retryable rc -> k = 4%nat))
  /\
  ((forall d0, exists r, packet d0 = Ret r) ->
   exists r, mares_iconhd_transfer E fuel d command csize asize = Ret r).
Proof.
  unfold mares_iconhd_transfer.
  assert (Hfive : forall k dk rc answer d',
             (k <= 4)%nat ->
             retried E fuel command csize asize k d dk ->
             packet dk = Ret (rc, answer, d') ->
             (k = 4%nat \/ (rc <> DC_STATUS_PROTOCOL /\ rc <> DC_STATUS_TIMEOUT)) ->
             mares_iconhd_transfer_loop E (S (Z.to_nat MAXRETRIES)) fuel d command
               csize asize 0 = Ret (rc, answer, d')).
  { intros k dk rc answer d' Hk Hr Hp Hend.
    replace (S (Z.to_nat MAXRETRIES)) with (k + S (4 - k))%nat
      by (unfold MAXRETRIES; lia).
    rewrite (transfer_loop_retried Hr) by (unfold MAXRETRIES; lia).
    cbn [mares_iconhd_transfer_loop]. rewrite Hp. cbn [bind].
    destruct (status_eqb rc DC_STATUS_SUCCESS) eqn:Hs.
    { apply status_eqb_eq in Hs. subst rc. reflexivity. }
    destruct (_ && _) eqn:Hn; [reflexivity|].
    destruct Hend as [-> | [H1 H2]].
    - reflexivity.
    - rewrite (not_retryable_test H1 H2) in Hn. discriminate Hn. }
  split; [|split; [|split]].
  - intros k dk rc answer d' Hk Hr Hp H1 H2. eapply Hfive; eauto.
  - intros d4 rc answer d' Hr Hp. eapply Hfive; eauto.
  - intros rc answer d' H.
    apply transfer_loop_returns in H; [|unfold MAXRETRIES; lia].
    destruct H as (k & dk & Hk & Hp & Hle & Hend).
    unfold MAXRETRIES in Hle, Hend.
    exists k, dk. repeat split; try assumption; [lia|].
    intro Hrt. specialize (Hend Hrt). lia.
  - intro Hp. apply transfer_loop_total; try assumption; unfold MAXRETRIES; lia.
Qed.

End TransferFacts.

Section ModelFacts.

Context {W : Type} (E : Env W).

Local Abbreviation device := (mares_iconhd_device_t W).

Lemma name_slice_twice (v : list byte) :
  slice (slice v 0x46 16) 0 (17 - 1) = slice v 0x46 16.
Proof. reflexivity. Qed.

Lemma models_padded :
  Forall (fun entry => slice (fst entry) 0 (17 - 1) = firstn 16 (fst entry)) models.
Proof. repeat constructor. Qed.

Lemma get_model_loop_find (v : list byte) (table : list (list byte * Z)) :
  Forall (fun entry => slice (fst entry) 0 (17 - 1) = firstn 16 (fst entry)) table ->
  get_model_loop v table 0 =
  match find (fun entry => bytes_eqb (slice v 0x46 16) (firstn 16 (fst entry))) table with
  | Some entry => snd entry
  | None => 0
  end.
Proof.
  induction 1 as [|[name id] table Hname Htable IH]; [reflexivity|].
  cbn [get_model_loop find fst snd]. unfold memcmp_eq.
  rewrite name_slice_twice. cbn [fst] in Hname. rewrite Hname.
  destruct (bytes_eqb _ _); [reflexivity | exact IH].
Qed.

Lemma get_model_detect (d : device) :
  mares_iconhd_get_model d = detect_model (version d).
Proof. apply get_model_loop_find, models_padded. Qed.

Lemma bytes_eqb_neq (a b : list byte) : a <> b -> bytes_eqb a b = false.
Proof. intro H. unfold bytes_eqb. destruct (list_eq_dec _ a b); [contradiction | reflexivity]. Qed.

Lemma detect_unknown (v : list byte) :
  (forall entry, In entry models -> slice v 0x46 16 <> firstn 16 (fst entry)) ->
  detect_model v = 0.
Proof.
  intro H. unfold detect_model.
  assert (Hnone : forall table, (forall entry, In entry table -> In entry models) ->
            find (fun entry => bytes_eqb (slice v 0x46 16) (firstn 16 (fst entry))) table = None).
  { induction table as [|entry table IH]; intro Hin; [reflexivity|].
    cbn [find]. rewrite bytes_eqb_neq by (apply H, Hin; left; reflexivity).
    apply IH. intros e He. apply Hin. right. exact He. }
  rewrite Hnone; [reflexivity | auto].
Qed.

Lemma detect_puck2 (v : list byte) :
  slice v 0x46 16 = firstn 16 (model_name "Puck 2") ->
  detect_model v = PUCK2.
Proof. intro H. unfold detect_model. rewrite H. reflexivity. Qed.

(** What a successful [open] leaves in the session: the model the name
    table gives for the version blob, and the layout and packet size of
    the switch on that model. *)
Lemma open_identity (fuel : nat) (w w' : W) (d : device) :
  mares_iconhd_device_open E fuel true w = Ret (DC_STATUS_SUCCESS, Some d, w') ->
  let m := detect_model (version d) in
  model d = m /\
  (layout d, packetsize d) =
    (if m =? MATRIX then (Some mares_matrix_layout, 256)
     else if (m =? PUCKPRO) || (m =? PUCK2) || (m =? NEMOWIDE2) || (m =? SMART)
             || (m =? SMARTAPNEA) || (m =? QUAD)
     then (Some mares_nemowide2_layout, 256)
     else if (m =? QUADAIR) || (m =? SMARTAIR) then (Some mares_iconhdnet_layout, 256)
     else if m =? ICONHDNET then (Some mares_iconhdnet_layout, 4096)
     else (Some mares_iconhd_layout, 4096)).
Proof.
  unfold mares_iconhd_device_open. cbn [negb].
  destruct (dc_device_allocate E w); cbn [negb]; [|discriminate].
  cbn [world].
  destruct (dc_iostream_configure E w) as [s1 w1].
  destruct (status_eqb s1 DC_STATUS_SUCCESS); cbn [negb]; [|discriminate].
  destruct (dc_iostream_set_timeout E w1 1000) as [s2 w2].
  destruct (status_eqb s2 DC_STATUS_SUCCESS); cbn [negb]; [|discriminate].
  destruct (dc_iostream_set_dtr E w2 0) as [s3 w3].
  destruct (status_eqb s3 DC_STATUS_SUCCESS); cbn [negb]; [|discriminate].
  destruct (dc_iostream_set_rts E w3 0) as [s4 w4].
  destruct (status_eqb s4 DC_STATUS_SUCCESS); cbn [negb]; [|discriminate].
  destruct (mares_iconhd_transfer E fuel _ _ 2 140) as [[[s5 answer] d5]| |];
    cbn [bind]; try discriminate.
  destruct (status_eqb s5 DC_STATUS_SUCCESS); cbn [negb]; [|discriminate].
  intro H. injection H as Hd _.
  set (d6 := set_version d5 (answer ++ skipn (length answer) (version d5))) in Hd.
  rewrite (get_model_detect d6) in Hd.
  set (m := detect_model (version d6)) in Hd.
  assert (Hall : version d = version d6 /\ model d = m /\
            (layout d, packetsize d) =
            (if m =? MATRIX then (Some mares_matrix_layout, 256)
             else if (m =? PUCKPRO) || (m =? PUCK2) || (m =? NEMOWIDE2) || (m =? SMART)
                     || (m =? SMARTAPNEA) || (m =? QUAD)
             then (Some mares_nemowide2_layout, 256)
             else if (m =? QUADAIR) || (m =? SMARTAIR) then (Some mares_iconhdnet_layout, 256)
             else if m =? ICONHDNET then (Some mares_iconhdnet_layout, 4096)
             else (Some mares_iconhd_layout, 4096))).
  { subst d.
    destruct (m =? MATRIX); [repeat split; reflexivity|].
    destruct ((m =? PUCKPRO) || (m =? PUCK2) || (m =? NEMOWIDE2) || (m =? SMART)
              || (m =? SMARTAPNEA) || (m =? QUAD)); [repeat split; reflexivity|].
    destruct ((m =? QUADAIR) || (m =? SMARTAIR)); [repeat split; reflexivity|].
    destruct (m =? ICONHDNET); repeat split; reflexivity. }
  destruct Hall as (Hv & Hm & Hl). rewrite Hv. fold m. split; assumption.
Qed.

(** C8: the model is found by comparing bytes [[0x46, 0x46 + 16)] of the
    version blob with the 16 NUL-padded bytes of each name of the table,
    in table order, the first equal name giving the model and no equal
    name giving 0.  A session opened on a blob that names "Puck 2" has
    model PUCK2, the nemowide2 layout and packet size 256; one opened on
    a blob whose name is not in the table has model 0, the iconhd layout
    and packet size 4096. *)
Theorem model_detection :
  (forall d : device, mares_iconhd_get_model d = detect_model (version d))
  /\
  (forall fuel w w' (d : device),
     mares_iconhd_device_open E fuel true w = Ret (DC_STATUS_SUCCESS, Some d, w') ->
     (slice (version d) 0x46 16 = firstn 16 (model_name "Puck 2") ->
      model d = PUCK2 /\ layout d = Some mares_nemowide2_layout /\ packetsize d = 256)
     /\
     ((forall entry, In entry models -> slice (version d) 0x46 16 <> firstn 16 (fst entry)) ->
      model d = 0 /\ layout d = Some mares_iconhd_layout /\ packetsize d = 4096)).
Proof.
  split; [exact get_model_detect|].
  intros fuel w w' d H. apply open_identity in H. cbv zeta in H.
  destruct H as [Hm Hl]. split; intro Hname.
  - rewrite (detect_puck2 Hname) in Hm, Hl. cbn in Hl.
    inversion Hl. auto.
  - rewrite (detect_unknown Hname) in Hm, Hl. cbn in Hl.
    inversion Hl. auto.
Qed.

End ModelFacts.

(** ** The scratch block *)

Unset Implicit Arguments.

Lemma array_uint16_le_range (f : Z -> byte) (p : Z) :
  0 <= array_uint16_le f p < 65536.
Proof.
  unfold array_uint16_le. rewrite Z.shiftl_mul_pow2 by lia.
  pose proof (u8_range (f p)). pose proof (u8_range (f (p + 1))). lia.
Qed.

Lemma array_uint32_le_range (f : Z -> byte) (p : Z) :
  0 <= array_uint32_le f p < 2 ^ 32.
Proof.
  unfold array_uint32_le. rewrite !Z.shiftl_mul_pow2 by lia.
  pose proof (u8_range (f p)). pose proof (u8_range (f (p + 1))).
  pose proof (u8_range (f (p + 2))). pose proof (u8_range (f (p + 3))). lia.
Qed.

Lemma array_uint16_le_ext (f g : Z -> byte) (p : Z) :
  (forall i, p <= i < p + 2 -> f i = g i) ->
  array_uint16_le f p = array_uint16_le g p.
Proof.
  intro H. unfold array_uint16_le. rewrite (H p), (H (p + 1)) by lia. reflexivity.
Qed.

Lemma array_uint32_le_ext (f g : Z -> byte) (p : Z) :
  (forall i, p <= i < p + 4 -> f i = g i) ->
  array_uint32_le f p = array_uint32_le g p.
Proof.
  intro H. unfold array_uint32_le.
  rewrite (H p), (H (p + 1)), (H (p + 2)), (H (p + 3)) by lia. reflexivity.
Qed.

Lemma bytes_at_ext (f g : Z -> byte) (p n : Z) :
  (forall i, p <= i < p + n -> f i = g i) ->
  bytes_at f p n = bytes_at g p n.
Proof.
  intro H. unfold bytes_at. apply map_ext_in. intros k Hk.
  apply in_seq in Hk. apply H. lia.
Qed.

Lemma bytes_at_length (f : Z -> byte) (p n : Z) :
  length (bytes_at f p n) = Z.to_nat n.
Proof. unfold bytes_at. rewrite length_map, length_seq. reflexivity. Qed.

Lemma store_inside (mem : Z -> byte) (p n : Z) (bs : list byte) (i : Z) :
  p <= i < p + n -> store mem p n bs i = nth (Z.to_nat (i - p)) bs x00.
Proof.
  intro H. unfold store.
  replace (p <=? i) with true by (symmetry; apply Z.leb_le; lia).
  replace (i <? p + n) with true by (symmetry; apply Z.ltb_lt; lia).
  reflexivity.
Qed.

Lemma store_outside (mem : Z -> byte) (p n : Z) (bs : list byte) (i : Z) :
  i < p \/ p + n <= i -> store mem p n bs i = mem i.
Proof.
  intro H. unfold store.
  destruct (p <=? i) eqn:H1; [|reflexivity].
  destruct (i <? p + n) eqn:H2; [|reflexivity].
  zbool. lia.
Qed.

Lemma in_bounds_spec (size p n : Z) :
  in_bounds size p n = true <-> 0 <= p /\ p + n <= size.
Proof.
  unfold in_bounds. rewrite andb_true_iff, Z.leb_le, Z.leb_le. reflexivity.
Qed.

Lemma load16_ret (size : Z) (mem : Z -> byte) (p v : Z) :
  load16 size mem p = Ret v ->
  in_bounds size p 2 = true /\ v = array_uint16_le mem p.
Proof.
  unfold load16. destruct (in_bounds size p 2); [|discriminate].
  intro H. inversion H. split; reflexivity.
Qed.

Lemma load32_ret (size : Z) (mem : Z -> byte) (p v : Z) :
  load32 size mem p = Ret v ->
  in_bounds size p 4 = true /\ v = array_uint32_le mem p.
Proof.
  unfold load32. destruct (in_bounds size p 4); [|discriminate].
  intro H. inversion H. split; reflexivity.
Qed.

Lemma u32_small (z : Z) : 0 <= z < 2 ^ 32 -> u32 z = z.
Proof. intro H. unfold u32. apply Z.mod_small. exact H. Qed.

Lemma u32_range (z : Z) : 0 <= u32 z < 2 ^ 32.
Proof. unfold u32. apply Z.mod_pos_bound. lia. Qed.

Lemma u32_add_l (a b : Z) : u32 (u32 a + b) = u32 (a + b).
Proof. unfold u32. apply Z.add_mod_idemp_l. lia. Qed.

Lemma foreach_header_values (model : Z) :
  foreach_header model = 4 \/ foreach_header model = 6 \/
  foreach_header model = 0x5C \/ foreach_header model = 0x80 \/
  foreach_header model = 0x84.
Proof.
  unfold foreach_header.
  destruct (model =? ICONHDNET); [tauto|].
  destruct (model =? QUADAIR); [tauto|].
  destruct ((model =? SMART) || (model =? SMARTAIR)); [tauto|].
  destruct (model =? SMARTAPNEA); tauto.
Qed.

(** For every model and dive mode the full header holds the part read
    first and the fingerprint slice. *)
Lemma foreach_sizes_values (model mode hs ss fp : Z) :
  foreach_sizes model mode = (hs, ss, fp) ->
  foreach_header model <= hs /\ 0x2E <= hs <= 0x84 /\
  6 <= ss <= 14 /\ 0 <= fp /\ fp + 10 <= hs.
Proof.
  unfold foreach_sizes, foreach_header.
  destruct (model =? ICONHDNET) eqn:H1.
  { intro H; inversion H; subst; lia. }
  destruct (model =? QUADAIR) eqn:H2.
  { intro H; inversion H; subst; lia. }
  destruct (model =? SMART) eqn:H3.
  { cbn [orb]. destruct (mode =? FREEDIVE); intro H; inversion H; subst; lia. }
  destruct (model =? SMARTAPNEA) eqn:H4.
  { cbn [orb]. zbool. subst model.
    intro H; inversion H; subst. cbn. lia. }
  destruct (model =? SMARTAIR) eqn:H5.
  { cbn [orb]. intro H; inversion H; subst; lia. }
  cbn [orb]. intro H; inversion H; subst; lia.
Qed.

(** ** One iteration of the enumerator *)

(** Take the first computation of a sequence in hypothesis [H] apart. *)
Ltac bind_case H name :=
  match type of H with
  | bind ?X _ = _ => destruct X eqn:name; cbn [bind] in H; try discriminate H
  end.

Section IterationFacts.

Context {W : Type} (E : Env W).

Local Abbreviation device := (mares_iconhd_device_t W).

Lemma rbstream_read_at_ret (d : device) progress size mem p n rc mem' progress' d' :
  rbstream_read_at E d progress size mem p n = Ret (rc, mem', progress', d') ->
  in_bounds size p n = true /\
  exists bs, dc_rbstream_read E d progress n = (rc, bs, progress', d') /\
             mem' = store mem p n bs.
Proof.
  unfold rbstream_read_at. destruct (in_bounds size p n); [|discriminate].
  destruct (dc_rbstream_read E d progress n) as [[[rc0 bs] p0] d0].
  intro H. inversion H; subst. split; [reflexivity|]. exists bs. split; reflexivity.
Qed.

Lemma rbstream_read_at_ok (d : device) progress size mem p n rc bs progress' d' :
  in_bounds size p n = true ->
  dc_rbstream_read E d progress n = (rc, bs, progress', d') ->
  rbstream_read_at E d progress size mem p n = Ret (rc, store mem p n bs, progress', d').
Proof. intros Hb Hr. unfold rbstream_read_at. rewrite Hb, Hr. reflexivity. Qed.

(** What an iteration has done when it comes out of its first half with
    a dive: three reads of the stream, into the scratch block and all
    inside it, the two fields of the part read first, and the sizes and
    the length computed from them. *)
Lemma foreach_read_dive_found (model size : Z) (s : walk_t W) (r : found_t W) :
  let header := foreach_header model in
  foreach_read_dive E model header size s = Ret (Found r) ->
  exists bs1 p1 d1 bs2 p2 d2 bs3 p3 d3,
    let off := wk_offset s in
    let hs := fd_headersize r in
    let nb := fd_nbytes r in
    let m1 := store (wk_mem s) (off - header) header bs1 in
    let m2 := store m1 (off - hs) (u32 (hs - header)) bs2 in
    let m3 := store m2 (off - nb) (u32 (nb - hs)) bs3 in
    in_bounds size (off - header) header = true /\
    dc_rbstream_read E (wk_dev s) (wk_progress s) header
      = (DC_STATUS_SUCCESS, bs1, p1, d1) /\
    fd_type r = array_uint16_le m1 (off - header + (if is_smart_family model then 2 else 0)) /\
    fd_nsamples r = array_uint16_le m1 (off - header + (if is_smart_family model then 0 else 2)) /\
    fd_nsamples r <> 0xFFFF /\ fd_type r <> 0xFFFF /\
    foreach_sizes model (Z.land (fd_type r) 0x03)
      = (hs, fd_samplesize r, fd_fingerprint r) /\
    hs <= off /\
    in_bounds size (off - hs) (u32 (hs - header)) = true /\
    dc_rbstream_read E d1 p1 (u32 (hs - header)) = (DC_STATUS_SUCCESS, bs2, p2, d2) /\
    nb = u32 (dive_length model m2 (off - hs) hs (fd_samplesize r) (fd_nsamples r)) /\
    nb <= off /\
    in_bounds size (off - nb) (u32 (nb - hs)) = true /\
    dc_rbstream_read E d2 p2 (u32 (nb - hs)) = (DC_STATUS_SUCCESS, bs3, p3, d3) /\
    fd_walk r = with_read s DC_STATUS_SUCCESS m3 p3 d3 (off - nb).
Proof.
  intros header H. unfold foreach_read_dive in H.
  bind_case H R1. destruct a as [[[rc1 m1] p1] d1].
  destruct (status_eqb rc1 DC_STATUS_SUCCESS) eqn:S1; cbn [negb] in H; [|discriminate H].
  apply status_eqb_eq in S1. subst rc1.
  apply rbstream_read_at_ret in R1. destruct R1 as (B1 & bs1 & R1 & M1).
  bind_case H TN. destruct a as [type nsamples].
  assert (HTN : type = array_uint16_le m1 (wk_offset s - header + (if is_smart_family model then 2 else 0)) /\
                nsamples = array_uint16_le m1 (wk_offset s - header + (if is_smart_family model then 0 else 2))).
  { unfold is_smart_family.
    destruct ((model =? SMART) || (model =? SMARTAPNEA) || (model =? SMARTAIR));
      bind_case TN L1; bind_case TN L2;
      apply load16_ret in L1; apply load16_ret in L2;
      inversion TN; subst; tauto. }
  clear TN. destruct HTN as [Ht Hn].
  destruct ((nsamples =? 0xFFFF) || (type =? 0xFFFF)) eqn:Hsent; [discriminate H|].
  destruct (foreach_sizes model (Z.land type 3)) as [[hs ss] fpo] eqn:Hsz.
  destruct (wk_offset s <? hs) eqn:Hhs; [discriminate H|].
  bind_case H R2. destruct a as [[[rc2 m2] p2] d2].
  destruct (status_eqb rc2 DC_STATUS_SUCCESS) eqn:S2; cbn [negb] in H; [|discriminate H].
  apply status_eqb_eq in S2. subst rc2.
  apply rbstream_read_at_ret in R2. destruct R2 as (B2 & bs2 & R2 & M2).
  bind_case H NB. rename a into nb.
  assert (HNB : nb = u32 (dive_length model m2 (wk_offset s - hs) hs ss nsamples)).
  { unfold dive_length.
    destruct ((model =? ICONHDNET) || (model =? QUADAIR) || (model =? SMARTAIR)).
    - inversion NB. apply u32_add_l.
    - destruct (model =? SMARTAPNEA).
      + bind_case NB L1. bind_case NB L2.
        apply load16_ret in L1. apply load32_ret in L2.
        destruct L1 as [_ ->]. destruct L2 as [_ ->].
        inversion NB. apply u32_add_l.
      + inversion NB. rewrite Z.add_0_r. reflexivity. }
  clear NB.
  destruct (wk_offset s <? nb) eqn:Hnb; [discriminate H|].
  bind_case H R3. destruct a as [[[rc3 m3] p3] d3].
  destruct (status_eqb rc3 DC_STATUS_SUCCESS) eqn:S3; cbn [negb] in H; [|discriminate H].
  apply status_eqb_eq in S3. subst rc3.
  apply rbstream_read_at_ret in R3. destruct R3 as (B3 & bs3 & R3 & M3).
  inversion H; subst r; clear H. cbn [fd_headersize fd_nbytes fd_type fd_nsamples
    fd_samplesize fd_fingerprint fd_walk].
  exists bs1, p1, d1, bs2, p2, d2, bs3, p3, d3. cbv zeta.
  zbool. subst m1 m2 m3.
  repeat (split; [first [assumption | reflexivity | lia]|]).
  reflexivity.
Qed.

End IterationFacts.

Section EmitFacts.

Context {W : Type} (E : Env W).

Local Abbreviation device := (mares_iconhd_device_t W).

(** In a scratch block of less than 2^31 bytes, a dive that came out of
    the first half of an iteration lies inside the part of the block
    below the old offset, header included. *)
Lemma foreach_read_dive_bounds (model size : Z) (s : walk_t W) (r : found_t W) :
  size <= 2 ^ 31 -> 0 <= wk_offset s <= size ->
  foreach_read_dive E model (foreach_header model) size s = Ret (Found r) ->
  wk_rc (fd_walk r) = DC_STATUS_SUCCESS /\
  wk_calls (fd_walk r) = wk_calls s /\
  wk_offset (fd_walk r) = wk_offset s - fd_nbytes r /\
  fd_headersize r <= fd_nbytes r <= wk_offset s /\
  0x2E <= fd_headersize r /\
  0 <= fd_fingerprint r /\ fd_fingerprint r + 10 <= fd_headersize r.
Proof.
  intros Hsize Hoff H.
  apply foreach_read_dive_found in H.
  destruct H as (bs1 & p1 & d1 & bs2 & p2 & d2 & bs3 & p3 & d3 & H). cbv zeta in H.
  destruct H as (B1 & R1 & Ht & Hn & Hn1 & Ht1 & Hsz & Hhs & B2 & R2 & Hnb & Hle & B3 & R3 & Hw).
  apply foreach_sizes_values in Hsz. destruct Hsz as (Hh & Hhs2 & Hss & Hfp & Hfp2).
  rewrite Hw. cbn [with_read wk_rc wk_calls wk_offset].
  apply in_bounds_spec in B3.
  assert (Hnb0 : 0 <= fd_nbytes r < 2 ^ 32) by (rewrite Hnb; apply u32_range).
  assert (Hge : fd_headersize r <= fd_nbytes r).
  { destruct (Z_le_gt_dec (fd_headersize r) (fd_nbytes r)) as [|Hlt]; [assumption|].
    exfalso.
    assert (Hu : u32 (fd_nbytes r - fd_headersize r)
                 = fd_nbytes r - fd_headersize r + 2 ^ 32).
    { unfold u32. symmetry. apply Z.mod_unique with (q := -1); lia. }
    rewrite Hu in B3. lia. }
  repeat split; try reflexivity; lia.
Qed.

(** The second half of an iteration, for a dive that lies inside the
    scratch block. *)
Lemma foreach_emit_dive_inside (size : Z) (callback : option (dc_dive_callback_t W))
    (r : found_t W) :
  0 <= wk_offset (fd_walk r) ->
  wk_offset (fd_walk r) + fd_nbytes r <= size ->
  4 <= fd_headersize r <= fd_nbytes r ->
  0 <= fd_fingerprint r -> fd_fingerprint r + 10 <= fd_headersize r ->
  foreach_emit_dive size callback r =
  if negb (stored_length r =? fd_nbytes r) then Ret (Break (fd_walk r))
  else if fingerprint_matches r then Ret (Break (fd_walk r))
  else match callback with
       | Some cb =>
         let '(go_on, w) := cb (world (wk_dev (fd_walk r))) (dive_data r) (dive_fingerprint r) in
         if negb go_on then Ret (Break (after_callback r w))
         else Ret (Continue (after_callback r w))
       | None => Ret (Continue (fd_walk r))
       end.
Proof.
  intros H0 H1 H2 H3 H4. unfold foreach_emit_dive, load32, load_bytes.
  replace (in_bounds size (wk_offset (fd_walk r)) 4) with true
    by (symmetry; apply in_bounds_spec; lia).
  cbn [bind]. fold (stored_length r).
  destruct (stored_length r =? fd_nbytes r) eqn:Hlen; cbn [negb]; [|reflexivity].
  apply Z.eqb_eq in Hlen. rewrite Hlen.
  replace (in_bounds size (wk_offset (fd_walk r) + fd_nbytes r - fd_headersize r
                           + fd_fingerprint r) 10) with true
    by (symmetry; apply in_bounds_spec; lia).
  cbn [bind]. fold (dive_fingerprint r). fold (fingerprint_matches r).
  destruct (fingerprint_matches r); [reflexivity|].
  destruct callback as [cb|]; [|reflexivity].
  replace (in_bounds size (wk_offset (fd_walk r)) (fd_nbytes r)) with true
    by (symmetry; apply in_bounds_spec; lia).
  cbn [bind]. fold (dive_data r). reflexivity.
Qed.

Lemma fingerprint_matches_spec (r : found_t W) :
  fingerprint_matches r = true <->
  dive_fingerprint r = slice (fingerprint (wk_dev (fd_walk r))) 0 10.
Proof.
  unfold fingerprint_matches, memcmp_eq, bytes_eqb.
  assert (Hs : slice (dive_fingerprint r) 0 10 = dive_fingerprint r) by reflexivity.
  rewrite Hs.
  destruct (list_eq_dec _ _ _) as [Heq | Hne]; split; intro H;
    try assumption; try reflexivity; try discriminate H; contradiction.
Qed.

End EmitFacts.

(** ** The enumerator loop *)

Section LoopFacts.

Context {W : Type} (E : Env W).

Local Abbreviation device := (mares_iconhd_device_t W).

Lemma descending_snoc (from : Z) (rs : list (found_t W)) (r : found_t W) :
  descending from rs ->
  wk_offset (fd_walk r) + fd_nbytes r = walk_end from rs ->
  0 < fd_nbytes r ->
  descending from (rs ++ [r]) /\ walk_end from (rs ++ [r]) = wk_offset (fd_walk r).
Proof.
  revert from. induction rs as [|r0 rs IH]; intros from Hd He Hn; cbn in *.
  - repeat split; assumption.
  - destruct Hd as (H1 & H2 & H3). destruct (IH _ H3 He Hn) as [IH1 IH2].
    repeat split; assumption.
Qed.

Lemma foreach_loop_step (n : nat) (model header size : Z)
    (callback : option (dc_dive_callback_t W)) (s : walk_t W) :
  header + 4 <= wk_offset s ->
  foreach_loop E (S n) model header size callback s =
  bind (foreach_iteration E model header size callback s)
    (fun r => match r with
              | Continue s' => foreach_loop E n model header size callback s'
              | Break s' => Ret (wk_rc s', dc_rbstream_free E (wk_dev s'), wk_calls s')
              | Return rc d calls => Ret (rc, d, calls)
              end).
Proof.
  intro H. cbn [foreach_loop].
  replace (wk_offset s >=? header + 4) with true
    by (symmetry; rewrite Z.geb_leb; apply Z.leb_le; lia).
  reflexivity.
Qed.

(** The loop over the records of a walk is the loop resumed where the
    walk ends; the callback was given the records of the walk in order,
    and their start positions go down from the offset the walk began
    at. *)
Lemma walked_loop (model size : Z) (cb : dc_dive_callback_t W)
    (s0 s : walk_t W) (rs : list (found_t W)) :
  let header := foreach_header model in
  size <= 2 ^ 31 -> 0 <= wk_offset s0 <= size ->
  walked E model header size cb s0 rs s ->
  (forall n, foreach_loop E (length rs + n) model header size (Some cb) s0
             = foreach_loop E n model header size (Some cb) s) /\
  0 <= wk_offset s <= size /\
  wk_calls s = wk_calls s0 ++ map (@dive_of W) rs /\
  descending (wk_offset s0) rs /\
  walk_end (wk_offset s0) rs = wk_offset s.
Proof.
  intros header Hsize H0 Hw.
  induction Hw as [s0 | s0 rs s r w Hw IH Hoff Hread Hlen Hfp Hcb].
  - repeat split; try lia. cbn. rewrite app_nil_r. reflexivity.
  - specialize (IH H0). destruct IH as (IHl & IHo & IHc & IHd & IHe).
    pose proof (foreach_read_dive_bounds E _ _ _ _ Hsize IHo Hread)
      as (Brc & Bcalls & Boff & Bnb & Bhs & Bfp0 & Bfp).
    destruct (descending_snoc _ _ r IHd) as [Hd He]; [lia | lia |].
    split; [|split; [|split; [|split]]].
    + intro n. rewrite length_app. cbn [length].
      replace (length rs + 1 + n)%nat with (length rs + S n)%nat by lia.
      rewrite IHl, foreach_loop_step by exact Hoff.
      unfold foreach_iteration. fold header. rewrite Hread. cbn [bind].
      rewrite foreach_emit_dive_inside by lia.
      rewrite Hlen, Z.eqb_refl, Hfp, Hcb. cbn [negb bind]. reflexivity.
    + cbn [after_callback wk_offset]. lia.
    + cbn [after_callback wk_calls]. rewrite Bcalls, IHc, map_app, app_assoc.
      reflexivity.
    + exact Hd.
    + exact He.
Qed.

(** An iteration that reads a dive and then leaves the loop at the
    length check or at the fingerprint check. *)
Lemma foreach_loop_break (n : nat) (model size : Z)
    (callback : option (dc_dive_callback_t W)) (s : walk_t W) (r : found_t W) :
  let header := foreach_header model in
  size <= 2 ^ 31 -> 0 <= wk_offset s <= size ->
  header + 4 <= wk_offset s ->
  foreach_read_dive E model header size s = Ret (Found r) ->
  stored_length r <> fd_nbytes r \/ fingerprint_matches r = true ->
  foreach_loop E (S n) model header size callback s
  = Ret (DC_STATUS_SUCCESS, dc_rbstream_free E (wk_dev (fd_walk r)), wk_calls s).
Proof.
  intros header Hsize H0 Hoff Hread Hstop.
  pose proof (foreach_read_dive_bounds E _ _ _ _ Hsize H0 Hread)
    as (Brc & Bcalls & Boff & Bnb & Bhs & Bfp0 & Bfp).
  rewrite foreach_loop_step by exact Hoff.
  unfold foreach_iteration. fold header. rewrite Hread. cbn [bind].
  rewrite foreach_emit_dive_inside by lia.
  destruct (stored_length r =? fd_nbytes r) eqn:Hlen; cbn [negb bind].
  - destruct Hstop as [Hne | Hfp]; [zbool; contradiction|].
    rewrite Hfp. cbn [bind]. rewrite Brc, Bcalls. reflexivity.
  - rewrite Brc, Bcalls. reflexivity.
Qed.

(** C1: let the enumerator have walked the records [rs], handing each to
    the callback, and let the next iteration read a record [r] whose
    declared length is the computed one.  If the fingerprint slice of
    [r], taken at the model's offset inside its header, is the session's
    fingerprint, the loop ends with [Success] and the callback has been
    invoked for the records of [rs] and for no other, in the order of
    the walk; that order goes from the newest record down, each record
    starting below the one before.  If the slice differs and the
    callback answers false for [r], the loop ends with [Success] as
    well, [r] being the last record handed over. *)
Theorem fingerprint_boundary (n : nat) (model size : Z) (cb : dc_dive_callback_t W)
    (s0 s : walk_t W) (rs : list (found_t W)) (r : found_t W) :
  let header := foreach_header model in
  size <= 2 ^ 31 -> 0 <= wk_offset s0 <= size ->
  walked E model header size cb s0 rs s ->
  header + 4 <= wk_offset s ->
  foreach_read_dive E model header size s = Ret (Found r) ->
  stored_length r = fd_nbytes r ->
  (dive_fingerprint r = slice (fingerprint (wk_dev (fd_walk r))) 0 10 ->
   foreach_loop E (length rs + S n) model header size (Some cb) s0
   = Ret (DC_STATUS_SUCCESS, dc_rbstream_free E (wk_dev (fd_walk r)),
          wk_calls s0 ++ map (@dive_of W) rs))
  /\
  (dive_fingerprint r <> slice (fingerprint (wk_dev (fd_walk r))) 0 10 ->
   forall w,
     cb (world (wk_dev (fd_walk r))) (dive_data r) (dive_fingerprint r) = (false, w) ->
     foreach_loop E (length rs + S n) model header size (Some cb) s0
     = Ret (DC_STATUS_SUCCESS,
            dc_rbstream_free E (set_world (wk_dev (fd_walk r)) w),
            wk_calls s0 ++ map (@dive_of W) rs ++ [dive_of r]))
  /\
  descending (wk_offset s0) (rs ++ [r]).
Proof.
  intros header Hsize H0 Hw Hoff Hread Hlen.
  destruct (walked_loop _ _ _ _ _ _ Hsize H0 Hw) as (Hl & Ho & Hc & Hd & He).
  pose proof (foreach_read_dive_bounds E _ _ _ _ Hsize Ho Hread)
    as (Brc & Bcalls & Boff & Bnb & Bhs & Bfp0 & Bfp).
  split; [|split].
  - intro Hfp. apply fingerprint_matches_spec in Hfp.
    rewrite Hl, <- Hc. apply foreach_loop_break; auto.
  - intros Hfp w Hcb.
    assert (Hm : fingerprint_matches r = false).
    { destruct (fingerprint_matches r) eqn:Hm; [|reflexivity].
      apply fingerprint_matches_spec in Hm. contradiction. }
    rewrite Hl, foreach_loop_step by exact Hoff.
    unfold foreach_iteration. fold header. rewrite Hread. cbn [bind].
    rewrite foreach_emit_dive_inside by lia.
    rewrite Hlen, Z.eqb_refl, Hm, Hcb. cbn [negb bind after_callback wk_rc wk_dev wk_calls].
    rewrite Brc, Bcalls, Hc, <- app_assoc. reflexivity.
  - apply descending_snoc; try assumption; lia.
Qed.

(** C4: after the walk over [rs], an iteration that reads a record and
    finds at its start a declared length other than the computed one
    ends the loop with [Success]; the callback is not invoked for that
    record, and the dives handed over before it are all there is. *)
Theorem length_mismatch (n : nat) (model size : Z) (cb : dc_dive_callback_t W)
    (s0 s : walk_t W) (rs : list (found_t W)) (r : found_t W) :
  let header := foreach_header model in
  size <= 2 ^ 31 -> 0 <= wk_offset s0 <= size ->
  walked E model header size cb s0 rs s ->
  header + 4 <= wk_offset s ->
  foreach_read_dive E model header size s = Ret (Found r) ->
  stored_length r <> fd_nbytes r ->
  foreach_loop E (length rs + S n) model header size (Some cb) s0
  = Ret (DC_STATUS_SUCCESS, dc_rbstream_free E (wk_dev (fd_walk r)),
         wk_calls s0 ++ map (@dive_of W) rs).
Proof.
  intros header Hsize H0 Hw Hoff Hread Hlen.
  destruct (walked_loop _ _ _ _ _ _ Hsize H0 Hw) as (Hl & Ho & Hc & Hd & He).
  rewrite Hl, <- Hc. apply foreach_loop_break; auto.
Qed.

End LoopFacts.

Section SentinelFacts.

Context {W : Type} (E : Env W).

Lemma array_uint16_le_shift (f g : Z -> byte) (p q : Z) :
  f p = g q -> f (p + 1) = g (q + 1) ->
  array_uint16_le f p = array_uint16_le g q.
Proof. intros H0 H1. unfold array_uint16_le. rewrite H0, H1. reflexivity. Qed.

Lemma store_of_list (mem : Z -> byte) (p n : Z) (bs : list byte) (k : Z) :
  0 <= k < n -> store mem p n bs (p + k) = of_list bs k.
Proof.
  intro H. rewrite store_inside by lia. unfold of_list.
  replace (k <? 0) with false by (symmetry; apply Z.ltb_ge; lia).
  f_equal. lia.
Qed.

Lemma load16_stored (size : Z) (mem : Z -> byte) (p n : Z) (bs : list byte) (k : Z) :
  0 <= p -> p + n <= size -> 0 <= k -> k + 2 <= n ->
  load16 size (store mem p n bs) (p + k) = Ret (array_uint16_le (of_list bs) k).
Proof.
  intros H0 H1 H2 H3. unfold load16.
  replace (in_bounds size (p + k) 2) with true
    by (symmetry; apply in_bounds_spec; lia).
  f_equal. apply array_uint16_le_shift.
  - apply store_of_list. lia.
  - replace (p + k + 1) with (p + (k + 1)) by lia. apply store_of_list. lia.
Qed.

Lemma foreach_header_family (model : Z) :
  (is_smart_family model = true ->
   foreach_header model = if model =? SMARTAPNEA then 6 else 4) /\
  (is_smart_family model = false ->
   foreach_header model =
     if model =? ICONHDNET then 0x80 else if model =? QUADAIR then 0x84 else 0x5C) /\
  (4 <= foreach_header model <= 6 <-> is_smart_family model = true).
Proof.
  unfold is_smart_family, foreach_header.
  destruct (model =? ICONHDNET) eqn:H1.
  { zbool. subst model. cbn. repeat split; intros; try discriminate; lia. }
  destruct (model =? QUADAIR) eqn:H2.
  { zbool. subst model. cbn. repeat split; intros; try discriminate; lia. }
  destruct (model =? SMART) eqn:H3.
  { zbool. subst model. cbn. repeat split; intros; try discriminate; try lia;
      reflexivity. }
  destruct (model =? SMARTAIR) eqn:H4.
  { zbool. subst model. cbn. repeat split; intros; try discriminate; try lia;
      reflexivity. }
  destruct (model =? SMARTAPNEA) eqn:H5.
  { cbn. repeat split; intros; try discriminate; try lia; reflexivity. }
  cbn. repeat split; intros; try discriminate; try lia; reflexivity.
Qed.

(** The loop on a first part of a header that holds the sentinel. *)
Lemma foreach_loop_sentinel (n : nat) (model size : Z)
    (callback : option (dc_dive_callback_t W)) (s : walk_t W)
    (bs : list byte) (progress' : dc_event_progress_t)
    (d' : mares_iconhd_device_t W) :
  let header := foreach_header model in
  let type := array_uint16_le (of_list bs) (if is_smart_family model then 2 else 0) in
  let nsamples := array_uint16_le (of_list bs) (if is_smart_family model then 0 else 2) in
  header + 4 <= wk_offset s <= size ->
  dc_rbstream_read E (wk_dev s) (wk_progress s) header
    = (DC_STATUS_SUCCESS, bs, progress', d') ->
  nsamples = 0xFFFF \/ type = 0xFFFF ->
  foreach_loop E (S n) model header size callback s
  = Ret (DC_STATUS_SUCCESS, dc_rbstream_free E d', wk_calls s).
Proof.
  intros header type nsamples Hoff Hread Hsent.
  assert (Hh : 4 <= header) by (unfold header; destruct (foreach_header_values model) as [H|[H|[H|[H|H]]]]; lia).
  rewrite foreach_loop_step by lia.
  unfold foreach_iteration, foreach_read_dive.
  assert (B1 : in_bounds size (wk_offset s - header) header = true)
    by (apply in_bounds_spec; lia).
  rewrite (rbstream_read_at_ok E _ _ _ (wk_mem s) _ _ _ _ _ _ B1 Hread).
  cbn [bind status_eqb negb].
  fold (is_smart_family model).
  assert (Hpair :
    (if is_smart_family model
     then bind (load16 size (store (wk_mem s) (wk_offset s - header) header bs)
                  (wk_offset s - header + 2))
            (fun type => bind (load16 size (store (wk_mem s) (wk_offset s - header) header bs)
                                 (wk_offset s - header + 0))
                           (fun nsamples => Ret (type, nsamples)))
     else bind (load16 size (store (wk_mem s) (wk_offset s - header) header bs)
                  (wk_offset s - header + 0))
            (fun type => bind (load16 size (store (wk_mem s) (wk_offset s - header) header bs)
                                 (wk_offset s - header + 2))
                           (fun nsamples => Ret (type, nsamples))))
    = Ret (type, nsamples)).
  { unfold type, nsamples.
    destruct (is_smart_family model);
      rewrite !load16_stored by lia; reflexivity. }
  rewrite Hpair. cbn [bind].
  replace ((nsamples =? 0xFFFF) || (type =? 0xFFFF)) with true.
  - reflexivity.
  - symmetry. apply orb_true_iff.
    destruct Hsent as [Hs | Hs]; [left | right]; apply Z.eqb_eq; exact Hs.
Qed.

End SentinelFacts.

(** ** The ring pointer *)

Section PointerFacts.

Context {W : Type} (E : Env W).

Local Abbreviation device := (mares_iconhd_device_t W).

Lemma foreach_eop_first (fuel : nat) (rc : dc_status_t) (d d1 : device)
    (progress : dc_event_progress_t) (eop0 : Z) (pointer : list byte) :
  mares_iconhd_device_read E fuel d 0x2001 4 = Ret (DC_STATUS_SUCCESS, pointer, d1) ->
  array_uint32_le (of_list pointer) 0 <> 0xFFFFFFFF ->
  foreach_eop E fuel [0x2001; 0x3001] rc d progress eop0
  = Ret (inr (DC_STATUS_SUCCESS, emit E d1 (DC_EVENT_PROGRESS (bump progress)),
              bump progress, array_uint32_le (of_list pointer) 0)).
Proof.
  intros Hr Hne. cbn [foreach_eop]. rewrite Hr. cbn [bind status_eqb negb].
  fold (bump progress).
  apply Z.eqb_neq in Hne. rewrite Hne. reflexivity.
Qed.

Lemma foreach_eop_second (fuel : nat) (rc : dc_status_t) (d d1 d2 : device)
    (progress : dc_event_progress_t) (eop0 : Z) (pointer pointer2 : list byte) :
  mares_iconhd_device_read E fuel d 0x2001 4 = Ret (DC_STATUS_SUCCESS, pointer, d1) ->
  array_uint32_le (of_list pointer) 0 = 0xFFFFFFFF ->
  mares_iconhd_device_read E fuel (emit E d1 (DC_EVENT_PROGRESS (bump progress))) 0x3001 4
    = Ret (DC_STATUS_SUCCESS, pointer2, d2) ->
  foreach_eop E fuel [0x2001; 0x3001] rc d progress eop0
  = Ret (inr (DC_STATUS_SUCCESS,
              emit E d2 (DC_EVENT_PROGRESS (bump (bump progress))),
              bump (bump progress), array_uint32_le (of_list pointer2) 0)).
Proof.
  intros Hr He Hr2. cbn [foreach_eop]. rewrite Hr. cbn [bind status_eqb negb].
  fold (bump progress). rewrite He. cbn [Z.eqb Pos.eqb negb].
  rewrite Hr2. cbn [bind status_eqb negb]. fold (bump (bump progress)).
  destruct (array_uint32_le (of_list pointer2) 0 =? 0xFFFFFFFF); reflexivity.
Qed.

(** [foreach] down to the range check of the ring pointer. *)
Lemma foreach_to_pointer (fuel : nat) (d dB dE : device)
    (callback : option (dc_dive_callback_t W)) (l : mares_iconhd_layout_t)
    (serial : list byte) (rc : dc_status_t) (pE : dc_event_progress_t) (eop : Z) :
  dc_device_isinstance E (world d) = true ->
  layout d = Some l ->
  mares_iconhd_device_read E fuel (session_at_serial E d l) 0x0C 4
    = Ret (DC_STATUS_SUCCESS, serial, dB) ->
  foreach_eop E fuel [0x2001; 0x3001] DC_STATUS_SUCCESS
    (session_at_pointer E dB l serial) (progress_at_pointer E l) 0
    = Ret (inr (rc, dE, pE, eop)) ->
  mares_iconhd_device_foreach E fuel d callback =
  if (eop <? rb_profile_begin l) || (eop >=? rb_profile_end l) then
    if eop =? 0xFFFFFFFF then Ret (DC_STATUS_SUCCESS, dE, [])
    else Ret (DC_STATUS_DATAFORMAT, dE, [])
  else
    let '(rc, d) :=
      dc_rbstream_new E dE (packetsize dE) (rb_profile_begin l) (rb_profile_end l) eop in
    if negb (status_eqb rc DC_STATUS_SUCCESS) then Ret (rc, d, []) else
    let size := u32 (rb_profile_end l - rb_profile_begin l) in
    match malloc E (world d) size with
    | None => Ret (DC_STATUS_NOMEMORY, dc_rbstream_free E d, [])
    | Some buffer =>
      foreach_loop E fuel (model dB) (foreach_header (model dB)) size callback
        {| wk_rc := rc; wk_dev := d; wk_progress := pE; wk_mem := buffer;
           wk_offset := size; wk_calls := [] |}
    end.
Proof.
  intros Hi Hl Hs He. unfold mares_iconhd_device_foreach.
  rewrite Hi, Hl. cbn [negb].
  change (emit E (emit E d (DC_EVENT_PROGRESS
            {| current := current (EVENT_PROGRESS_INITIALIZER E);
               maximum := u32 (rb_profile_end l - rb_profile_begin l + 4) |}))
            (DC_EVENT_VENDOR
               (version (emit E d (DC_EVENT_PROGRESS
                  {| current := current (EVENT_PROGRESS_INITIALIZER E);
                     maximum := u32 (rb_profile_end l - rb_profile_begin l + 4) |})))
               140))
    with (session_at_serial E d l).
  rewrite Hs. cbn [bind status_eqb negb].
  change (foreach_eop E fuel [8193; 12289] DC_STATUS_SUCCESS _ _ 0)
    with (foreach_eop E fuel [0x2001; 0x3001] DC_STATUS_SUCCESS
            (session_at_pointer E dB l serial) (progress_at_pointer E l) 0).
  rewrite He. cbn [bind]. reflexivity.
Qed.

(** C3: [foreach] reads the ring pointer at 0x2001 and keeps it unless
    it is 0xFFFFFFFF, in which case, and in that case only, it reads the
    pointer at 0x3001 and keeps that.  A pointer 0xFFFFFFFF kept after
    both reads ends the call with [Success] and no dive; any other
    pointer outside [[rb_profile_begin, rb_profile_end)] ends it with
    [DataFormat]. *)
Theorem ring_pointer (fuel : nat) (d dB : device)
    (callback : option (dc_dive_callback_t W)) (l : mares_iconhd_layout_t)
    (serial : list byte) :
  let d0 := session_at_pointer E dB l serial in
  let p0 := progress_at_pointer E l in
  dc_device_isinstance E (world d) = true ->
  layout d = Some l ->
  rb_profile_end l <= 0xFFFFFFFF ->
  mares_iconhd_device_read E fuel (session_at_serial E d l) 0x0C 4
    = Ret (DC_STATUS_SUCCESS, serial, dB) ->
  forall pointer d1,
    mares_iconhd_device_read E fuel d0 0x2001 4 = Ret (DC_STATUS_SUCCESS, pointer, d1) ->
    let eop1 := array_uint32_le (of_list pointer) 0 in
    let d1' := emit E d1 (DC_EVENT_PROGRESS (bump p0)) in
    (eop1 <> 0xFFFFFFFF ->
     foreach_eop E fuel [0x2001; 0x3001] DC_STATUS_SUCCESS d0 p0 0
       = Ret (inr (DC_STATUS_SUCCESS, d1', bump p0, eop1)) /\
     (eop1 < rb_profile_begin l \/ rb_profile_end l <= eop1 ->
      mares_iconhd_device_foreach E fuel d callback
        = Ret (DC_STATUS_DATAFORMAT, d1', [])))
    /\
    (eop1 = 0xFFFFFFFF ->
     forall pointer2 d2,
       mares_iconhd_device_read E fuel d1' 0x3001 4
         = Ret (DC_STATUS_SUCCESS, pointer2, d2) ->
       let eop2 := array_uint32_le (of_list pointer2) 0 in
       let d2' := emit E d2 (DC_EVENT_PROGRESS (bump (bump p0))) in
       foreach_eop E fuel [0x2001; 0x3001] DC_STATUS_SUCCESS d0 p0 0
         = Ret (inr (DC_STATUS_SUCCESS, d2', bump (bump p0), eop2)) /\
       (eop2 = 0xFFFFFFFF ->
        mares_iconhd_device_foreach E fuel d callback
          = Ret (DC_STATUS_SUCCESS, d2', [])) /\
       (eop2 <> 0xFFFFFFFF ->
        eop2 < rb_profile_begin l \/ rb_profile_end l <= eop2 ->
        mares_iconhd_device_foreach E fuel d callback
          = Ret (DC_STATUS_DATAFORMAT, d2', []))).
Proof.
  intros d0 p0 Hi Hl Hend Hs pointer d1 Hr eop1 d1'. subst eop1 d1'.
  assert (Hrange : forall eop, eop < rb_profile_begin l \/ rb_profile_end l <= eop ->
            (eop <? rb_profile_begin l) || (eop >=? rb_profile_end l) = true).
  { intros eop [H | H]; apply orb_true_iff; [left | right].
    - apply Z.ltb_lt. exact H.
    - rewrite Z.geb_leb. apply Z.leb_le. exact H. }
  split.
  - intro Hne.
    pose proof (foreach_eop_first fuel DC_STATUS_SUCCESS _ _ p0 0 _ Hr Hne) as He.
    split; [exact He|]. intro Hout.
    rewrite (foreach_to_pointer fuel d dB _ callback l serial _ _ _ Hi Hl Hs He).
    rewrite (Hrange _ Hout).
    apply Z.eqb_neq in Hne. rewrite Hne. reflexivity.
  - intros He1 pointer2 d2 Hr2 eop2 d2'. subst eop2 d2'.
    pose proof (foreach_eop_second fuel DC_STATUS_SUCCESS _ _ _ p0 0 _ _ Hr He1 Hr2) as He.
    split; [exact He|]. split.
    + intro He2.
      rewrite (foreach_to_pointer fuel d dB _ callback l serial _ _ _ Hi Hl Hs He).
      rewrite He2.
      rewrite (Hrange 0xFFFFFFFF) by (right; exact Hend). reflexivity.
    + intros Hne Hout.
      rewrite (foreach_to_pointer fuel d dB _ callback l serial _ _ _ Hi Hl Hs He).
      rewrite (Hrange _ Hout).
      apply Z.eqb_neq in Hne. rewrite Hne. reflexivity.
Qed.

End PointerFacts.

Section BeginFacts.

Context {W : Type} (E : Env W).

Local Abbreviation device := (mares_iconhd_device_t W).

(** C9, as the code has it: a ring pointer equal to [rb_profile_begin]
    is inside the ring, so [foreach] opens the stream at that address and
    starts the walk like for any other pointer.  It ends with [Success]
    and no dive when the part of a header the stream hands back first
    holds 0xFFFF as its type or as its sample count. *)
Theorem eop_at_begin (n : nat) (d dB d1 dN d' : device)
    (callback : option (dc_dive_callback_t W)) (l : mares_iconhd_layout_t)
    (serial pointer bs : list byte) (buffer : Z -> byte)
    (p' : dc_event_progress_t) :
  let fuel := S n in
  let d0 := session_at_pointer E dB l serial in
  let p0 := progress_at_pointer E l in
  let d1' := emit E d1 (DC_EVENT_PROGRESS (bump p0)) in
  let size := rb_profile_end l - rb_profile_begin l in
  let header := foreach_header (model dB) in
  let type := array_uint16_le (of_list bs) (if is_smart_family (model dB) then 2 else 0) in
  let nsamples := array_uint16_le (of_list bs) (if is_smart_family (model dB) then 0 else 2) in
  dc_device_isinstance E (world d) = true ->
  layout d = Some l ->
  0 <= rb_profile_begin l -> rb_profile_end l <= 0xFFFFFFFF ->
  header + 4 <= size ->
  mares_iconhd_device_read E fuel (session_at_serial E d l) 0x0C 4
    = Ret (DC_STATUS_SUCCESS, serial, dB) ->
  mares_iconhd_device_read E fuel d0 0x2001 4 = Ret (DC_STATUS_SUCCESS, pointer, d1) ->
  array_uint32_le (of_list pointer) 0 = rb_profile_begin l ->
  dc_rbstream_new E d1' (packetsize d1') (rb_profile_begin l) (rb_profile_end l)
    (rb_profile_begin l) = (DC_STATUS_SUCCESS, dN) ->
  malloc E (world dN) size = Some buffer ->
  dc_rbstream_read E dN (bump p0) header = (DC_STATUS_SUCCESS, bs, p', d') ->
  nsamples = 0xFFFF \/ type = 0xFFFF ->
  mares_iconhd_device_foreach E fuel d callback
  = Ret (DC_STATUS_SUCCESS, dc_rbstream_free E d', []).
Proof.
  intros fuel d0 p0 d1' size header type nsamples
    Hi Hl Hb He Hsz Hs Hr Hp Hnew Hm Hread Hsent.
  assert (Hh : 4 <= header)
    by (unfold header; destruct (foreach_header_values (model dB)) as [H|[H|[H|[H|H]]]]; lia).
  assert (Hne : array_uint32_le (of_list pointer) 0 <> 0xFFFFFFFF) by lia.
  pose proof (foreach_eop_first E fuel DC_STATUS_SUCCESS _ _ p0 0 _ Hr Hne) as Heop.
  rewrite (foreach_to_pointer E fuel d dB _ callback l serial _ _ _ Hi Hl Hs Heop).
  rewrite Hp.
  replace ((rb_profile_begin l <? rb_profile_begin l)
           || (rb_profile_begin l >=? rb_profile_end l)) with false.
  2:{ symmetry. apply orb_false_iff. split.
      - apply Z.ltb_ge. lia.
      - rewrite Z.geb_leb. apply Z.leb_gt. lia. }
  fold d1'. rewrite Hnew. cbn [status_eqb negb].
  replace (u32 (rb_profile_end l - rb_profile_begin l)) with size
    by (symmetry; apply u32_small; unfold size; lia).
  rewrite Hm.
  set (s0 := {| wk_rc := DC_STATUS_SUCCESS; wk_dev := dN; wk_progress := bump p0;
                wk_mem := buffer; wk_offset := size; wk_calls := [] |}).
  assert (Hoff : header + 4 <= wk_offset s0 <= size) by (cbn; lia).
  exact (foreach_loop_sentinel E n (model dB) size callback s0 bs p' d' Hoff Hread Hsent).
Qed.

End BeginFacts.

(** ** The walk stays inside the scratch block *)

Section SafetyFacts.

Context {W : Type} (E : Env W).

Lemma bind_returns_or_stops {A B : Type} (m : res A) (k : A -> res B) :
  m <> OutOfFuel -> (forall a, k a <> OutOfFuel) -> bind m k <> OutOfFuel.
Proof. intros Hm Hk. destruct m; cbn [bind]; [apply Hk | discriminate | contradiction]. Qed.

(** Close a goal [x <> OutOfFuel] for a computation that holds no loop. *)
Ltac no_fuel :=
  repeat match goal with
  | |- bind _ _ <> OutOfFuel => apply bind_returns_or_stops; [|intros]
  | |- Ret _ <> OutOfFuel => discriminate
  | |- Trap <> OutOfFuel => discriminate
  | |- (if ?c then _ else _) <> OutOfFuel => destruct c
  | |- (let '(_, _) := ?x in _) <> OutOfFuel => destruct x
  | |- match ?x with _ => _ end <> OutOfFuel => destruct x
  end.

Lemma foreach_iteration_no_fuel (model header size : Z)
    (callback : option (dc_dive_callback_t W)) (s : walk_t W) :
  foreach_iteration E model header size callback s <> OutOfFuel.
Proof.
  unfold foreach_iteration, foreach_read_dive, foreach_emit_dive,
    rbstream_read_at, load16, load32, load_bytes.
  no_fuel.
Qed.

Lemma load16_inside (size : Z) (mem : Z -> byte) (p : Z) :
  0 <= p -> p + 2 <= size -> load16 size mem p = Ret (array_uint16_le mem p).
Proof.
  intros H0 H1. unfold load16.
  replace (in_bounds size p 2) with true by (symmetry; apply in_bounds_spec; lia).
  reflexivity.
Qed.

Lemma rbstream_read_at_inside (d : mares_iconhd_device_t W) progress size mem p n :
  0 <= p -> p + n <= size ->
  exists rc bs progress' d',
    rbstream_read_at E d progress size mem p n = Ret (rc, store mem p n bs, progress', d').
Proof.
  intros H0 H1. unfold rbstream_read_at.
  replace (in_bounds size p n) with true by (symmetry; apply in_bounds_spec; lia).
  destruct (dc_rbstream_read E d progress n) as [[[rc bs] p'] d'].
  exists rc, bs, p', d'. reflexivity.
Qed.

(** The length of a dive of any model but the Smart Apnea fits in 32
    bits and covers the header and the length field. *)
Lemma dive_length_fits (model : Z) (mem : Z -> byte) (h hs ss ns mode fp : Z) :
  model <> SMARTAPNEA ->
  foreach_sizes model mode = (hs, ss, fp) ->
  0 <= ns < 65536 ->
  4 + hs <= dive_length model mem h hs ss ns < 2 ^ 32.
Proof.
  intros Hm Hsz Hns. apply foreach_sizes_values in Hsz.
  destruct Hsz as (_ & Hhs & Hss & _ & _).
  unfold dive_length.
  replace (model =? SMARTAPNEA) with false by (symmetry; apply Z.eqb_neq; exact Hm).
  assert (0 <= ns / 4 <= 16384) by (split; [apply Z.div_pos | apply Z.div_le_upper_bound]; lia).
  destruct (_ || _); nia.
Qed.

(** On every model but the Smart Apnea the first half of an iteration
    comes back with a result: every read and every load lies inside the
    scratch block. *)
Lemma foreach_read_dive_returns (model size : Z) (s : walk_t W) :
  model <> SMARTAPNEA -> size <= 2 ^ 31 ->
  foreach_header model + 4 <= wk_offset s <= size ->
  exists r, foreach_read_dive E model (foreach_header model) size s = Ret r.
Proof.
  intros Hm Hsize Hoff. set (header := foreach_header model) in *.
  assert (Hh : 4 <= header <= 0x84)
    by (unfold header; destruct (foreach_header_values model) as [H|[H|[H|[H|H]]]]; lia).
  unfold foreach_read_dive.
  destruct (rbstream_read_at_inside (wk_dev s) (wk_progress s) size (wk_mem s)
              (wk_offset s - header) header ltac:(lia) ltac:(lia))
    as (rc1 & bs1 & p1 & d1 & ->).
  cbn [bind]. destruct (status_eqb rc1 DC_STATUS_SUCCESS); cbn [negb];
    [|eexists; reflexivity].
  set (m1 := store (wk_mem s) (wk_offset s - header) header bs1).
  rewrite !(load16_inside size m1) by lia.
  set (tn := if (model =? SMART) || (model =? SMARTAPNEA) || (model =? SMARTAIR)
             then (array_uint16_le m1 (wk_offset s - header + 2),
                   array_uint16_le m1 (wk_offset s - header + 0))
             else (array_uint16_le m1 (wk_offset s - header + 0),
                   array_uint16_le m1 (wk_offset s - header + 2))).
  assert (Htn : (if (model =? SMART) || (model =? SMARTAPNEA) || (model =? SMARTAIR)
                 then bind (Ret (array_uint16_le m1 (wk_offset s - header + 2)))
                        (fun type => bind (Ret (array_uint16_le m1 (wk_offset s - header + 0)))
                                       (fun nsamples => Ret (type, nsamples)))
                 else bind (Ret (array_uint16_le m1 (wk_offset s - header + 0)))
                        (fun type => bind (Ret (array_uint16_le m1 (wk_offset s - header + 2)))
                                       (fun nsamples => Ret (type, nsamples))))
                = Ret tn).
  { unfold tn. destruct (_ || _); reflexivity. }
  rewrite Htn. cbn [bind]. clear Htn.
  assert (Hns : 0 <= snd tn < 65536)
    by (unfold tn; destruct (_ || _); cbn [snd]; apply array_uint16_le_range).
  destruct tn as [type nsamples]. cbn [snd] in Hns.
  destruct ((nsamples =? 0xFFFF) || (type =? 0xFFFF)); [eexists; reflexivity|].
  destruct (foreach_sizes model (Z.land type 3)) as [[hs ss] fpo] eqn:Hsz.
  destruct (foreach_sizes_values _ _ _ _ _ Hsz) as (Hhh & Hhs & Hss & Hfp0 & Hfp).
  fold header in Hhh.
  destruct (wk_offset s <? hs) eqn:Hlt; [eexists; reflexivity|]. zbool.
  rewrite (u32_small (hs - header)) by lia.
  destruct (rbstream_read_at_inside d1 p1 size m1 (wk_offset s - hs) (hs - header)
              ltac:(lia) ltac:(lia)) as (rc2 & bs2 & p2 & d2 & ->).
  cbn [bind]. destruct (status_eqb rc2 DC_STATUS_SUCCESS); cbn [negb];
    [|eexists; reflexivity].
  set (m2 := store m1 (wk_offset s - hs) (hs - header) bs2).
  pose proof (dive_length_fits model m2 (wk_offset s - hs) hs ss nsamples _ _ Hm Hsz Hns)
    as Hfit.
  assert (Hnb : exists nb,
    (if (model =? ICONHDNET) || (model =? QUADAIR) || (model =? SMARTAIR)
     then Ret (u32 (u32 (4 + hs + nsamples * ss) + nsamples / 4 * 8))
     else if model =? SMARTAPNEA
          then bind (load16 size m2 (wk_offset s - hs + 28))
                 (fun settings => bind (load32 size m2 (wk_offset s - hs + 36))
                    (fun divetime =>
                       Ret (u32 (u32 (4 + hs + nsamples * ss)
                                 + divetime * Z.shiftl 1 (Z.land (Z.shiftr settings 9) 3) * 2))))
          else Ret (u32 (4 + hs + nsamples * ss))) = Ret nb /\ 4 + hs <= nb < 2 ^ 32).
  { unfold dive_length in Hfit.
    replace (model =? SMARTAPNEA) with false in * by (symmetry; apply Z.eqb_neq; exact Hm).
    destruct ((model =? ICONHDNET) || (model =? QUADAIR) || (model =? SMARTAIR)).
    - eexists. split; [reflexivity|]. rewrite u32_add_l, u32_small; lia.
    - eexists. split; [reflexivity|]. rewrite u32_small; lia. }
  destruct Hnb as (nb & -> & Hnb). cbn [bind].
  destruct (wk_offset s <? nb) eqn:Hlt2; [eexists; reflexivity|]. zbool.
  rewrite (u32_small (nb - hs)) by lia.
  destruct (rbstream_read_at_inside d2 p2 size m2 (wk_offset s - nb) (nb - hs)
              ltac:(lia) ltac:(lia)) as (rc3 & bs3 & p3 & d3 & ->).
  cbn [bind]. destruct (status_eqb rc3 DC_STATUS_SUCCESS); cbn [negb];
    eexists; reflexivity.
Qed.

End SafetyFacts.

Section LoopSafety.

Context {W : Type} (E : Env W).

Lemma foreach_emit_dive_offset (size : Z) (callback : option (dc_dive_callback_t W))
    (r : found_t W) (s' : walk_t W) :
  foreach_emit_dive size callback r = Ret (Continue s') ->
  wk_offset s' = wk_offset (fd_walk r).
Proof.
  unfold foreach_emit_dive. intro H.
  bind_case H L1. destruct (negb (a =? fd_nbytes r)); [discriminate H|].
  bind_case H L2. destruct (memcmp_eq _ _ _); [discriminate H|].
  destruct callback as [cb|].
  - bind_case H L3. destruct (cb _ _ _) as [go_on w].
    destruct (negb go_on); inversion H; reflexivity.
  - inversion H; reflexivity.
Qed.

(** An iteration that goes on has moved the offset down, and not below
    the start of the scratch block. *)
Lemma foreach_iteration_continue (model size : Z)
    (callback : option (dc_dive_callback_t W)) (s s' : walk_t W) :
  size <= 2 ^ 31 -> 0 <= wk_offset s <= size ->
  foreach_iteration E model (foreach_header model) size callback s = Ret (Continue s') ->
  0 <= wk_offset s' < wk_offset s.
Proof.
  intros Hsize Hoff H. unfold foreach_iteration in H.
  bind_case H R. destruct a as [r | s1 | rc d]; try discriminate H.
  apply foreach_emit_dive_offset in H.
  pose proof (foreach_read_dive_bounds E _ _ _ _ Hsize Hoff R)
    as (_ & _ & Boff & Bnb & Bhs & _).
  lia.
Qed.

Lemma foreach_iteration_returns (model size : Z)
    (callback : option (dc_dive_callback_t W)) (s : walk_t W) :
  model <> SMARTAPNEA -> size <= 2 ^ 31 ->
  foreach_header model + 4 <= wk_offset s <= size ->
  exists r, foreach_iteration E model (foreach_header model) size callback s = Ret r.
Proof.
  intros Hm Hsize Hoff.
  assert (Hh : 4 <= foreach_header model)
    by (destruct (foreach_header_values model) as [H|[H|[H|[H|H]]]]; lia).
  unfold foreach_iteration.
  destruct (foreach_read_dive_returns E model size s Hm Hsize Hoff) as [r Hr].
  rewrite Hr. cbn [bind]. destruct r as [r | s1 | rc d]; try (eexists; reflexivity).
  pose proof (foreach_read_dive_bounds E model size s r Hsize ltac:(lia) Hr)
    as (_ & _ & Boff & Bnb & Bhs & Bfp0 & Bfp).
  rewrite foreach_emit_dive_inside by lia.
  destruct (negb _); [eexists; reflexivity|].
  destruct (fingerprint_matches r); [eexists; reflexivity|].
  destruct callback as [cb|]; [|eexists; reflexivity].
  destruct (cb _ _ _) as [go_on w]. destruct (negb go_on); eexists; reflexivity.
Qed.

(** In a scratch block of at most 2^31 bytes the loop of [foreach]
    ends within as many iterations as the offset it starts from, since
    every iteration that goes on moves the offset down.  On every model
    but the Smart Apnea it ends with a status: no read of the stream, no
    load and no callback argument leaves the scratch block. *)
Lemma foreach_loop_ends (n : nat) (model size : Z)
    (callback : option (dc_dive_callback_t W)) (s : walk_t W) :
  size <= 2 ^ 31 -> 0 <= wk_offset s <= size -> wk_offset s < Z.of_nat n ->
  foreach_loop E n model (foreach_header model) size callback s <> OutOfFuel /\
  (model <> SMARTAPNEA ->
   exists rc d calls,
     foreach_loop E n model (foreach_header model) size callback s = Ret (rc, d, calls)).
Proof.
  intro Hsize. revert s.
  induction n as [|n IH]; intros s Hoff Hn; [lia|].
  cbn [foreach_loop].
  destruct (wk_offset s >=? foreach_header model + 4) eqn:Hc.
  2:{ split; [discriminate|]. intros _. do 3 eexists. reflexivity. }
  zbool.
  pose proof (foreach_iteration_no_fuel E model (foreach_header model) size callback s) as Hnf.
  split.
  - destruct (foreach_iteration E model (foreach_header model) size callback s)
      as [[s' | s' | rc d calls] | |] eqn:Hit; cbn [bind]; try discriminate.
    + apply foreach_iteration_continue in Hit; try assumption.
      apply IH; lia.
    + contradiction.
  - intro Hm.
    destruct (foreach_iteration_returns model size callback s Hm Hsize ltac:(lia))
      as [r Hit].
    rewrite Hit. cbn [bind]. destruct r as [s' | s' | rc d calls].
    + apply foreach_iteration_continue in Hit; try assumption.
      apply IH; try assumption; lia.
    + do 3 eexists. reflexivity.
    + do 3 eexists. reflexivity.
Qed.

End LoopSafety.

(** ** The length of a dive *)

Section LengthFacts.

Context {W : Type} (E : Env W).

Lemma dive_length_ext (model : Z) (f g : Z -> byte) (h hs ss ns : Z) :
  (forall i, h + 0x1C <= i < h + 0x28 -> f i = g i) ->
  dive_length model f h hs ss ns = dive_length model g h hs ss ns.
Proof.
  intro H. unfold dive_length.
  destruct (_ || _); [reflexivity|].
  destruct (model =? SMARTAPNEA); [|reflexivity].
  rewrite (array_uint16_le_ext f g) by (intros; apply H; lia).
  rewrite (array_uint32_le_ext f g) by (intros; apply H; lia).
  reflexivity.
Qed.

(** X1: the length an iteration computes for the dive it has read is,
    modulo 2^32, [4 + headersize + nsamples * samplesize] plus the
    model's extra term, where the sizes are those of the table for the
    model and the dive mode [type & 3], the sample count and the type
    are the two 16-bit fields of the last [header] bytes of the dive's
    header, and dive time and settings are the fields at 0x24 and 0x1C
    of that header, all as they stand in the scratch block.  The length
    is that sum itself whenever the sum is below 2^32, which it always is
    on a model other than the Smart Apnea. *)
Theorem record_length (model size : Z) (s : walk_t W) (r : found_t W) :
  let header := foreach_header model in
  let mem := wk_mem (fd_walk r) in
  let h := wk_offset s - fd_headersize r in
  let total := dive_length model mem h (fd_headersize r) (fd_samplesize r) (fd_nsamples r) in
  size <= 2 ^ 31 -> 0 <= wk_offset s <= size ->
  foreach_read_dive E model header size s = Ret (Found r) ->
  fd_type r = array_uint16_le mem (wk_offset s - header + (if is_smart_family model then 2 else 0)) /\
  fd_nsamples r = array_uint16_le mem (wk_offset s - header + (if is_smart_family model then 0 else 2)) /\
  foreach_sizes model (Z.land (fd_type r) 0x03)
    = (fd_headersize r, fd_samplesize r, fd_fingerprint r) /\
  fd_nbytes r = u32 total /\
  (total < 2 ^ 32 -> fd_nbytes r = total) /\
  (model <> SMARTAPNEA -> fd_nbytes r = total).
Proof.
  intros header mem h total Hsize Hoff H.
  pose proof (foreach_read_dive_bounds E model size s r Hsize Hoff H)
    as (_ & _ & Boff & Bnb & Bhs & _).
  pose proof H as H'. apply foreach_read_dive_found in H'.
  destruct H' as (bs1 & p1 & d1 & bs2 & p2 & d2 & bs3 & p3 & d3 & H'). cbv zeta in H'.
  destruct H' as (B1 & R1 & Ht & Hn & Hn1 & Ht1 & Hsz & Hhs & B2 & R2 & Hnb & Hle & B3 & R3 & Hw).
  fold header in B1, Ht, Hn, B2, Hnb, Hw.
  destruct (foreach_sizes_values _ _ _ _ _ Hsz) as (Hhh & Hhs2 & Hss & Hfp0 & Hfp).
  fold header in Hhh.
  assert (Hh : 4 <= header)
    by (unfold header; destruct (foreach_header_values model) as [X|[X|[X|[X|X]]]]; lia).
  apply in_bounds_spec in B1.
  rewrite (u32_small (fd_headersize r - header)) in Hnb, Hw by lia.
  rewrite (u32_small (fd_nbytes r - fd_headersize r)) in Hw by lia.
  assert (Hmem1 : forall i, wk_offset s - header <= i ->
            mem i = store (wk_mem s) (wk_offset s - header) header bs1 i).
  { intros i Hi. unfold mem. rewrite Hw. cbn [with_read wk_mem].
    rewrite !store_outside by lia. reflexivity. }
  assert (Hmem2 : forall i, wk_offset s - fd_headersize r <= i ->
            mem i = store (store (wk_mem s) (wk_offset s - header) header bs1)
                      (wk_offset s - fd_headersize r) (fd_headersize r - header) bs2 i).
  { intros i Hi. unfold mem. rewrite Hw. cbn [with_read wk_mem].
    rewrite (store_outside _ (wk_offset s - fd_nbytes r)) by lia. reflexivity. }
  assert (Htotal : fd_nbytes r = u32 total).
  { rewrite Hnb. f_equal. unfold total. apply dive_length_ext.
    intros i Hi. symmetry. apply Hmem2. unfold h in Hi. lia. }
  split; [|split; [|split; [|split; [|split]]]].
  - rewrite Ht. apply array_uint16_le_ext. intros i Hi. symmetry. apply Hmem1.
    destruct (is_smart_family model); lia.
  - rewrite Hn. apply array_uint16_le_ext. intros i Hi. symmetry. apply Hmem1.
    destruct (is_smart_family model); lia.
  - exact Hsz.
  - exact Htotal.
  - intro Hlt. rewrite Htotal. apply u32_small. split; [|exact Hlt].
    assert (Hge : 0 <= fd_nbytes r) by lia.
    destruct (Z_le_gt_dec 0 total) as [|Hneg]; [assumption|].
    exfalso. unfold total, dive_length in Hneg.
    assert (0 <= fd_nsamples r < 65536) by (rewrite Hn; apply array_uint16_le_range).
    assert (0 <= fd_nsamples r / 4) by (apply Z.div_pos; lia).
    destruct (_ || _); [nia|].
    destruct (model =? SMARTAPNEA); [|nia].
    cbv zeta in Hneg.
    set (settings := array_uint16_le mem (h + 28)) in Hneg.
    set (divetime := array_uint32_le mem (h + 36)) in Hneg.
    assert (0 <= divetime) by apply array_uint32_le_range.
    assert (0 <= Z.shiftl 1 (Z.land (Z.shiftr settings 9) 3))
      by (apply Z.shiftl_nonneg; lia).
    nia.
  - intro Hm. rewrite Htotal. apply u32_small.
    assert (Hns : 0 <= fd_nsamples r < 65536) by (rewrite Hn; apply array_uint16_le_range).
    pose proof (dive_length_fits model mem h _ _ _ _ _ Hm Hsz Hns). fold total in H0. lia.
Qed.

End LengthFacts.

(** ** The first part of a header *)

Section MiniHeaderFacts.

Context {W : Type} (E : Env W).

Lemma array_uint16_le_stored (mem : Z -> byte) (p n : Z) (bs : list byte) (k : Z) :
  0 <= k -> k + 2 <= n ->
  array_uint16_le (store mem p n bs) (p + k) = array_uint16_le (of_list bs) k.
Proof.
  intros H0 H1. apply array_uint16_le_shift.
  - apply store_of_list. lia.
  - replace (p + k + 1) with (p + (k + 1)) by lia. apply store_of_list. lia.
Qed.

(** C5, as the code has it: each iteration first reads the [header]
    bytes that end at the current offset, where [header] is 4 for SMART
    and SMARTAIR, 6 for SMARTAPNEA, 0x80 for ICONHDNET, 0x84 for QUADAIR
    and 0x5C for every other model, so that it is 4 to 6 bytes exactly
    for the three models of the Smart family.  Type and sample count are
    the 16-bit little-endian fields of that part, the count at 0 and the
    type at 2 for the Smart family, the type at 0 and the count at 2
    otherwise.  If either is 0xFFFF the loop ends with [Success],
    without a callback invocation.  Otherwise the two fields are told
    apart by what the iteration does with them: of a dive it reads, the
    field called type here is the one whose low two bits select the
    header size, sample size and fingerprint offset, and the field
    called sample count is the one the length of the dive is computed
    from. *)
Theorem mini_header_sentinel (n : nat) (model size : Z)
    (callback : option (dc_dive_callback_t W)) (s : walk_t W)
    (bs : list byte) (progress' : dc_event_progress_t)
    (d' : mares_iconhd_device_t W) :
  let header := foreach_header model in
  let type := array_uint16_le (of_list bs) (if is_smart_family model then 2 else 0) in
  let nsamples := array_uint16_le (of_list bs) (if is_smart_family model then 0 else 2) in
  header + 4 <= wk_offset s <= size ->
  dc_rbstream_read E (wk_dev s) (wk_progress s) header
    = (DC_STATUS_SUCCESS, bs, progress', d') ->
  (is_smart_family model = true -> header = if model =? SMARTAPNEA then 6 else 4) /\
  (is_smart_family model = false ->
   header = if model =? ICONHDNET then 0x80 else if model =? QUADAIR then 0x84 else 0x5C) /\
  (4 <= header <= 6 <-> is_smart_family model = true) /\
  (nsamples = 0xFFFF \/ type = 0xFFFF ->
   foreach_loop E (S n) model header size callback s
   = Ret (DC_STATUS_SUCCESS, dc_rbstream_free E d', wk_calls s)) /\
  (forall r : found_t W,
     foreach_read_dive E model header size s = Ret (Found r) ->
     nsamples <> 0xFFFF /\ type <> 0xFFFF /\
     fd_type r = type /\ fd_nsamples r = nsamples /\
     foreach_sizes model (Z.land type 0x03)
       = (fd_headersize r, fd_samplesize r, fd_fingerprint r) /\
     (size <= 2 ^ 31 ->
      fd_nbytes r =
      u32 (dive_length model (wk_mem (fd_walk r)) (wk_offset s - fd_headersize r)
             (fd_headersize r) (fd_samplesize r) nsamples))).
Proof.
  intros header type nsamples Hoff Hread.
  destruct (foreach_header_family model) as (F1 & F2 & F3).
  split; [exact F1|]. split; [exact F2|]. split; [exact F3|].
  split.
  { intro Hsent.
    exact (foreach_loop_sentinel E n model size callback s bs progress' d' Hoff Hread Hsent). }
  intros r H.
  assert (Hh : 4 <= header)
    by (unfold header; destruct (foreach_header_values model) as [X|[X|[X|[X|X]]]]; lia).
  pose proof H as H'. apply foreach_read_dive_found in H'.
  destruct H' as (bs1 & p1 & d1 & bs2 & p2 & d2 & bs3 & p3 & d3 & H'). cbv zeta in H'.
  destruct H' as (B1 & R1 & Ht & Hn & Hn1 & Ht1 & Hsz & Hhs & B2 & R2 & Hnb & Hle & B3 & R3 & Hw).
  fold header in B1, R1, Ht, Hn, B2, R2, Hnb, Hw.
  rewrite Hread in R1. inversion R1; subst bs1 p1 d1. clear R1.
  assert (Htype : fd_type r = type).
  { rewrite Ht. unfold type.
    destruct (is_smart_family model); apply array_uint16_le_stored; lia. }
  assert (Hcount : fd_nsamples r = nsamples).
  { rewrite Hn. unfold nsamples.
    destruct (is_smart_family model); apply array_uint16_le_stored; lia. }
  split; [rewrite <- Hcount; exact Hn1|]. split; [rewrite <- Htype; exact Ht1|].
  split; [exact Htype|]. split; [exact Hcount|].
  split; [rewrite <- Htype; exact Hsz|].
  intro Hsize.
  pose proof (foreach_read_dive_bounds E model size s r Hsize ltac:(lia) H)
    as (_ & _ & Boff & Bnb & Bhs & _).
  destruct (foreach_sizes_values _ _ _ _ _ Hsz) as (Hhh & Hhs2 & Hss & Hfp0 & Hfp).
  fold header in Hhh.
  apply in_bounds_spec in B1.
  rewrite (u32_small (fd_headersize r - header)) in Hnb, Hw by lia.
  rewrite (u32_small (fd_nbytes r - fd_headersize r)) in Hw by lia.
  rewrite <- Hcount, Hnb. f_equal. apply dive_length_ext.
  intros i Hi. rewrite Hw. cbn [with_read wk_mem].
  rewrite (store_outside _ (wk_offset s - fd_nbytes r)) by lia. reflexivity.
Qed.

End MiniHeaderFacts.

(** ** What the loop hands over and what it returns *)

Section OutcomeFacts.

Context {W : Type} (E : Env W).

Lemma of_list_bytes_at (mem : Z -> byte) (p n i : Z) :
  0 <= i < n -> of_list (bytes_at mem p n) i = mem (p + i).
Proof.
  intro H. unfold of_list, bytes_at.
  replace (i <? 0) with false by (symmetry; apply Z.ltb_ge; lia).
  rewrite nth_indep with (d' := mem (p + Z.of_nat 0))
    by (rewrite length_map, length_seq; lia).
  rewrite (map_nth (fun k => mem (p + Z.of_nat k))), seq_nth by lia.
  f_equal. lia.
Qed.

Lemma slice_bytes_at (mem : Z -> byte) (p n k m : Z) :
  0 <= k -> k + m <= n -> slice (bytes_at mem p n) k m = bytes_at mem (p + k) m.
Proof.
  intros Hk Hm. unfold slice, bytes_at at 2. apply map_ext_in. intros j Hj.
  apply in_seq in Hj.
  pose proof (of_list_bytes_at mem p n (k + Z.of_nat j) ltac:(lia)) as Ho.
  unfold of_list in Ho.
  replace (k + Z.of_nat j <? 0) with false in Ho by (symmetry; apply Z.ltb_ge; lia).
  rewrite Ho. f_equal. lia.
Qed.

Lemma array_uint32_le_shift (f g : Z -> byte) (p q : Z) :
  (forall j, 0 <= j < 4 -> f (p + j) = g (q + j)) ->
  array_uint32_le f p = array_uint32_le g q.
Proof.
  intro H. unfold array_uint32_le.
  rewrite <- (Z.add_0_r p), <- (Z.add_0_r q) at 1.
  rewrite (H 0), (H 1), (H 2), (H 3) by lia. rewrite !Z.add_0_r. reflexivity.
Qed.

(** The dive of an iteration that passed the length check is well
    formed. *)
Lemma dive_of_well_formed (model size : Z) (s : walk_t W) (r : found_t W) :
  size <= 2 ^ 31 -> 0 <= wk_offset s <= size ->
  foreach_read_dive E model (foreach_header model) size s = Ret (Found r) ->
  stored_length r = fd_nbytes r ->
  well_formed_dive (dive_of r).
Proof.
  intros Hsize Hoff Hread Hlen.
  pose proof (foreach_read_dive_bounds E model size s r Hsize Hoff Hread)
    as (_ & _ & Boff & Bnb & Bhs & Bfp0 & Bfp).
  unfold well_formed_dive, dive_of, dive_data, dive_fingerprint. cbn [fst snd].
  rewrite bytes_at_length, Z2Nat.id by lia.
  split; [|split].
  - rewrite <- Hlen at 2. unfold stored_length.
    apply array_uint32_le_shift. intros j Hj.
    rewrite Z.add_0_l. apply of_list_bytes_at. lia.
  - lia.
  - exists (fd_nbytes r - fd_headersize r + fd_fingerprint r).
    split; [lia|]. split; [lia|].
    rewrite slice_bytes_at by lia. f_equal. lia.
Qed.

(** An iteration that comes out of its first half without a dive. *)
Lemma foreach_read_dive_other (model header size : Z) (s : walk_t W) :
  (forall s', foreach_read_dive E model header size s = Ret (Stop s') ->
     wk_rc s' = DC_STATUS_SUCCESS /\ wk_calls s' = wk_calls s) /\
  (forall rc d, foreach_read_dive E model header size s = Ret (Failed rc d) ->
     rc <> DC_STATUS_SUCCESS /\
     exists d0 progress n bs progress' d1,
       dc_rbstream_read E d0 progress n = (rc, bs, progress', d1) /\
       d = dc_rbstream_free E d1).
Proof.
  assert (Hfail : forall rc d0 progress mem p n mem' progress' d1,
            rbstream_read_at E d0 progress size mem p n = Ret (rc, mem', progress', d1) ->
            status_eqb rc DC_STATUS_SUCCESS = false ->
            rc <> DC_STATUS_SUCCESS /\
            exists d0 progress n bs progress' d2,
              dc_rbstream_read E d0 progress n = (rc, bs, progress', d2) /\
              dc_rbstream_free E d1 = dc_rbstream_free E d2).
  { intros rc d0 progress mem p n mem' progress' d1 Hr Hs.
    apply rbstream_read_at_ret in Hr. destruct Hr as (_ & bs & Hr & _).
    split; [apply status_eqb_neq; exact Hs|].
    exists d0, progress, n, bs, progress', d1. split; [exact Hr | reflexivity]. }
  split.
  - intros s' H. unfold foreach_read_dive in H.
    bind_case H R1. destruct a as [[[rc1 m1] p1] d1].
    destruct (status_eqb rc1 DC_STATUS_SUCCESS) eqn:S1; cbn [negb] in H; [|discriminate H].
    apply status_eqb_eq in S1. subst rc1.
    bind_case H TN. destruct a as [type nsamples]. clear TN.
    destruct ((nsamples =? 65535) || (type =? 65535)); [inversion H; split; reflexivity|].
    destruct (foreach_sizes model (Z.land type 3)) as [[hs ss] fpo].
    destruct (wk_offset s <? hs); [inversion H; split; reflexivity|].
    bind_case H R2. destruct a as [[[rc2 m2] p2] d2].
    destruct (status_eqb rc2 DC_STATUS_SUCCESS) eqn:S2; cbn [negb] in H; [|discriminate H].
    apply status_eqb_eq in S2. subst rc2.
    bind_case H NB. clear NB.
    destruct (wk_offset s <? a); [inversion H; split; reflexivity|].
    bind_case H R3. destruct a0 as [[[rc3 m3] p3] d3].
    destruct (status_eqb rc3 DC_STATUS_SUCCESS); cbn [negb] in H; discriminate H.
  - intros rc d H. unfold foreach_read_dive in H.
    bind_case H R1. destruct a as [[[rc1 m1] p1] d1].
    destruct (status_eqb rc1 DC_STATUS_SUCCESS) eqn:S1; cbn [negb] in H.
    2:{ inversion H; subst. destruct (Hfail _ _ _ _ _ _ _ _ _ R1 S1) as (Hne & d0' & pr & n & bs & pr' & d2' & Hr & Hf).
        split; [exact Hne|]. exists d0', pr, n, bs, pr', d2'. split; assumption. }
    bind_case H TN. destruct a as [type nsamples]. clear TN.
    destruct ((nsamples =? 65535) || (type =? 65535)); [discriminate H|].
    destruct (foreach_sizes model (Z.land type 3)) as [[hs ss] fpo].
    destruct (wk_offset s <? hs); [discriminate H|].
    bind_case H R2. destruct a as [[[rc2 m2] p2] d2].
    destruct (status_eqb rc2 DC_STATUS_SUCCESS) eqn:S2; cbn [negb] in H.
    2:{ inversion H; subst. destruct (Hfail _ _ _ _ _ _ _ _ _ R2 S2) as (Hne & d0' & pr & n & bs & pr' & d2' & Hr & Hf).
        split; [exact Hne|]. exists d0', pr, n, bs, pr', d2'. split; assumption. }
    bind_case H NB. clear NB.
    destruct (wk_offset s <? a); [discriminate H|].
    bind_case H R3. destruct a0 as [[[rc3 m3] p3] d3].
    destruct (status_eqb rc3 DC_STATUS_SUCCESS) eqn:S3; cbn [negb] in H; [discriminate H|].
    inversion H; subst. destruct (Hfail _ _ _ _ _ _ _ _ _ R3 S3) as (Hne & d0' & pr & n & bs & pr' & d2' & Hr & Hf).
    split; [exact Hne|]. exists d0', pr, n, bs, pr', d2'. split; assumption.
Qed.

End OutcomeFacts.

Section LoopOutcome.

Context {W : Type} (E : Env W).

(** One iteration, by the way it ends: the status it leaves in the loop
    variables or returns, and the calls it has added. *)
Lemma foreach_iteration_outcome (model size : Z)
    (callback : option (dc_dive_callback_t W)) (s : walk_t W) (step : step_t W) :
  size <= 2 ^ 31 -> 0 <= wk_offset s <= size ->
  foreach_iteration E model (foreach_header model) size callback s = Ret step ->
  match step with
  | Continue s' | Break s' =>
    wk_rc s' = DC_STATUS_SUCCESS /\
    (wk_calls s' = wk_calls s \/
     (callback <> None /\
      exists dive, well_formed_dive dive /\ wk_calls s' = wk_calls s ++ [dive]))
  | Return rc d calls =>
    rc <> DC_STATUS_SUCCESS /\ calls = wk_calls s /\
    exists d0 progress n bs progress' d1,
      dc_rbstream_read E d0 progress n = (rc, bs, progress', d1) /\
      d = dc_rbstream_free E d1
  end.
Proof.
  intros Hsize Hoff H. unfold foreach_iteration in H.
  bind_case H R. destruct a as [r | s1 | rc d].
  - pose proof (foreach_read_dive_bounds E model size s r Hsize Hoff R)
      as (Brc & Bcalls & Boff & Bnb & Bhs & Bfp0 & Bfp).
    rewrite foreach_emit_dive_inside in H by lia.
    destruct (stored_length r =? fd_nbytes r) eqn:Hlen; cbn [negb] in H.
    2:{ inversion H; subst. split; [exact Brc | left; exact Bcalls]. }
    destruct (fingerprint_matches r).
    { inversion H; subst. split; [exact Brc | left; exact Bcalls]. }
    destruct callback as [cb|].
    2:{ inversion H; subst. split; [exact Brc | left; exact Bcalls]. }
    destruct (cb _ _ _) as [go_on w].
    assert (Hdive : well_formed_dive (dive_of r)).
    { apply (dive_of_well_formed E model size s r Hsize Hoff R). zbool. exact Hlen. }
    destruct (negb go_on); inversion H; subst; cbn [after_callback wk_rc wk_calls];
      (split; [exact Brc|]); right; (split; [discriminate|]);
      exists (dive_of r); rewrite Bcalls; split; [exact Hdive | reflexivity | exact Hdive | reflexivity].
  - inversion H; subst.
    destruct (foreach_read_dive_other E model (foreach_header model) size s) as [Hstop _].
    destruct (Hstop _ R) as [Hrc Hcalls]. split; [exact Hrc | left; exact Hcalls].
  - inversion H; subst.
    destruct (foreach_read_dive_other E model (foreach_header model) size s) as [_ Hfail].
    destruct (Hfail _ _ R) as [Hne Hex]. split; [exact Hne|]. split; [reflexivity | exact Hex].
Qed.

(** Whatever the stream and the callback do, the dives the loop has
    handed over when it returns are those handed over before it,
    followed by dives that are each well formed.  Without a callback
    nothing is added. *)
Lemma foreach_loop_dives (n : nat) (model size : Z)
    (callback : option (dc_dive_callback_t W)) (s : walk_t W)
    (rc : dc_status_t) (d : mares_iconhd_device_t W) (calls : list dive_t) :
  size <= 2 ^ 31 -> 0 <= wk_offset s <= size ->
  foreach_loop E n model (foreach_header model) size callback s = Ret (rc, d, calls) ->
  exists more,
    calls = wk_calls s ++ more /\
    Forall well_formed_dive more /\
    (callback = None -> more = []).
Proof.
  intro Hsize. revert s rc d calls.
  induction n as [|n IH]; intros s rc d calls Hoff H; cbn [foreach_loop] in H.
  - destruct (wk_offset s >=? foreach_header model + 4); [discriminate H|].
    inversion H; subst. exists []. rewrite app_nil_r.
    split; [reflexivity|]. split; [constructor | reflexivity].
  - destruct (wk_offset s >=? foreach_header model + 4).
    2:{ inversion H; subst. exists []. rewrite app_nil_r.
    split; [reflexivity|]. split; [constructor | reflexivity]. }
    bind_case H Hit.
    pose proof (foreach_iteration_outcome model size callback s a Hsize Hoff Hit) as Hout.
    destruct a as [s' | s' | rc' d' calls'].
    + pose proof (foreach_iteration_continue E model size callback s s' Hsize Hoff Hit) as Hlt.
      destruct (IH s' _ _ _ ltac:(lia) H) as (more & Hcalls & Hwf & Hnone).
      destruct Hout as [_ [Hsame | (Hcb & dive & Hd & Hadd)]].
      * exists more. rewrite <- Hsame. split; [exact Hcalls|]. split; assumption.
      * exists (dive :: more). rewrite Hcalls, Hadd, <- app_assoc.
        split; [reflexivity|]. split; [constructor; assumption|].
        intro Hn. contradiction.
    + inversion H; subst.
      destruct Hout as [_ [Hsame | (Hcb & dive & Hd & Hadd)]].
      * exists []. rewrite app_nil_r.
        split; [exact Hsame|]. split; [constructor | reflexivity].
      * exists [dive]. split; [exact Hadd|]. split; [constructor; [exact Hd | constructor]|].
        intro Hn. contradiction.
    + inversion H; subst. destruct Hout as (_ & Hc & _).
      exists []. rewrite app_nil_r.
      split; [exact Hc|]. split; [constructor | reflexivity].
Qed.

(** X2: the loop of [foreach], entered with status [Success], returns
    [Success] on every way out but one: a read of the stream that
    failed, whose status is then returned as it is, the stream being
    freed.  A sentinel, a header or a dive that does not fit, a length
    mismatch, a fingerprint match and a callback that says stop are all
    [Success]. *)
Theorem foreach_loop_status (n : nat) (model size : Z)
    (callback : option (dc_dive_callback_t W)) (s : walk_t W)
    (rc : dc_status_t) (d : mares_iconhd_device_t W) (calls : list dive_t) :
  size <= 2 ^ 31 -> 0 <= wk_offset s <= size ->
  wk_rc s = DC_STATUS_SUCCESS ->
  foreach_loop E n model (foreach_header model) size callback s = Ret (rc, d, calls) ->
  rc = DC_STATUS_SUCCESS \/
  (rc <> DC_STATUS_SUCCESS /\
   exists d0 progress k bs progress' d1,
     dc_rbstream_read E d0 progress k = (rc, bs, progress', d1) /\
     d = dc_rbstream_free E d1).
Proof.
  intro Hsize. revert s rc d calls.
  induction n as [|n IH]; intros s rc d calls Hoff Hrc H; cbn [foreach_loop] in H.
  - destruct (wk_offset s >=? foreach_header model + 4); [discriminate H|].
    inversion H; subst. left. exact Hrc.
  - destruct (wk_offset s >=? foreach_header model + 4).
    2:{ inversion H; subst. left. exact Hrc. }
    bind_case H Hit.
    pose proof (foreach_iteration_outcome model size callback s a Hsize Hoff Hit) as Hout.
    destruct a as [s' | s' | rc' d' calls'].
    + pose proof (foreach_iteration_continue E model size callback s s' Hsize Hoff Hit) as Hlt.
      destruct Hout as [Hrc' _]. apply (IH s' _ _ _ ltac:(lia) Hrc' H).
    + inversion H; subst. left. apply Hout.
    + inversion H; subst. right. destruct Hout as (Hne & _ & Hex).
      split; assumption.
Qed.

End LoopOutcome.

(** ** The chunked I/O adapter *)

Lemma map_seq_from (A : Type) (f : nat -> A) (k m : nat) :
  map f (seq k m) = map (fun j => f (k + j)%nat) (seq 0 m).
Proof.
  revert f k. induction m as [|m IH]; intros f k; [reflexivity|].
  cbn [seq map]. rewrite Nat.add_0_r. f_equal.
  rewrite (IH f (S k)), (IH (fun j => f (k + j)%nat) 1%nat).
  apply map_ext. intro j. f_equal. lia.
Qed.

Lemma slice_split (p : list byte) (o a len : Z) :
  0 <= len <= a ->
  slice p o a = slice p o len ++ slice p (o + len) (a - len).
Proof.
  intro H. unfold slice.
  replace (Z.to_nat a) with (Z.to_nat len + Z.to_nat (a - len))%nat by lia.
  rewrite seq_app, map_app. f_equal. cbn [Nat.add].
  rewrite map_seq_from. apply map_ext. intro j. f_equal. lia.
Qed.

Lemma slice_prefix (bs rest : list byte) :
  slice (bs ++ rest) 0 (Z.of_nat (length bs)) = bs.
Proof.
  unfold slice. rewrite Nat2Z.id.
  apply nth_ext with (d := x00) (d' := x00).
  - rewrite length_map, length_seq. reflexivity.
  - intros i Hi. rewrite length_map, length_seq in Hi.
    rewrite nth_indep with (d' := nth (Z.to_nat (0 + Z.of_nat 0)) (bs ++ rest) x00)
      by (rewrite length_map, length_seq; exact Hi).
    rewrite (map_nth (fun i => nth (Z.to_nat (0 + Z.of_nat i)) (bs ++ rest) x00)).
    rewrite seq_nth by exact Hi.
    replace (Z.to_nat (0 + Z.of_nat (0 + i))) with i by lia.
    apply app_nth1. exact Hi.
Qed.

Lemma slice_empty (p : list byte) (o n : Z) : n <= 0 -> slice p o n = [].
Proof. intro H. unfold slice. replace (Z.to_nat n) with 0%nat by lia. reflexivity. Qed.

Section FrameFacts.

Context {W : Type} (E : Env W).

Local Opaque firstn skipn slice.

Lemma frames_read_app (w w1 w2 : W) (f1 f2 : list (list byte)) :
  frames_read E w f1 w1 -> frames_read E w1 f2 w2 -> frames_read E w (f1 ++ f2) w2.
Proof.
  induction 1 as [w | w bs w0 frames w1 Hr Hf IH]; intro H2; [exact H2|].
  cbn [app]. econstructor; [exact Hr | apply IH; exact H2].
Qed.

(** The loop of the adapter on a packet transport: the bytes handed out
    and those left in the cache are the bytes that were in the cache
    followed by the packets read, in order. *)
Lemma mares_iconhd_read_loop_frames (n : nat) :
  forall rc (d : mares_iconhd_device_t W) data nbytes size data' d',
    cache_ok d -> nbytes <= size ->
    mares_iconhd_read_loop E n DC_TRANSPORT_BLE rc d data nbytes size
      = Ret (DC_STATUS_SUCCESS, data', d') ->
    cache_ok d' /\ same_session d d' /\
    exists frames,
      frames_read E (world d) frames (world d') /\
      data ++ pending d ++ concat frames = data' ++ pending d'.
Proof.
  induction n as [|n IH]; intros rc d data nbytes size data' d' Hc Hs H;
    cbn [mares_iconhd_read_loop] in H; destruct (nbytes <? size) eqn:Hlt;
    try discriminate H.
  - inversion H; subst. split; [exact Hc|]. split; [repeat split|].
    exists []. split; [constructor|]. cbn [concat]. rewrite app_nil_r. reflexivity.
  - zbool. destruct Hc as (Hlen & Ho & Ha & Hoa).
    destruct (available d =? 0) eqn:Hav.
    + destruct (dc_iostream_read E (world d) 20) as [[rc1 bs] w1] eqn:Hr.
      destruct (status_eqb rc1 DC_STATUS_SUCCESS) eqn:Hrc.
      2:{ inversion H; subst. discriminate Hrc. }
      apply status_eqb_eq in Hrc. subst rc1.
      cbv zeta in H. cbn [available offset cache set_cache set_world] in H.
      set (bs' := firstn 20 bs) in *.
      assert (Hbs : (length bs' <= 20)%nat) by apply firstn_le_length.
      set (len := if nbytes + Z.of_nat (length bs') >? size
                  then size - nbytes else Z.of_nat (length bs')) in *.
      assert (Hlenr : 0 <= len <= Z.of_nat (length bs')).
      { unfold len. destruct (_ >? size) eqn:Hg; zbool; lia. }
      assert (Hle : nbytes + len <= size).
      { unfold len. destruct (_ >? size) eqn:Hg; zbool; lia. }
      set (c1 := bs' ++ skipn (length bs') (cache d)) in *.
      assert (Hc1 : length c1 = 20%nat).
      { unfold c1. rewrite length_app, length_skipn. lia. }
      apply IH in H; [|unfold cache_ok; cbn [cache offset available set_cache set_world]; repeat split; lia | lia].
      destruct H as (Hok & Hsame & frames & Hf & Heq).
      cbn [world] in Hf.
      split; [exact Hok|]. split; [exact Hsame|].
      exists (bs' :: frames). split; [econstructor; eassumption|].
      unfold pending in Heq at 1. cbn [cache offset available] in Heq.
      zbool. unfold pending at 1. rewrite Hav.
      rewrite (slice_empty (cache d) (offset d) 0) by lia.
      cbn [concat app]. rewrite <- Heq. rewrite <- !app_assoc. f_equal.
      rewrite app_assoc. f_equal.
      rewrite <- (slice_prefix bs' (skipn (length bs') (cache d))) at 1.
      fold c1. rewrite (slice_split c1 0 (Z.of_nat (length bs')) len) by lia.
      rewrite Z.add_0_l. reflexivity.
    + cbv zeta in H. zbool.
      set (len := if nbytes + available d >? size then size - nbytes else available d) in *.
      assert (Hlenr : 0 <= len <= available d).
      { unfold len. destruct (_ >? size) eqn:Hg; zbool; lia. }
      assert (Hle : nbytes + len <= size).
      { unfold len. destruct (_ >? size) eqn:Hg; zbool; lia. }
      apply IH in H; [|unfold cache_ok; cbn [cache offset available set_cache set_world]; repeat split; lia | lia].
      destruct H as (Hok & Hsame & frames & Hf & Heq).
      split; [exact Hok|]. split; [exact Hsame|].
      exists frames. split; [exact Hf|].
      unfold pending in Heq at 1. cbn [cache offset available] in Heq.
      rewrite <- Heq. rewrite <- !app_assoc. f_equal.
      rewrite app_assoc. f_equal.
      unfold pending. apply slice_split. lia.
  - inversion H; subst. split; [exact Hc|]. split; [repeat split|].
    exists []. split; [constructor|]. cbn [concat]. rewrite app_nil_r. reflexivity.
Qed.

End FrameFacts.

Section AdapterTheorems.

Context {W : Type} (E : Env W).

Local Opaque firstn skipn slice.

(** X3: on a packet transport a successful read of the adapter keeps
    the receive cache in order and loses, repeats or reorders nothing:
    the bytes it hands out followed by those it leaves in the cache are
    the bytes that waited in the cache followed by the packets the
    transport delivered during the call, and exactly [size] bytes are
    handed out.  The session is otherwise as before. *)
Theorem read_serves_frames (fuel : nat) (d d' : mares_iconhd_device_t W)
    (size : Z) (data : list byte) :
  dc_iostream_get_transport E (world d) = DC_TRANSPORT_BLE ->
  cache_ok d -> 0 <= size ->
  mares_iconhd_read E fuel d size = Ret (DC_STATUS_SUCCESS, data, d') ->
  cache_ok d' /\ same_session d d' /\
  Z.of_nat (length data) = size /\
  exists frames,
    frames_read E (world d) frames (world d') /\
    pending d ++ concat frames = data ++ pending d'.
Proof.
  intros Ht Hc Hs H.
  pose proof H as Hlen.
  apply mares_iconhd_read_exact in Hlen; [|apply Hc | exact Hs].
  unfold mares_iconhd_read in H. rewrite Ht in H.
  apply mares_iconhd_read_loop_frames in H; [|exact Hc | exact Hs].
  destruct H as (Hok & Hsame & frames & Hf & Heq).
  split; [exact Hok|]. split; [exact Hsame|]. split; [apply Hlen|].
  exists frames. split; [exact Hf | exact Heq].
Qed.

Lemma mares_iconhd_read_loop_returns (n : nat) :
  productive_reads E ->
  forall transport rc (d : mares_iconhd_device_t W) data nbytes size,
    0 <= available d -> size - nbytes <= Z.of_nat n ->
    exists r, mares_iconhd_read_loop E n transport rc d data nbytes size = Ret r.
Proof.
  intro Hp. induction n as [|n IH]; intros transport rc d data nbytes size Ha Hn;
    cbn [mares_iconhd_read_loop]; destruct (nbytes <? size) eqn:Hlt;
    try (eexists; reflexivity); zbool; [lia|].
  destruct transport.
  - destruct (dc_iostream_read E (world d) _) as [[rc1 bs] w1] eqn:Hr.
    destruct (status_eqb rc1 DC_STATUS_SUCCESS) eqn:Hrc; [|eexists; reflexivity].
    apply status_eqb_eq in Hrc. subst rc1.
    replace (if nbytes + (size - nbytes) >? size then size - nbytes else size - nbytes)
      with (size - nbytes) in * by (destruct (_ >? size); reflexivity).
    apply Hp in Hr; [|lia].
    apply IH; [exact Ha|].
    rewrite length_firstn.
    assert (0 < length bs)%nat by (destruct bs; [contradiction | cbn; lia]). lia.
  - destruct (available d =? 0) eqn:Hav.
    + destruct (dc_iostream_read E (world d) 20) as [[rc1 bs] w1] eqn:Hr.
      destruct (status_eqb rc1 DC_STATUS_SUCCESS) eqn:Hrc; [|eexists; reflexivity].
      apply status_eqb_eq in Hrc. subst rc1.
      apply Hp in Hr; [|lia].
      cbv zeta. cbn [available offset cache set_cache set_world].
      assert (0 < length (firstn 20 bs))%nat.
      { rewrite length_firstn. destruct bs; [contradiction | cbn [length]; lia]. }
      apply IH; cbn [available set_cache];
        destruct (_ >? size) eqn:Hg; zbool; lia.
    + cbv zeta. zbool.
      apply IH; cbn [available set_cache];
        destruct (_ >? size) eqn:Hg; zbool; lia.
Qed.

(** X4: on a transport whose successful reads deliver at least one
    byte, a read of the adapter of [size] bytes comes back within [size]
    rounds of its loop, on the byte stream as on the packet transport. *)
Theorem mares_iconhd_read_returns (fuel : nat) (d : mares_iconhd_device_t W) (size : Z) :
  productive_reads E -> 0 <= available d -> size <= Z.of_nat fuel ->
  exists rc data d', mares_iconhd_read E fuel d size = Ret (rc, data, d').
Proof.
  intros Hp Ha Hs. unfold mares_iconhd_read.
  destruct (mares_iconhd_read_loop_returns fuel Hp
              (dc_iostream_get_transport E (world d)) DC_STATUS_SUCCESS d [] 0 size Ha
              ltac:(lia)) as [[[rc data] d'] H].
  exists rc, data, d'. exact H.
Qed.

Lemma mares_iconhd_write_loop_frames (n : nat) :
  whole_writes E ->
  forall transport rc (d : mares_iconhd_device_t W) data nbytes size d',
    0 <= nbytes ->
    mares_iconhd_write_loop E n transport rc d data nbytes size
      = Ret (DC_STATUS_SUCCESS, d') ->
    d' = set_world d (world d') /\
    exists frames,
      frames_written E (world d) frames (world d') /\
      concat frames = slice data nbytes (size - nbytes) /\
      (size <= nbytes -> frames = []) /\
      (transport = DC_TRANSPORT_BLE -> Forall (fun f => (length f <= 20)%nat) frames) /\
      (transport <> DC_TRANSPORT_BLE -> nbytes < size ->
       frames = [slice data nbytes (size - nbytes)]).
Proof.
  intro Hw. induction n as [|n IH]; intros transport rc d data nbytes size d' H0 H;
    cbn [mares_iconhd_write_loop] in H; destruct (nbytes <? size) eqn:Hlt;
    try discriminate H.
  - zbool. inversion H; subst. split; [destruct d'; reflexivity|].
    exists []. split; [constructor|].
    split; [cbn [concat]; symmetry; apply slice_empty; lia|].
    split; [reflexivity|]. split; [constructor | lia].
  - zbool.
    set (len0 := match transport with DC_TRANSPORT_BLE => 20 | _ => size - nbytes end) in *.
    set (len := if nbytes + len0 >? size then size - nbytes else len0) in *.
    assert (Hlen : 0 < len <= size - nbytes).
    { unfold len, len0. destruct transport; destruct (_ >? size) eqn:Hg; zbool; lia. }
    destruct (dc_iostream_write E (world d) (slice data nbytes len)) as [[rc1 written] w1] eqn:Hwr.
    destruct (status_eqb rc1 DC_STATUS_SUCCESS) eqn:Hrc.
    2:{ inversion H; subst. discriminate Hrc. }
    apply status_eqb_eq in Hrc. subst rc1.
    pose proof (Hw _ _ _ _ Hwr) as Hwhole. rewrite slice_length in Hwhole.
    apply IH in H; [|lia].
    destruct H as (Hd & frames & Hf & Hcat & Hnil & Hble & Hser).
    cbn [world set_world] in Hf.
    split; [rewrite Hd at 1; destruct d; reflexivity|].
    exists (slice data nbytes len :: frames).
    split; [econstructor; eassumption|].
    replace (nbytes + Z.of_nat written) with (nbytes + len) in * by lia.
    split; [|split; [lia|split]].
    + cbn [concat]. rewrite Hcat.
      replace (size - (nbytes + len)) with (size - nbytes - len) by lia.
      symmetry. apply slice_split. lia.
    + intro Ht. constructor; [|apply Hble; exact Ht].
      rewrite slice_length. unfold len, len0. rewrite Ht. cbv iota.
      destruct (nbytes + 20 >? size) eqn:Hg; zbool; lia.
    + intros Ht _. 
      assert (Hfull : len = size - nbytes).
      { unfold len, len0. destruct transport; [|contradiction];
          destruct (_ >? size); reflexivity. }
      rewrite Hnil by lia. rewrite Hfull. reflexivity.
  - zbool. inversion H; subst. split; [destruct d'; reflexivity|].
    exists []. split; [constructor|].
    split; [cbn [concat]; symmetry; apply slice_empty; lia|].
    split; [reflexivity|]. split; [constructor | lia].
Qed.

(** X5: towards a transport whose successful writes take the whole
    packet, a successful write of the adapter sends the first [size]
    bytes of the data, each once and in order: as one packet on a byte
    stream, as packets of at most 20 bytes on a packet transport.  It
    changes nothing of the session but the world. *)
Theorem write_sends_frames (fuel : nat) (d d' : mares_iconhd_device_t W)
    (data : list byte) (size : Z) :
  whole_writes E ->
  mares_iconhd_write E fuel d data size = Ret (DC_STATUS_SUCCESS, d') ->
  d' = set_world d (world d') /\
  exists frames,
    frames_written E (world d) frames (world d') /\
    concat frames = slice data 0 size /\
    (dc_iostream_get_transport E (world d) = DC_TRANSPORT_BLE ->
     Forall (fun f => (length f <= 20)%nat) frames) /\
    (dc_iostream_get_transport E (world d) <> DC_TRANSPORT_BLE -> 0 < size ->
     frames = [slice data 0 size]).
Proof.
  intros Hw H. unfold mares_iconhd_write in H.
  apply mares_iconhd_write_loop_frames in H; [|exact Hw | lia].
  destruct H as (Hd & frames & Hf & Hcat & _ & Hble & Hser).
  rewrite Z.sub_0_r in Hcat, Hser.
  split; [exact Hd|]. exists frames. repeat split; assumption.
Qed.

End AdapterTheorems.

(** ** The packet codec *)

Lemma slice_skipn (p : list byte) (k : nat) (n : Z) :
  slice (skipn k p) 0 n = slice p (Z.of_nat k) n.
Proof.
  unfold slice. apply map_ext. intro i. rewrite nth_skipn. f_equal. lia.
Qed.

Section PacketFacts.

Context {W : Type} (E : Env W).

Local Abbreviation device := (mares_iconhd_device_t W).

(** C7: for a command of at least two bytes and any answer size,
    [packet] fails with [Cancelled] and leaves the session untouched when
    the session is cancelled.  Otherwise it sends the first two command
    bytes and reads one header byte; a header other than 0xAA ends the
    exchange there with [Protocol].  After a good header it sends the
    rest of the command, reads [asize] answer bytes and one trailer byte;
    a trailer other than 0xEA gives [Protocol], a trailer 0xEA gives
    [Success].  Conversely [Success] is returned only after exactly these
    five steps, with header 0xAA and trailer 0xEA, and then the header
    and trailer are one byte and the answer is [asize] bytes long; and
    what the transport was given, when its successful writes take the
    whole packet, is the first two bytes of the command in the first
    step and bytes 2 to [csize] of the command, and nothing else, in
    the third. *)
Theorem packet_framing (fuel : nat) (d : device) (command : list byte)
    (csize asize : Z) :
  2 <= csize ->
  (device_is_cancelled E (world d) = true ->
   mares_iconhd_packet E fuel d command csize asize
     = Ret (DC_STATUS_CANCELLED, [], d))
  /\
  (device_is_cancelled E (world d) = false ->
   forall d1,
     mares_iconhd_write E fuel d command 2 = Ret (DC_STATUS_SUCCESS, d1) ->
   forall header d2,
     mares_iconhd_read E fuel d1 1 = Ret (DC_STATUS_SUCCESS, header, d2) ->
     (u8 (nth 0 header x00) <> 0xAA ->
      mares_iconhd_packet E fuel d command csize asize
        = Ret (DC_STATUS_PROTOCOL, [], d2))
     /\
     (u8 (nth 0 header x00) = 0xAA ->
      forall d3,
        packet_payload E fuel d2 command csize = Ret (DC_STATUS_SUCCESS, d3) ->
      forall answer d4,
        mares_iconhd_read E fuel d3 asize = Ret (DC_STATUS_SUCCESS, answer, d4) ->
      forall trailer d5,
        mares_iconhd_read E fuel d4 1 = Ret (DC_STATUS_SUCCESS, trailer, d5) ->
        (u8 (nth 0 trailer x00) <> 0xEA ->
         mares_iconhd_packet E fuel d command csize asize
           = Ret (DC_STATUS_PROTOCOL, answer, d5))
        /\
        (u8 (nth 0 trailer x00) = 0xEA ->
         mares_iconhd_packet E fuel d command csize asize
           = Ret (DC_STATUS_SUCCESS, answer, d5))))
  /\
  (forall answer d',
     mares_iconhd_packet E fuel d command csize asize
       = Ret (DC_STATUS_SUCCESS, answer, d') ->
     exists d1 header d2 d3 d4 trailer,
       device_is_cancelled E (world d) = false /\
       mares_iconhd_write E fuel d command 2 = Ret (DC_STATUS_SUCCESS, d1) /\
       mares_iconhd_read E fuel d1 1 = Ret (DC_STATUS_SUCCESS, header, d2) /\
       u8 (nth 0 header x00) = 0xAA /\
       packet_payload E fuel d2 command csize = Ret (DC_STATUS_SUCCESS, d3) /\
       mares_iconhd_read E fuel d3 asize = Ret (DC_STATUS_SUCCESS, answer, d4) /\
       mares_iconhd_read E fuel d4 1 = Ret (DC_STATUS_SUCCESS, trailer, d') /\
       u8 (nth 0 trailer x00) = 0xEA /\
       (0 <= available d -> 0 <= asize ->
        length header = 1%nat /\ Z.of_nat (length answer) = asize /\
        length trailer = 1%nat) /\
       (whole_writes E ->
        exists sent1 sent2,
          frames_written E (world d) sent1 (world d1) /\
          concat sent1 = slice command 0 2 /\
          frames_written E (world d2) sent2 (world d3) /\
          concat sent2 = slice command 2 (csize - 2))).
Proof.
  intro Hcs.
  assert (Hlt : (csize <? 2) = false) by (apply Z.ltb_ge; lia).
  unfold mares_iconhd_packet. rewrite Hlt.
  split; [|split].
  - intro Hc. rewrite Hc. reflexivity.
  - intros Hc d1 Hw header d2 Hr. rewrite Hc, Hw. cbn [bind negb status_eqb]. rewrite Hr. cbn [bind negb status_eqb].
    split.
    + intro Hh. apply Z.eqb_neq in Hh. unfold ACK. rewrite Hh. reflexivity.
    + intros Hh d3 Hp answer d4 Ha trailer d5 Ht.
      apply Z.eqb_eq in Hh. unfold ACK. rewrite Hh. cbn [bind negb status_eqb].
      unfold packet_payload in Hp. rewrite Hp. cbn [bind negb status_eqb].
      rewrite Ha. cbn [bind negb status_eqb].
      rewrite Ht. cbn [bind negb status_eqb]. unfold EOF.
      split; intro He.
      * apply Z.eqb_neq in He. rewrite He. reflexivity.
      * apply Z.eqb_eq in He. rewrite He. reflexivity.
  - intros answer d' H.
    destruct (device_is_cancelled E (world d)) eqn:Hc; [discriminate H|].
    destruct (mares_iconhd_write E fuel d command 2) as [[s1 d1]| |] eqn:Hw;
      cbn [bind negb status_eqb] in H; try discriminate H.
    destruct (status_eqb s1 DC_STATUS_SUCCESS) eqn:Hs1; cbn [bind negb status_eqb] in H;
      [|inversion H; subst; discriminate Hs1].
    apply status_eqb_eq in Hs1. subst s1.
    destruct (mares_iconhd_read E fuel d1 1) as [[[s2 header] d2]| |] eqn:Hr;
      cbn [bind negb status_eqb] in H; try discriminate H.
    destruct (status_eqb s2 DC_STATUS_SUCCESS) eqn:Hs2; cbn [bind negb status_eqb] in H;
      [|inversion H; subst; discriminate Hs2].
    apply status_eqb_eq in Hs2. subst s2.
    destruct (u8 (nth 0 header x00) =? ACK) eqn:Hh; cbn [bind negb status_eqb] in H;
      [|discriminate H].
    fold (packet_payload E fuel d2 command csize) in H.
    destruct (packet_payload E fuel d2 command csize) as [[s3 d3]| |] eqn:Hp;
      cbn [bind negb status_eqb] in H; try discriminate H.
    destruct (status_eqb s3 DC_STATUS_SUCCESS) eqn:Hs3; cbn [bind negb status_eqb] in H;
      [|inversion H; subst; discriminate Hs3].
    apply status_eqb_eq in Hs3. subst s3.
    destruct (mares_iconhd_read E fuel d3 asize) as [[[s4 ans] d4]| |] eqn:Ha;
      cbn [bind negb status_eqb] in H; try discriminate H.
    destruct (status_eqb s4 DC_STATUS_SUCCESS) eqn:Hs4; cbn [bind negb status_eqb] in H;
      [|inversion H; subst; discriminate Hs4].
    apply status_eqb_eq in Hs4. subst s4.
    destruct (mares_iconhd_read E fuel d4 1) as [[[s5 trailer] d5]| |] eqn:Ht;
      cbn [bind negb status_eqb] in H; try discriminate H.
    destruct (status_eqb s5 DC_STATUS_SUCCESS) eqn:Hs5; cbn [bind negb status_eqb] in H;
      [|inversion H; subst; discriminate Hs5].
    apply status_eqb_eq in Hs5. subst s5.
    destruct (u8 (nth 0 trailer x00) =? EOF) eqn:He; cbn [bind negb status_eqb] in H;
      [|discriminate H].
    inversion H; subst.
    exists d1, header, d2, d3, d4, trailer.
    apply Z.eqb_eq in Hh, He.
    repeat (split; [solve [reflexivity | assumption]|]).
    split.
    { intros Hav Has.
      apply mares_iconhd_write_cache in Hw.
      eapply mares_iconhd_read_exact in Hr as [L2 A2]; [|lia|lia].
      assert (A3 : 0 <= available d3).
      { unfold packet_payload in Hp. destruct (csize >? 2).
        - apply mares_iconhd_write_cache in Hp. lia.
        - inversion Hp; subst. assumption. }
      eapply mares_iconhd_read_exact in Ha as [L4 A4]; [|lia|lia].
      eapply mares_iconhd_read_exact in Ht as [L5 A5]; [|lia|lia].
      repeat split; lia. }
    intro Hwhole.
    unfold mares_iconhd_write in Hw.
    apply (mares_iconhd_write_loop_frames E fuel Hwhole) in Hw; [|lia].
    destruct Hw as (_ & sent1 & Hf1 & Hcat1 & _).
    rewrite Z.sub_0_r in Hcat1.
    assert (Hsecond : exists sent2,
              frames_written E (world d2) sent2 (world d3) /\
              concat sent2 = slice command 2 (csize - 2)).
    { unfold packet_payload in Hp. destruct (csize >? 2) eqn:Hc2.
      - unfold mares_iconhd_write in Hp.
        apply (mares_iconhd_write_loop_frames E fuel Hwhole) in Hp; [|lia].
        destruct Hp as (_ & sent2 & Hf2 & Hcat2 & _).
        rewrite Z.sub_0_r in Hcat2.
        exists sent2. split; [exact Hf2|]. rewrite Hcat2. apply (slice_skipn command 2).
      - zbool. inversion Hp; subst. exists []. split; [constructor|].
        cbn [concat]. symmetry. apply slice_empty. lia. }
    destruct Hsecond as (sent2 & Hf2 & Hcat2).
    exists sent1, sent2. repeat split; assumption.
Qed.

End PacketFacts.

(** ** Exchanges and memory reads *)

Section ExchangeFacts.

Context {W : Type} (E : Env W).

Local Abbreviation device := (mares_iconhd_device_t W).

Lemma same_session_refl (d : device) : same_session d d.
Proof. repeat split. Qed.

Lemma same_session_trans (d1 d2 d3 : device) :
  same_session d1 d2 -> same_session d2 d3 -> same_session d1 d3.
Proof.
  intros (A1 & A2 & A3 & A4 & A5) (B1 & B2 & B3 & B4 & B5).
  repeat split; congruence.
Qed.

Lemma mares_iconhd_read_loop_same (n : nat) :
  forall transport rc (d : device) data nbytes size rc' data' d',
    mares_iconhd_read_loop E n transport rc d data nbytes size = Ret (rc', data', d') ->
    same_session d d'.
Proof.
  induction n as [|n IH]; intros transport rc d data nbytes size rc' data' d' H;
    cbn [mares_iconhd_read_loop] in H; destruct (nbytes <? size);
    try discriminate H; try (inversion H; subst; apply same_session_refl).
  destruct transport.
  - destruct (dc_iostream_read E (world d) _) as [[rc1 bs] w1].
    destruct (status_eqb rc1 DC_STATUS_SUCCESS).
    + apply IH in H. eapply same_session_trans; [|exact H]. repeat split.
    + inversion H; subst. repeat split.
  - destruct (available d =? 0).
    + destruct (dc_iostream_read E (world d) 20) as [[rc1 bs] w1].
      destruct (status_eqb rc1 DC_STATUS_SUCCESS).
      * cbv zeta in H. apply IH in H. eapply same_session_trans; [|exact H]. repeat split.
      * inversion H; subst. repeat split.
    + cbv zeta in H. apply IH in H. eapply same_session_trans; [|exact H]. repeat split.
Qed.

Lemma mares_iconhd_write_loop_same (n : nat) :
  forall transport rc (d : device) data nbytes size rc' d',
    mares_iconhd_write_loop E n transport rc d data nbytes size = Ret (rc', d') ->
    same_session d d'.
Proof.
  induction n as [|n IH]; intros transport rc d data nbytes size rc' d' H;
    cbn [mares_iconhd_write_loop] in H; destruct (nbytes <? size);
    try discriminate H; try (inversion H; subst; apply same_session_refl).
  destruct (dc_iostream_write E (world d) _) as [[rc1 len] w1].
  destruct (status_eqb rc1 DC_STATUS_SUCCESS).
  - apply IH in H. eapply same_session_trans; [|exact H]. repeat split.
  - inversion H; subst. repeat split.
Qed.

(** The steps of an exchange that succeeded. *)
Lemma mares_iconhd_packet_success (fuel : nat) (d d' : device)
    (command : list byte) (csize asize : Z) (answer : list byte) :
  mares_iconhd_packet E fuel d command csize asize = Ret (DC_STATUS_SUCCESS, answer, d') ->
  exists d1 header d2 d3 d4 trailer,
    mares_iconhd_write E fuel d command 2 = Ret (DC_STATUS_SUCCESS, d1) /\
    mares_iconhd_read E fuel d1 1 = Ret (DC_STATUS_SUCCESS, header, d2) /\
    packet_payload E fuel d2 command csize = Ret (DC_STATUS_SUCCESS, d3) /\
    mares_iconhd_read E fuel d3 asize = Ret (DC_STATUS_SUCCESS, answer, d4) /\
    mares_iconhd_read E fuel d4 1 = Ret (DC_STATUS_SUCCESS, trailer, d').
Proof.
  unfold mares_iconhd_packet. intro H.
  destruct (csize <? 2); [discriminate H|].
  destruct (device_is_cancelled E (world d)); [discriminate H|].
  destruct (mares_iconhd_write E fuel d command 2) as [[s1 d1]| |] eqn:Hw;
    cbn [bind] in H; try discriminate H.
  destruct (status_eqb s1 DC_STATUS_SUCCESS) eqn:Hs1; cbn [negb] in H;
    [|inversion H; subst; discriminate Hs1].
  apply status_eqb_eq in Hs1. subst s1.
  destruct (mares_iconhd_read E fuel d1 1) as [[[s2 header] d2]| |] eqn:Hr;
    cbn [bind] in H; try discriminate H.
  destruct (status_eqb s2 DC_STATUS_SUCCESS) eqn:Hs2; cbn [negb] in H;
    [|inversion H; subst; discriminate Hs2].
  apply status_eqb_eq in Hs2. subst s2.
  destruct (u8 (nth 0 header x00) =? ACK); cbn [negb] in H; [|discriminate H].
  fold (packet_payload E fuel d2 command csize) in H.
  destruct (packet_payload E fuel d2 command csize) as [[s3 d3]| |] eqn:Hp;
    cbn [bind] in H; try discriminate H.
  destruct (status_eqb s3 DC_STATUS_SUCCESS) eqn:Hs3; cbn [negb] in H;
    [|inversion H; subst; discriminate Hs3].
  apply status_eqb_eq in Hs3. subst s3.
  destruct (mares_iconhd_read E fuel d3 asize) as [[[s4 ans] d4]| |] eqn:Ha;
    cbn [bind] in H; try discriminate H.
  destruct (status_eqb s4 DC_STATUS_SUCCESS) eqn:Hs4; cbn [negb] in H;
    [|inversion H; subst; discriminate Hs4].
  apply status_eqb_eq in Hs4. subst s4.
  destruct (mares_iconhd_read E fuel d4 1) as [[[s5 trailer] d5]| |] eqn:Ht;
    cbn [bind] in H; try discriminate H.
  destruct (status_eqb s5 DC_STATUS_SUCCESS) eqn:Hs5; cbn [negb] in H;
    [|inversion H; subst; discriminate Hs5].
  apply status_eqb_eq in Hs5. subst s5.
  destruct (u8 (nth 0 trailer x00) =? EOF); cbn [negb] in H; [|discriminate H].
  inversion H; subst.
  exists d1, header, d2, d3, d4, trailer. repeat split; assumption.
Qed.

Lemma packet_payload_same (fuel : nat) (d d' : device) command csize rc :
  packet_payload E fuel d command csize = Ret (rc, d') ->
  same_session d d' /\ available d' = available d.
Proof.
  unfold packet_payload. destruct (csize >? 2); intro H.
  - split; [eapply mares_iconhd_write_loop_same; exact H
           | eapply mares_iconhd_write_cache; exact H].
  - inversion H; subst. split; [apply same_session_refl | reflexivity].
Qed.

(** A successful exchange hands back exactly [asize] answer bytes and
    leaves the session as it was but for the world and the cache. *)
Lemma mares_iconhd_packet_answer (fuel : nat) (d d' : device)
    (command : list byte) (csize asize : Z) (answer : list byte) :
  0 <= available d -> 0 <= asize ->
  mares_iconhd_packet E fuel d command csize asize = Ret (DC_STATUS_SUCCESS, answer, d') ->
  Z.of_nat (length answer) = asize /\ 0 <= available d' /\ same_session d d'.
Proof.
  intros Ha Hs H. apply mares_iconhd_packet_success in H.
  destruct H as (d1 & header & d2 & d3 & d4 & trailer & Hw & Hr & Hp & Hans & Ht).
  pose proof (mares_iconhd_write_loop_same _ _ _ _ _ _ _ _ _ Hw) as S1.
  pose proof (mares_iconhd_read_loop_same _ _ _ _ _ _ _ _ _ _ Hr) as S2.
  pose proof (packet_payload_same _ _ _ _ _ _ Hp) as [S3 A3].
  pose proof (mares_iconhd_read_loop_same _ _ _ _ _ _ _ _ _ _ Hans) as S4.
  pose proof (mares_iconhd_read_loop_same _ _ _ _ _ _ _ _ _ _ Ht) as S5.
  apply mares_iconhd_write_cache in Hw.
  eapply mares_iconhd_read_exact in Hr as [_ A2]; [|lia|lia].
  eapply mares_iconhd_read_exact in Hans as [L4 A4]; [|lia|lia].
  eapply mares_iconhd_read_exact in Ht as [_ A5]; [|lia|lia].
  split; [exact L4|]. split; [exact A5|].
  eauto using same_session_trans.
Qed.

Lemma mares_iconhd_read_loop_available (n : nat) :
  forall transport rc (d : device) data nbytes size rc' data' d',
    0 <= available d ->
    mares_iconhd_read_loop E n transport rc d data nbytes size = Ret (rc', data', d') ->
    0 <= available d'.
Proof.
  induction n as [|n IH]; intros transport rc d data nbytes size rc' data' d' Ha H;
    cbn [mares_iconhd_read_loop] in H; destruct (nbytes <? size) eqn:Hlt;
    try discriminate H; try (inversion H; subst; exact Ha).
  apply Z.ltb_lt in Hlt. destruct transport.
  - destruct (dc_iostream_read E (world d) _) as [[rc1 bs] w1].
    destruct (status_eqb rc1 DC_STATUS_SUCCESS).
    + apply IH in H; [exact H | exact Ha].
    + inversion H; subst. exact Ha.
  - destruct (available d =? 0) eqn:Hav.
    + destruct (dc_iostream_read E (world d) 20) as [[rc1 bs] w1].
      destruct (status_eqb rc1 DC_STATUS_SUCCESS).
      * cbv zeta in H. apply IH in H; [exact H|].
        cbn [available set_cache set_world].
        destruct (nbytes + Z.of_nat (length (firstn 20 bs)) >? size) eqn:Hc; zbool; lia.
      * inversion H; subst. exact Ha.
    + cbv zeta in H. apply IH in H; [exact H|].
      cbn [available set_cache set_world].
      destruct (nbytes + available d >? size) eqn:Hc; zbool; lia.
Qed.

(** Whatever its outcome, an exchange leaves the session as it was but
    for the world and the cache, and the cache count stays a count. *)
Lemma mares_iconhd_packet_session (fuel : nat) (d d' : device)
    (command : list byte) (csize asize : Z) rc (answer : list byte) :
  0 <= available d ->
  mares_iconhd_packet E fuel d command csize asize = Ret (rc, answer, d') ->
  same_session d d' /\ 0 <= available d'.
Proof.
  unfold mares_iconhd_packet. intros Ha H.
  destruct (csize <? 2); [discriminate H|].
  destruct (device_is_cancelled E (world d));
    [inversion H; subst; split; [apply same_session_refl | exact Ha]|].
  destruct (mares_iconhd_write E fuel d command 2) as [[s1 d1]| |] eqn:Hw;
    cbn [bind] in H; try discriminate H.
  pose proof (mares_iconhd_write_loop_same _ _ _ _ _ _ _ _ _ Hw) as S1.
  apply mares_iconhd_write_cache in Hw.
  destruct (negb (status_eqb s1 DC_STATUS_SUCCESS));
    [inversion H; subst; split; [exact S1 | lia]|].
  destruct (mares_iconhd_read E fuel d1 1) as [[[s2 header] d2]| |] eqn:Hr;
    cbn [bind] in H; try discriminate H.
  pose proof (mares_iconhd_read_loop_same _ _ _ _ _ _ _ _ _ _ Hr) as S2.
  apply mares_iconhd_read_loop_available in Hr; [|lia].
  pose proof (same_session_trans _ _ _ S1 S2) as S12.
  destruct (status_eqb s2 DC_STATUS_SUCCESS) eqn:Hs2; cbn [negb] in H;
    [|inversion H; subst; split; assumption].
  apply status_eqb_eq in Hs2. subst s2.
  destruct (negb (u8 (nth 0 header x00) =? ACK));
    [inversion H; subst; split; assumption|].
  fold (packet_payload E fuel d2 command csize) in H.
  destruct (packet_payload E fuel d2 command csize) as [[s3 d3]| |] eqn:Hp;
    cbn [bind] in H; try discriminate H.
  apply packet_payload_same in Hp as [S3 A3].
  pose proof (same_session_trans _ _ _ S12 S3) as S13.
  destruct (negb (status_eqb s3 DC_STATUS_SUCCESS));
    [inversion H; subst; split; [assumption | lia]|].
  destruct (mares_iconhd_read E fuel d3 asize) as [[[s4 ans] d4]| |] eqn:Hans;
    cbn [bind] in H; try discriminate H.
  pose proof (mares_iconhd_read_loop_same _ _ _ _ _ _ _ _ _ _ Hans) as S4.
  apply mares_iconhd_read_loop_available in Hans; [|lia].
  pose proof (same_session_trans _ _ _ S13 S4) as S14.
  destruct (negb (status_eqb s4 DC_STATUS_SUCCESS));
    [inversion H; subst; split; assumption|].
  destruct (mares_iconhd_read E fuel d4 1) as [[[s5 trailer] d5]| |] eqn:Ht;
    cbn [bind] in H; try discriminate H.
  pose proof (mares_iconhd_read_loop_same _ _ _ _ _ _ _ _ _ _ Ht) as S5.
  apply mares_iconhd_read_loop_available in Ht; [|lia].
  pose proof (same_session_trans _ _ _ S14 S5) as S15.
  destruct (negb (status_eqb s5 DC_STATUS_SUCCESS));
    [inversion H; subst; split; assumption|].
  destruct (negb (u8 (nth 0 trailer x00) =? EOF));
    inversion H; subst; split; assumption.
Qed.

Lemma mares_iconhd_transfer_loop_session (n : nat) :
  forall fuel (d d' : device) command csize asize nretries rc answer,
    0 <= available d ->
    mares_iconhd_transfer_loop E n fuel d command csize asize nretries
      = Ret (rc, answer, d') ->
    same_session d d' /\ 0 <= available d' /\
    (rc = DC_STATUS_SUCCESS -> 0 <= asize -> Z.of_nat (length answer) = asize).
Proof.
  induction n as [|n IH];
    intros fuel d d' command csize asize nretries rc0 answer Ha H;
    [discriminate H|].
  cbn [mares_iconhd_transfer_loop] in H.
  destruct (mares_iconhd_packet E fuel d command csize asize) as [[[rc a] d1]| |] eqn:Hp;
    cbn [bind] in H; try discriminate H.
  destruct (mares_iconhd_packet_session _ _ _ _ _ _ _ _ Ha Hp) as [S1 A1].
  destruct (status_eqb rc DC_STATUS_SUCCESS) eqn:Hrc.
  - apply status_eqb_eq in Hrc. subst rc. inversion H; subst.
    split; [exact S1|]. split; [exact A1|]. intros _ Hs.
    destruct (mares_iconhd_packet_answer _ _ _ _ _ _ _ Ha Hs Hp) as [L _]. exact L.
  - destruct (negb (status_eqb rc DC_STATUS_PROTOCOL) && negb (status_eqb rc DC_STATUS_TIMEOUT)).
    { inversion H; subst. split; [exact S1|]. split; [exact A1|].
      intro Hx. rewrite Hx in Hrc. discriminate Hrc. }
    destruct (nretries >=? MAXRETRIES).
    { inversion H; subst. split; [exact S1|]. split; [exact A1|].
      intro Hx. rewrite Hx in Hrc. discriminate Hrc. }
    apply IH in H; [|exact A1].
    destruct H as (S2 & A2 & L2).
    split; [|split; assumption].
    eapply same_session_trans; [exact S1|].
    eapply same_session_trans; [|exact S2]. repeat split.
Qed.

End ExchangeFacts.

(** ** The memory reader *)

Lemma u8_byte_of_Z (z : Z) : u8 (byte_of_Z z) = z mod 256.
Proof.
  unfold u8, byte_of_Z.
  assert (Hr : 0 <= z mod 256 < 256) by (apply Z.mod_pos_bound; lia).
  destruct (Byte.of_N (Z.to_N (z mod 256))) as [b|] eqn:Hb.
  - apply Byte.to_of_N in Hb. rewrite Hb. lia.
  - apply Byte.of_N_None_iff in Hb. lia.
Qed.
Lemma le32_split (z : Z) :
  0 <= z < 2 ^ 32 ->
  z mod 256 + (z / 256) mod 256 * 256 + (z / 65536) mod 256 * 65536
   + (z / 16777216) mod 256 * 16777216 = z.
Proof.
  intro H. change (2 ^ 32) with 4294967296 in H.
  assert (H1 : z = 256 * (z / 256) + z mod 256) by (apply Z.div_mod; lia).
  assert (H2 : z / 256 = 256 * (z / 256 / 256) + (z / 256) mod 256) by (apply Z.div_mod; lia).
  assert (H3 : z / 65536 = 256 * (z / 65536 / 256) + (z / 65536) mod 256) by (apply Z.div_mod; lia).
  rewrite (Z.div_div z 256 256) in H2 by lia.
  rewrite (Z.div_div z 65536 256) in H3 by lia.
  change (256 * 256) with 65536 in H2. change (65536 * 256) with 16777216 in H3.
  assert (H4 : 0 <= z / 16777216 < 256).
  { split; [apply Z.div_pos; lia | apply Z.div_lt_upper_bound; lia]. }
  rewrite (Z.mod_small (z / 16777216) 256) by exact H4.
  lia.
Qed.

(** The four bytes the reader writes for a 32-bit value decode to it. *)
Lemma le32_bytes (z : Z) :
  0 <= z < 2 ^ 32 ->
  u8 (byte_of_Z (Z.land z 0xFF))
  + Z.shiftl (u8 (byte_of_Z (Z.land (Z.shiftr z 8) 0xFF))) 8
  + Z.shiftl (u8 (byte_of_Z (Z.land (Z.shiftr z 16) 0xFF))) 16
  + Z.shiftl (u8 (byte_of_Z (Z.land (Z.shiftr z 24) 0xFF))) 24 = z.
Proof.
  intro H. rewrite !u8_byte_of_Z.
  change 0xFF with (Z.ones 8). rewrite !Z.land_ones by lia.
  rewrite !Z.shiftr_div_pow2, !Z.shiftl_mul_pow2 by lia.
  rewrite !Z.mod_mod by lia.
  change (2 ^ 8) with 256. change (2 ^ 16) with 65536. change (2 ^ 24) with 16777216.
  apply le32_split. exact H.
Qed.

Section ReaderFacts.

Context {W : Type} (E : Env W).

Local Abbreviation device := (mares_iconhd_device_t W).

Lemma mares_iconhd_device_read_loop_length (n : nat) :
  forall fuel rc (d : device) address data nbytes size rc' data' d',
    0 <= available d -> 0 <= packetsize d ->
    Z.of_nat (length data) = nbytes -> nbytes <= size -> size < 2 ^ 32 ->
    mares_iconhd_device_read_loop E n fuel rc d address data nbytes size
      = Ret (rc', data', d') ->
    same_session d d' /\ 0 <= available d' /\
    (rc' = DC_STATUS_SUCCESS -> Z.of_nat (length data') = size).
Proof.
  assert (Hexit : forall rc (d : device) data nbytes size rc' data' d',
            0 <= available d -> Z.of_nat (length data) = nbytes -> nbytes <= size ->
            size <= nbytes ->
            @Ret (dc_status_t * list byte * device) (rc, data, d) = Ret (rc', data', d') ->
            same_session d d' /\ 0 <= available d' /\
            (rc' = DC_STATUS_SUCCESS -> Z.of_nat (length data') = size)).
  { intros rc d data nbytes size rc' data' d' Ha Hl Hn Hge H.
    inversion H; subst. split; [apply same_session_refl|]. split; [exact Ha|].
    intros _. lia. }
  induction n as [|n IH];
    intros fuel rc d address data nbytes size rc' data' d' Ha Hp Hl Hn Hs H;
    cbn [mares_iconhd_device_read_loop] in H;
    destruct (nbytes <? size) eqn:Hlt; zbool;
    [ discriminate H
    | eapply Hexit; [exact Ha | exact Hl | exact Hn | lia | exact H]
    |
    | eapply Hexit; [exact Ha | exact Hl | exact Hn | lia | exact H] ].
  assert (Hnn : 0 <= nbytes) by lia.
  rewrite (u32_small (size - nbytes)) in H by lia.
  set (len := if size - nbytes >? packetsize d then packetsize d else size - nbytes) in *.
  assert (Hlen : 0 <= len <= size - nbytes).
  { subst len. destruct (size - nbytes >? packetsize d) eqn:Hg; zbool; lia. }
  match type of H with
  | bind (mares_iconhd_transfer E fuel d ?c 10 len) _ = _ => set (command := c) in *
  end.
  unfold mares_iconhd_transfer in H.
  destruct (mares_iconhd_transfer_loop E (S (Z.to_nat MAXRETRIES)) fuel d command 10 len 0)
    as [[[rc1 answer] d1]| |] eqn:Ht; cbn [bind] in H; try discriminate H.
  apply mares_iconhd_transfer_loop_session in Ht; [|exact Ha].
  destruct Ht as (S1 & A1 & L1).
  destruct (status_eqb rc1 DC_STATUS_SUCCESS) eqn:Hrc; cbn [negb] in H.
  - apply status_eqb_eq in Hrc. subst rc1.
    specialize (L1 eq_refl ltac:(lia)).
    rewrite (u32_small (nbytes + len)) in H by lia.
    apply IH in H.
    + destruct H as (S2 & A2 & L2). split; [|split; assumption].
      eapply same_session_trans; eassumption.
    + exact A1.
    + destruct S1 as (_ & _ & _ & _ & P1). rewrite P1. exact Hp.
    + rewrite length_app, Nat2Z.inj_add. lia.
    + lia.
    + exact Hs.
  - inversion H; subst. split; [exact S1|]. split; [exact A1|].
    intro Hx. rewrite Hx in Hrc. discriminate Hrc.
Qed.

(** X6: whatever its outcome, a command exchange with retries writes
    to nothing of the session but the transport and the receive cache:
    the layout, the fingerprint, the model and the packet size are kept
    and the count of cached bytes stays a count; an exchange that
    succeeds hands back exactly the [asize] answer bytes asked for.
    Nothing is said of the version blob: the answer goes where the
    caller points, and [open] points at the version blob. *)
Theorem transfer_keeps_session (fuel : nat) (d d' : device)
    (command : list byte) (csize asize : Z) (rc : dc_status_t) (answer : list byte) :
  0 <= available d ->
  mares_iconhd_transfer E fuel d command csize asize = Ret (rc, answer, d') ->
  layout d' = layout d /\ fingerprint d' = fingerprint d /\
  model d' = model d /\ packetsize d' = packetsize d /\
  0 <= available d' /\
  (rc = DC_STATUS_SUCCESS -> 0 <= asize -> Z.of_nat (length answer) = asize).
Proof.
  intros Ha H. unfold mares_iconhd_transfer in H.
  apply mares_iconhd_transfer_loop_session in H; [|exact Ha].
  destruct H as ((Hl & Hf & _ & Hm & Hp) & Hav & Hlen).
  split; [exact Hl|]. split; [exact Hf|]. split; [exact Hm|]. split; [exact Hp|].
  split; [exact Hav | exact Hlen].
Qed.

(** X7: a memory read of [size] bytes that succeeds hands back exactly
    [size] bytes, however many commands of at most [packetsize] bytes it
    took, and whatever its outcome it keeps the identity of the
    session. *)
Theorem device_read_length (fuel : nat) (d d' : device) (address size : Z)
    (rc : dc_status_t) (data : list byte) :
  0 <= available d -> 0 <= packetsize d -> 0 <= size < 2 ^ 32 ->
  mares_iconhd_device_read E fuel d address size = Ret (rc, data, d') ->
  same_session d d' /\ 0 <= available d' /\
  (rc = DC_STATUS_SUCCESS -> Z.of_nat (length data) = size).
Proof.
  intros Ha Hp Hs H. unfold mares_iconhd_device_read in H.
  eapply mares_iconhd_device_read_loop_length in H;
    [exact H | exact Ha | exact Hp | reflexivity | lia | lia].
Qed.

(** X8: a memory read that fits one packet is one exchange: the
    command is ten bytes, 0xE7 0x42 followed by the address and the
    length as 32-bit little-endian fields, fields that decode back to
    the address and the size asked for; the answer and the status of
    the read are those of the exchange. *)
Theorem device_read_single (n : nat) (d : device) (address size : Z) :
  0 <= address < 2 ^ 32 -> 0 < size <= packetsize d -> size < 2 ^ 32 ->
  exists command,
    length command = 10%nat /\
    firstn 2 command = [xe7; x42] /\
    array_uint32_le (of_list command) 2 = address /\
    array_uint32_le (of_list command) 6 = size /\
    mares_iconhd_device_read E (S n) d address size =
      mares_iconhd_transfer E (S n) d command 10 size.
Proof.
  intros Haddr Hsize Hs.
  unfold mares_iconhd_device_read. cbn [mares_iconhd_device_read_loop].
  replace (0 <? size) with true by (symmetry; apply Z.ltb_lt; lia).
  rewrite Z.sub_0_r, (u32_small size) by lia.
  replace (size >? packetsize d) with false by (symmetry; zbool; lia).
  match goal with
  | |- context [mares_iconhd_transfer E (S n) d ?c 10 size] =>
    set (command := c); exists command
  end.
  split; [reflexivity|]. split; [reflexivity|].
  split; [unfold array_uint32_le, of_list; cbn; apply le32_bytes; exact Haddr|].
  split; [unfold array_uint32_le, of_list; cbn; apply le32_bytes; lia|].
  clearbody command.
  generalize (mares_iconhd_transfer E (S n) d command 10 size). intros [[[rc answer] d1]| |].
  - cbn [bind].
    destruct (status_eqb rc DC_STATUS_SUCCESS) eqn:Hrc; cbn [negb]; [|reflexivity].
    rewrite Z.add_0_l, (u32_small size) by lia.
    destruct n; cbn [mares_iconhd_device_read_loop]; rewrite Z.ltb_irrefl; reflexivity.
  - reflexivity.
  - reflexivity.
Qed.

End ReaderFacts.

(** ** A cancelled session *)

Section CancelFacts.

Context {W : Type} (E : Env W).

Local Abbreviation device := (mares_iconhd_device_t W).

Lemma cancelled_transfer (fuel : nat) (d : device) (command : list byte) (csize asize : Z) :
  2 <= csize -> device_is_cancelled E (world d) = true ->
  mares_iconhd_transfer E fuel d command csize asize = Ret (DC_STATUS_CANCELLED, [], d).
Proof.
  intros Hc Hx. unfold mares_iconhd_transfer. cbn [mares_iconhd_transfer_loop].
  unfold mares_iconhd_packet.
  replace (csize <? 2) with false by (symmetry; apply Z.ltb_ge; exact Hc).
  rewrite Hx. reflexivity.
Qed.

Lemma cancelled_device_read (n : nat) (d : device) (address size : Z) :
  0 < size -> device_is_cancelled E (world d) = true ->
  mares_iconhd_device_read E (S n) d address size = Ret (DC_STATUS_CANCELLED, [], d).
Proof.
  intros Hs Hx. unfold mares_iconhd_device_read. cbn [mares_iconhd_device_read_loop].
  replace (0 <? size) with true by (symmetry; apply Z.ltb_lt; exact Hs).
  rewrite cancelled_transfer by (assumption || lia). reflexivity.
Qed.

(** X9: once the application has cancelled, nothing is exchanged with
    the dive computer any more: a command exchange and a memory read
    come back with DC_STATUS_CANCELLED, no data and the session
    untouched, without a retry, and, as events do not clear the
    cancellation, so does the enumeration, after its first progress
    event and its vendor event, with no dive handed over. *)
Theorem cancelled_session (n : nat) (d : device) (l : mares_iconhd_layout_t)
    (callback : option (dc_dive_callback_t W)) :
  (forall w e, device_is_cancelled E (device_event_emit E w e) = device_is_cancelled E w) ->
  device_is_cancelled E (world d) = true ->
  dc_device_isinstance E (world d) = true ->
  layout d = Some l ->
  (forall command csize asize, 2 <= csize ->
     mares_iconhd_transfer E n d command csize asize = Ret (DC_STATUS_CANCELLED, [], d)) /\
  (forall address size, 0 < size ->
     mares_iconhd_device_read E (S n) d address size = Ret (DC_STATUS_CANCELLED, [], d)) /\
  mares_iconhd_device_foreach E (S n) d callback =
    Ret (DC_STATUS_CANCELLED,
         emit E (emit E d (DC_EVENT_PROGRESS
                   {| current := current (EVENT_PROGRESS_INITIALIZER E);
                      maximum := u32 (rb_profile_end l - rb_profile_begin l + 4) |}))
                (DC_EVENT_VENDOR (version d) 140),
         []).
Proof.
  intros Hkeep Hx Hi Hl.
  split; [intros; apply cancelled_transfer; assumption|].
  split; [intros; apply cancelled_device_read; assumption|].
  unfold mares_iconhd_device_foreach. rewrite Hi, Hl. cbn [negb].
  rewrite cancelled_device_read.
  - reflexivity.
  - lia.
  - unfold emit. cbn [world set_world]. rewrite !Hkeep. exact Hx.
Qed.

End CancelFacts.

(** ** The opened session *)

Section OpenFacts.

Context {W : Type} (E : Env W).

Local Abbreviation device := (mares_iconhd_device_t W).

Lemma set_identity_session (d : device) (m : Z) (l : mares_iconhd_layout_t) (ps : Z) :
  let d' := set_identity d m l ps in
  world d' = world d /\ fingerprint d' = fingerprint d /\ version d' = version d /\
  available d' = available d /\ layout d' = Some l /\ packetsize d' = ps /\ model d' = m.
Proof. repeat split. Qed.

(** X10: [open] hands back a session exactly when it succeeds.  The
    session it hands back holds the world as the call left it, an
    all-zero fingerprint, a version blob of 140 bytes, one of the four
    memory layouts of the file and a packet size of 256 or 4096. *)
Theorem open_session (fuel : nat) (out : bool) (w w' : W)
    (rc : dc_status_t) (od : option device) :
  mares_iconhd_device_open E fuel out w = Ret (rc, od, w') ->
  match od with
  | None => rc <> DC_STATUS_SUCCESS
  | Some d =>
    rc = DC_STATUS_SUCCESS /\ out = true /\ world d = w' /\
    fingerprint d = repeat x00 10 /\
    length (version d) = 140%nat /\
    0 <= available d /\
    exists l, layout d = Some l /\
      In l [mares_iconhd_layout; mares_iconhdnet_layout;
            mares_matrix_layout; mares_nemowide2_layout] /\
      (packetsize d = 256 \/ packetsize d = 4096)
  end.
Proof.
  assert (Hfail : forall s, status_eqb s DC_STATUS_SUCCESS = false -> s <> DC_STATUS_SUCCESS).
  { intros s Hs Hx. rewrite Hx in Hs. discriminate Hs. }
  unfold mares_iconhd_device_open.
  destruct out; cbn [negb]; [|intro H; inversion H; subst; discriminate].
  destruct (dc_device_allocate E w); cbn [negb];
    [|intro H; inversion H; subst; discriminate].
  cbn [world].
  destruct (dc_iostream_configure E w) as [s1 w1].
  destruct (status_eqb s1 DC_STATUS_SUCCESS) eqn:H1; cbn [negb];
    [|intro H; inversion H; subst; apply Hfail; exact H1].
  destruct (dc_iostream_set_timeout E w1 1000) as [s2 w2].
  destruct (status_eqb s2 DC_STATUS_SUCCESS) eqn:H2; cbn [negb];
    [|intro H; inversion H; subst; apply Hfail; exact H2].
  destruct (dc_iostream_set_dtr E w2 0) as [s3 w3].
  destruct (status_eqb s3 DC_STATUS_SUCCESS) eqn:H3; cbn [negb];
    [|intro H; inversion H; subst; apply Hfail; exact H3].
  destruct (dc_iostream_set_rts E w3 0) as [s4 w4].
  destruct (status_eqb s4 DC_STATUS_SUCCESS) eqn:H4; cbn [negb];
    [|intro H; inversion H; subst; apply Hfail; exact H4].
  match goal with
  | |- context [mares_iconhd_transfer E fuel ?x ?c 2 140] =>
    set (d0 := x); set (command := c)
  end.
  destruct (mares_iconhd_transfer E fuel d0 command 2 140) as [[[s5 answer] d5]| |] eqn:Ht;
    cbn [bind]; try discriminate.
  destruct (status_eqb s5 DC_STATUS_SUCCESS) eqn:H5; cbn [negb];
    [|intro H; inversion H; subst; apply Hfail; exact H5].
  apply status_eqb_eq in H5. subst s5.
  unfold mares_iconhd_transfer in Ht.
  apply mares_iconhd_transfer_loop_session in Ht; [|cbn; lia].
  destruct Ht as ((_ & Hfp & Hv & _ & _) & Ha & Hlen).
  specialize (Hlen eq_refl ltac:(lia)).
  set (d6 := set_version d5 (answer ++ skipn (length answer) (version d5))).
  assert (H6 : fingerprint d6 = repeat x00 10 /\ length (version d6) = 140%nat /\
               0 <= available d6).
  { split; [exact Hfp|]. split; [|exact Ha].
    subst d6. cbn [version set_version]. rewrite Hv.
    rewrite length_app, length_skipn. cbn [version d0 set_world].
    rewrite repeat_length. lia. }
  destruct H6 as (F6 & V6 & A6).
  set (m := mares_iconhd_get_model d6).
  intro H. inversion H; subst rc od w'. clear H.
  split; [reflexivity|]. split; [reflexivity|]. split; [reflexivity|].
  destruct (m =? MATRIX).
  { split; [exact F6|]. split; [exact V6|]. split; [exact A6|].
    exists mares_matrix_layout. split; [reflexivity|]. split; [cbn [In]; tauto|]. cbn; lia. }
  destruct ((m =? PUCKPRO) || (m =? PUCK2) || (m =? NEMOWIDE2) || (m =? SMART)
            || (m =? SMARTAPNEA) || (m =? QUAD)).
  { split; [exact F6|]. split; [exact V6|]. split; [exact A6|].
    exists mares_nemowide2_layout. split; [reflexivity|]. split; [cbn [In]; tauto|]. cbn; lia. }
  destruct ((m =? QUADAIR) || (m =? SMARTAIR)).
  { split; [exact F6|]. split; [exact V6|]. split; [exact A6|].
    exists mares_iconhdnet_layout. split; [reflexivity|]. split; [cbn [In]; tauto|]. cbn; lia. }
  destruct (m =? ICONHDNET).
  { split; [exact F6|]. split; [exact V6|]. split; [exact A6|].
    exists mares_iconhdnet_layout. split; [reflexivity|]. split; [cbn [In]; tauto|]. cbn; lia. }
  split; [exact F6|]. split; [exact V6|]. split; [exact A6|].
  exists mares_iconhd_layout. split; [reflexivity|]. split; [cbn [In]; tauto|]. cbn; lia.
Qed.

End OpenFacts.

(** ** Termination of the whole enumeration *)

Section Termination.

Context {W : Type} (E : Env W).

Hypothesis Hreads : productive_reads E.
Hypothesis Hwrites : whole_writes E.

Local Abbreviation device := (mares_iconhd_device_t W).

Lemma mares_iconhd_write_loop_returns (n : nat) :
  forall transport rc (d : device) data nbytes size,
    size - nbytes <= Z.of_nat n ->
    exists r, mares_iconhd_write_loop E n transport rc d data nbytes size = Ret r.
Proof.
  induction n as [|n IH]; intros transport rc d data nbytes size Hn;
    cbn [mares_iconhd_write_loop]; destruct (nbytes <? size) eqn:Hlt;
    try (eexists; reflexivity); zbool; [lia|].
  set (len := if nbytes + match transport with
                           | DC_TRANSPORT_BLE => 20
                           | _ => size - nbytes
                           end >? size
              then size - nbytes
              else match transport with
                   | DC_TRANSPORT_BLE => 20
                   | _ => size - nbytes
                   end).
  assert (Hlen : 1 <= len).
  { subst len. destruct transport.
    - destruct (nbytes + (size - nbytes) >? size); lia.
    - destruct (nbytes + 20 >? size); lia. }
  destruct (dc_iostream_write E (world d) (slice data nbytes len))
    as [[rc1 written] w1] eqn:Hw.
  destruct (status_eqb rc1 DC_STATUS_SUCCESS) eqn:Hrc; [|eexists; reflexivity].
  apply status_eqb_eq in Hrc. subst rc1.
  apply Hwrites in Hw. rewrite slice_length in Hw.
  apply IH. lia.
Qed.

Lemma mares_iconhd_packet_returns (fuel : nat) (d : device)
    (command : list byte) (csize asize : Z) :
  0 <= available d -> 2 <= csize <= Z.of_nat fuel -> asize <= Z.of_nat fuel ->
  exists r, mares_iconhd_packet E fuel d command csize asize = Ret r.
Proof.
  intros Ha Hc Hs. unfold mares_iconhd_packet.
  replace (csize <? 2) with false by (symmetry; apply Z.ltb_ge; lia).
  destruct (device_is_cancelled E (world d)); [eexists; reflexivity|].
  destruct (mares_iconhd_write_loop_returns fuel
              (dc_iostream_get_transport E (world d)) DC_STATUS_SUCCESS d command 0 2
              ltac:(lia)) as [[s1 d1] Hw].
  fold (mares_iconhd_write E fuel d command 2) in Hw. rewrite Hw. cbn [bind].
  apply mares_iconhd_write_cache in Hw.
  destruct (status_eqb s1 DC_STATUS_SUCCESS) eqn:Hs1; cbn [negb]; [|eexists; reflexivity].
  destruct (mares_iconhd_read_loop_returns E fuel Hreads
              (dc_iostream_get_transport E (world d1)) DC_STATUS_SUCCESS d1 [] 0 1
              ltac:(lia) ltac:(lia)) as [[[s2 header] d2] Hr].
  fold (mares_iconhd_read E fuel d1 1) in Hr. rewrite Hr. cbn [bind].
  apply mares_iconhd_read_loop_available in Hr; [|lia].
  destruct (status_eqb s2 DC_STATUS_SUCCESS) eqn:Hs2; cbn [negb]; [|eexists; reflexivity].
  apply status_eqb_eq in Hs2. subst s2.
  destruct (negb (u8 (nth 0 header x00) =? ACK)); [eexists; reflexivity|].
  fold (packet_payload E fuel d2 command csize).
  assert (Hp : exists r, packet_payload E fuel d2 command csize = Ret r).
  { unfold packet_payload. destruct (csize >? 2); [|eexists; reflexivity].
    apply mares_iconhd_write_loop_returns. lia. }
  destruct Hp as [[s3 d3] Hp]. rewrite Hp. cbn [bind].
  apply packet_payload_same in Hp as [_ A3].
  destruct (negb (status_eqb s3 DC_STATUS_SUCCESS)); [eexists; reflexivity|].
  destruct (mares_iconhd_read_loop_returns E fuel Hreads
              (dc_iostream_get_transport E (world d3)) DC_STATUS_SUCCESS d3 [] 0 asize
              ltac:(lia) ltac:(lia)) as [[[s4 answer] d4] Hans].
  fold (mares_iconhd_read E fuel d3 asize) in Hans. rewrite Hans. cbn [bind].
  apply mares_iconhd_read_loop_available in Hans; [|lia].
  destruct (negb (status_eqb s4 DC_STATUS_SUCCESS)); [eexists; reflexivity|].
  destruct (mares_iconhd_read_loop_returns E fuel Hreads
              (dc_iostream_get_transport E (world d4)) DC_STATUS_SUCCESS d4 [] 0 1
              ltac:(lia) ltac:(lia)) as [[[s5 trailer] d5] Ht].
  fold (mares_iconhd_read E fuel d4 1) in Ht. rewrite Ht. cbn [bind].
  destruct (negb (status_eqb s5 DC_STATUS_SUCCESS)); [eexists; reflexivity|].
  destruct (negb (u8 (nth 0 trailer x00) =? EOF)); eexists; reflexivity.
Qed.

Lemma mares_iconhd_transfer_loop_ends (n : nat) :
  forall fuel (d : device) command csize asize nretries,
    0 <= available d -> 2 <= csize <= Z.of_nat fuel -> asize <= Z.of_nat fuel ->
    0 <= nretries -> (0 < n)%nat -> MAXRETRIES - nretries < Z.of_nat n ->
    exists r, mares_iconhd_transfer_loop E n fuel d command csize asize nretries = Ret r.
Proof.
  induction n as [|n IH]; intros fuel d command csize asize nretries Ha Hc Hs H0 Hpos Hn;
    [lia|].
  cbn [mares_iconhd_transfer_loop].
  destruct (mares_iconhd_packet_returns fuel d command csize asize Ha Hc Hs)
    as [[[rc a] d1] Hp].
  rewrite Hp. cbn [bind].
  apply mares_iconhd_packet_session in Hp as [_ A1]; [|exact Ha].
  destruct (status_eqb rc DC_STATUS_SUCCESS); [eexists; reflexivity|].
  destruct (_ && _); [eexists; reflexivity|].
  destruct (nretries >=? MAXRETRIES) eqn:Hm; [eexists; reflexivity|].
  zbool. unfold MAXRETRIES in *. apply IH; try assumption; try lia.
Qed.

Lemma mares_iconhd_device_read_loop_ends (n : nat) :
  forall fuel rc (d : device) address data nbytes size,
    0 <= available d -> 0 < packetsize d ->
    10 <= Z.of_nat fuel -> size <= Z.of_nat fuel ->
    0 <= nbytes -> size < 2 ^ 32 -> size - nbytes <= Z.of_nat n ->
    exists r, mares_iconhd_device_read_loop E n fuel rc d address data nbytes size = Ret r.
Proof.
  induction n as [|n IH]; intros fuel rc d address data nbytes size Ha Hp Hf Hsf Hnn Hs Hn;
    cbn [mares_iconhd_device_read_loop]; destruct (nbytes <? size) eqn:Hlt;
    try (eexists; reflexivity); zbool; [lia|].
  rewrite (u32_small (size - nbytes)) by lia.
  set (len := if size - nbytes >? packetsize d then packetsize d else size - nbytes).
  assert (Hlen : 1 <= len <= size - nbytes).
  { subst len. destruct (size - nbytes >? packetsize d) eqn:Hg; zbool; lia. }
  match goal with
  | |- context [mares_iconhd_transfer E fuel d ?c 10 len] => set (command := c)
  end.
  clearbody command.
  unfold mares_iconhd_transfer.
  destruct (mares_iconhd_transfer_loop_ends (S (Z.to_nat MAXRETRIES)) fuel d command 10 len 0
              Ha ltac:(lia) ltac:(lia) ltac:(lia) ltac:(lia) ltac:(reflexivity)) as [[[rc1 answer] d1] Ht].
  rewrite Ht. cbn [bind].
  apply mares_iconhd_transfer_loop_session in Ht; [|exact Ha].
  destruct Ht as ((_ & _ & _ & _ & P1) & A1 & _).
  destruct (negb (status_eqb rc1 DC_STATUS_SUCCESS)); [eexists; reflexivity|].
  rewrite (u32_small (nbytes + len)) by lia.
  apply IH; try assumption; try lia.
Qed.

Lemma mares_iconhd_device_read_ends (fuel : nat) (d : device) (address size : Z) :
  0 <= available d -> 0 < packetsize d ->
  10 <= Z.of_nat fuel -> size <= Z.of_nat fuel -> size < 2 ^ 32 ->
  exists rc data d',
    mares_iconhd_device_read E fuel d address size = Ret (rc, data, d') /\
    same_session d d' /\ 0 <= available d'.
Proof.
  intros Ha Hp Hf Hsf Hs. unfold mares_iconhd_device_read.
  destruct (mares_iconhd_device_read_loop_ends fuel fuel DC_STATUS_SUCCESS d address [] 0 size
              Ha Hp Hf Hsf ltac:(lia) Hs ltac:(lia)) as [[[rc data] d'] H].
  exists rc, data, d'. split; [exact H|].
  destruct (Z.ltb_spec size 0) as [Hneg | Hpos].
  - destruct fuel; cbn [mares_iconhd_device_read_loop] in H;
      replace (0 <? size) with false in H by (symmetry; apply Z.ltb_ge; lia);
      inversion H; subst; split; [apply same_session_refl | exact Ha | apply same_session_refl | exact Ha].
  - eapply mares_iconhd_device_read_loop_length in H;
      [|exact Ha | lia | reflexivity | lia | exact Hs].
    destruct H as (S1 & A1 & _). split; assumption.
Qed.

Lemma foreach_eop_ends (fuel : nat) (config : list Z) :
  forall rc (d : device) progress eop,
    0 <= available d -> 0 < packetsize d -> 10 <= Z.of_nat fuel ->
    exists r, foreach_eop E fuel config rc d progress eop = Ret r.
Proof.
  induction config as [|address config IH]; intros rc d progress eop Ha Hp Hf;
    cbn [foreach_eop]; [eexists; reflexivity|].
  destruct (mares_iconhd_device_read_ends fuel d address 4 Ha Hp Hf ltac:(lia) ltac:(lia))
    as (rc1 & pointer & d1 & Hr & (_ & _ & _ & _ & P1) & A1).
  rewrite Hr. cbn [bind].
  destruct (negb (status_eqb rc1 DC_STATUS_SUCCESS)); [eexists; reflexivity|].
  destruct (negb (array_uint32_le (of_list pointer) 0 =? 0xFFFFFFFF)); [eexists; reflexivity|].
  apply IH; [exact A1 | cbn [emit packetsize set_world]; lia | exact Hf].
Qed.

(** X11: on a transport whose successful reads deliver at least one
    byte and whose successful writes take the whole packet, the
    enumeration of a session with a layout of at most 2^31 ring bytes
    and a packet size above zero comes to an end: the serial number and
    the pointer are read within the retries of their exchanges and the
    loop over the dives moves its offset down at every dive.  On every
    model but the Smart Apnea it ends with a status: nothing it does
    leaves the scratch block. *)
Theorem foreach_returns (fuel : nat) (d : device) (l : mares_iconhd_layout_t)
    (callback : option (dc_dive_callback_t W)) :
  layout d = Some l ->
  0 <= rb_profile_end l - rb_profile_begin l <= 2 ^ 31 ->
  rb_profile_end l - rb_profile_begin l < Z.of_nat fuel -> 10 <= Z.of_nat fuel ->
  0 <= available d -> 0 < packetsize d ->
  mares_iconhd_device_foreach E fuel d callback <> OutOfFuel /\
  (model d <> SMARTAPNEA ->
   exists rc d' calls, mares_iconhd_device_foreach E fuel d callback = Ret (rc, d', calls)).
Proof.
  intros Hl Hsize Hfuel Hf Ha Hp. unfold mares_iconhd_device_foreach.
  destruct (negb (dc_device_isinstance E (world d)));
    [split; [discriminate | intros _; do 3 eexists; reflexivity]|].
  rewrite Hl.
  set (d1 := emit E (emit E d _) _).
  destruct (mares_iconhd_device_read_ends fuel d1 0x0C 4 Ha Hp Hf ltac:(lia) ltac:(lia))
    as (rc1 & serial & d2 & Hr & (_ & _ & _ & M2 & P2) & A2).
  rewrite Hr. cbn [bind].
  destruct (negb (status_eqb rc1 DC_STATUS_SUCCESS));
    [split; [discriminate | intros _; do 3 eexists; reflexivity]|].
  set (progress := {| current := _; maximum := _ |}).
  set (d3 := emit E (emit E d2 _) _).
  assert (M3 : model d3 = model d) by exact M2.
  assert (P3 : 0 < packetsize d3) by (change (0 < packetsize d2); rewrite P2; exact Hp).
  destruct (foreach_eop_ends fuel [0x2001; 0x3001] rc1 d3 progress 0 A2 P3 Hf) as [r He].
  rewrite He. cbn [bind]. rewrite M3.
  destruct r as [[rc2 d4] | [[[rc2 d4] progress4] eop]];
    [split; [discriminate | intros _; do 3 eexists; reflexivity]|].
  destruct ((eop <? rb_profile_begin l) || (eop >=? rb_profile_end l)).
  { destruct (eop =? 0xFFFFFFFF);
      (split; [discriminate | intros _; do 3 eexists; reflexivity]). }
  destruct (dc_rbstream_new E d4 _ _ _ _) as [rc5 d5].
  destruct (negb (status_eqb rc5 DC_STATUS_SUCCESS));
    [split; [discriminate | intros _; do 3 eexists; reflexivity]|].
  rewrite (u32_small (rb_profile_end l - rb_profile_begin l)) by lia.
  destruct (malloc E (world d5) _) as [buffer|];
    [|split; [discriminate | intros _; do 3 eexists; reflexivity]].
  apply foreach_loop_ends; cbn [wk_offset]; lia.
Qed.

End Termination.

Section EnumerationFacts.

Context {W : Type} (E : Env W).

Local Abbreviation device := (mares_iconhd_device_t W).

(** X12: whatever the dive computer, the stream and the callback do,
    every dive the enumeration of a session with a layout of at most
    2^31 ring bytes hands to the callback is well formed: the record
    starts with its own length in 32 bits little-endian, holds at least
    a header of 0x2E bytes, and the 10-byte fingerprint is a slice of
    the record.  Without a callback no dive is handed over. *)
Theorem foreach_dives (fuel : nat) (d d' : device) (l : mares_iconhd_layout_t)
    (callback : option (dc_dive_callback_t W)) (rc : dc_status_t) (calls : list dive_t) :
  layout d = Some l ->
  0 <= rb_profile_end l - rb_profile_begin l <= 2 ^ 31 ->
  mares_iconhd_device_foreach E fuel d callback = Ret (rc, d', calls) ->
  Forall well_formed_dive calls /\ (callback = None -> calls = []).
Proof.
  assert (Hnone : forall (rc0 : dc_status_t) (d0 : device),
            @Ret (dc_status_t * device * list dive_t) (rc0, d0, []) = Ret (rc, d', calls) ->
            Forall well_formed_dive calls /\ (callback = None -> calls = [])).
  { intros rc0 d0 H. inversion H; subst. split; [constructor | reflexivity]. }
  intros Hl Hsize. unfold mares_iconhd_device_foreach.
  destruct (negb (dc_device_isinstance E (world d))); [apply Hnone|].
  rewrite Hl.
  destruct (mares_iconhd_device_read E fuel _ 0x0C 4) as [[[rc1 serial] d2]| |];
    cbn [bind]; try discriminate.
  destruct (negb (status_eqb rc1 DC_STATUS_SUCCESS)); [apply Hnone|].
  destruct (foreach_eop E fuel _ rc1 _ _ 0) as [r| |]; cbn [bind]; try discriminate.
  destruct r as [[rc2 d4] | [[[rc2 d4] progress4] eop]]; [apply Hnone|].
  destruct ((eop <? rb_profile_begin l) || (eop >=? rb_profile_end l)).
  { destruct (eop =? 0xFFFFFFFF); apply Hnone. }
  destruct (dc_rbstream_new E d4 _ _ _ _) as [rc5 d5].
  destruct (negb (status_eqb rc5 DC_STATUS_SUCCESS)); [apply Hnone|].
  rewrite (u32_small (rb_profile_end l - rb_profile_begin l)) by lia.
  destruct (malloc E (world d5) _) as [buffer|]; [|apply Hnone].
  intro H. apply foreach_loop_dives in H; [|lia | cbn [wk_offset]; lia].
  destruct H as (more & Hcalls & Hwf & Hno). cbn [wk_calls app] in Hcalls. subst calls.
  split; assumption.
Qed.

End EnumerationFacts.

(** ** The fingerprint and the name table *)

Section FingerprintFacts.

Context {W : Type} (E : Env W).

Local Abbreviation device := (mares_iconhd_device_t W).

(** X13: the fingerprint [set_fingerprint] has stored is the one the
    enumeration stops at.  In a session that holds the fingerprint
    left by a successful [set_fingerprint], the loop of [foreach] that
    reads a dive whose stored length is right ends with [Success]
    before the callback when the ten fingerprint bytes of the dive in
    the scratch block are the ten bytes given, or ten zero bytes after
    a clear; otherwise it hands the dive to the callback, and goes on or
    ends with [Success] as the callback says. *)
Theorem set_fingerprint_boundary (n : nat) (d d' : device) (data : list byte) (fsize : Z)
    (model size : Z) (callback : option (dc_dive_callback_t W))
    (s : walk_t W) (r : found_t W) :
  let header := foreach_header model in
  let fp := if fsize =? 0 then repeat x00 10 else slice data 0 10 in
  mares_iconhd_device_set_fingerprint d data fsize = (DC_STATUS_SUCCESS, d') ->
  size <= 2 ^ 31 -> header + 4 <= wk_offset s <= size ->
  foreach_read_dive E model header size s = Ret (Found r) ->
  fingerprint (wk_dev (fd_walk r)) = fingerprint d' ->
  array_uint32_le (wk_mem (fd_walk r)) (wk_offset (fd_walk r)) = fd_nbytes r ->
  let dive_fp :=
    bytes_at (wk_mem (fd_walk r))
      (wk_offset (fd_walk r) + fd_nbytes r - fd_headersize r + fd_fingerprint r) 10 in
  let dive := bytes_at (wk_mem (fd_walk r)) (wk_offset (fd_walk r)) (fd_nbytes r) in
  (dive_fp = fp ->
   foreach_loop E (S n) model header size callback s
   = Ret (DC_STATUS_SUCCESS, dc_rbstream_free E (wk_dev (fd_walk r)), wk_calls s)) /\
  (dive_fp <> fp ->
   forall cb go_on w,
     callback = Some cb ->
     cb (world (wk_dev (fd_walk r))) dive dive_fp = (go_on, w) ->
     foreach_loop E (S n) model header size callback s
     = if go_on
       then foreach_loop E n model header size callback
              {| wk_rc := DC_STATUS_SUCCESS;
                 wk_dev := set_world (wk_dev (fd_walk r)) w;
                 wk_progress := wk_progress (fd_walk r);
                 wk_mem := wk_mem (fd_walk r);
                 wk_offset := wk_offset s - fd_nbytes r;
                 wk_calls := wk_calls s ++ [(dive, dive_fp)] |}
       else Ret (DC_STATUS_SUCCESS,
                 dc_rbstream_free E (set_world (wk_dev (fd_walk r)) w),
                 wk_calls s ++ [(dive, dive_fp)])).
Proof.
  intros header fp Hset Hsize Hoff Hread Hfp Hlen dive_fp dive.
  assert (Hh : 4 <= header)
    by (unfold header; destruct (foreach_header_values model) as [X|[X|[X|[X|X]]]]; lia).
  pose proof (foreach_read_dive_bounds E model size s r Hsize ltac:(lia) Hread)
    as (Brc & Bcalls & Boff & Bnb & Bhs & Bfp0 & Bfp).
  assert (Hstored : fingerprint d' = fp).
  { unfold mares_iconhd_device_set_fingerprint in Hset. unfold fp.
    destruct (fsize =? 0) eqn:H0; cbn [negb andb] in Hset.
    - inversion Hset; subst. reflexivity.
    - destruct (negb (fsize =? 10)); inversion Hset; subst. reflexivity. }
  assert (Hslice : slice fp 0 10 = fp) by (unfold fp; destruct (fsize =? 0); reflexivity).
  assert (Htest : memcmp_eq dive_fp (fingerprint (wk_dev (fd_walk r))) 10 = true
                  <-> dive_fp = fp).
  { fold (dive_fingerprint r) in dive_fp. subst dive_fp.
    fold (fingerprint_matches r).
    rewrite fingerprint_matches_spec, Hfp, Hstored, Hslice. reflexivity. }
  assert (Hstep : foreach_loop E (S n) model header size callback s =
            bind (foreach_emit_dive size callback r)
              (fun x => match x with
                        | Continue s' => foreach_loop E n model header size callback s'
                        | Break s' => Ret (wk_rc s', dc_rbstream_free E (wk_dev s'),
                                           wk_calls s')
                        | Return rc0 d0 calls => Ret (rc0, d0, calls)
                        end)).
  { rewrite foreach_loop_step by lia. unfold foreach_iteration.
    fold header. rewrite Hread. reflexivity. }
  rewrite Hstep. clear Hstep.
  unfold foreach_emit_dive, load32, load_bytes.
  replace (in_bounds size (wk_offset (fd_walk r)) 4) with true
    by (symmetry; apply in_bounds_spec; lia).
  cbn [bind]. rewrite Hlen, Z.eqb_refl. cbn [negb].
  replace (in_bounds size (wk_offset (fd_walk r) + fd_nbytes r - fd_headersize r
                           + fd_fingerprint r) 10) with true
    by (symmetry; apply in_bounds_spec; lia).
  cbn [bind]. fold dive_fp.
  split.
  - intro Heq. apply Htest in Heq. rewrite Heq. cbn [bind].
    rewrite Brc, Bcalls. reflexivity.
  - intros Hne cb go_on w Hcb Hcall.
    destruct (memcmp_eq dive_fp (fingerprint (wk_dev (fd_walk r))) 10) eqn:Hm.
    { exfalso. apply Hne. apply Htest. reflexivity. }
    subst callback.
    replace (in_bounds size (wk_offset (fd_walk r)) (fd_nbytes r)) with true
      by (symmetry; apply in_bounds_spec; lia).
    cbn [bind]. fold dive. rewrite Hcall.
    rewrite Brc, Bcalls, Boff.
    destruct go_on; cbn [negb bind wk_rc wk_dev wk_calls]; reflexivity.
Qed.

(** X14: no name of the table is hidden by an earlier one: a version
    blob that carries the 16 NUL-padded bytes of any name of the table
    is given the model number listed with that name. *)
Theorem model_table_reachable (d : device) (name : list byte) (id : Z) :
  In (name, id) models ->
  slice (version d) 0x46 16 = firstn 16 name ->
  mares_iconhd_get_model d = id.
Proof.
  intros Hin Hname. rewrite get_model_detect. unfold detect_model. rewrite Hname.
  cbn [In models] in Hin.
  repeat (destruct Hin as [Hin | Hin]; [inversion Hin; subst; reflexivity|]).
  contradiction.
Qed.

End FingerprintFacts.

(** * Runs on the simulated device *)

(** ** What a run gives *)

Lemma sim_result_triple (A B C : Type) (default : A * B * C) (r : res (A * B * C)) :
  sim_returned r = true ->
  r = Ret (fst (fst (sim_result default r)), snd (fst (sim_result default r)),
           snd (sim_result default r)).
Proof.
  destruct r as [[[a b] c]| |]; intro H; try discriminate H. reflexivity.
Defined.

Lemma sim_result_ok3 (A B : Type) (default : dc_status_t * A * B)
    (r : res (dc_status_t * A * B)) :
  sim_ok3 r = true ->
  r = Ret (DC_STATUS_SUCCESS, snd (fst (sim_result default r)), snd (sim_result default r)).
Proof.
  destruct r as [[[[] a] b]| |]; intro H; try discriminate H. reflexivity.
Defined.

Lemma sim_result_ok2 (A : Type) (default : dc_status_t * A) (r : res (dc_status_t * A)) :
  sim_ok2 r = true ->
  r = Ret (DC_STATUS_SUCCESS, snd (sim_result default r)).
Proof.
  destruct r as [[[] a]| |]; intro H; try discriminate H. reflexivity.
Defined.

Lemma sim_productive_reads : productive_reads sim_env.
Proof.
  intros w n bs w' Hn H. cbn [dc_iostream_read sim_env] in H. unfold sim_read in H.
  destruct (sim_incoming w) as [|[|b burst] rest]; try discriminate H.
  inversion H; subst.
  destruct (Z.to_nat n) as [|k] eqn:Hk; [lia|]. cbn [firstn]. discriminate.
Defined.

Lemma sim_whole_writes : whole_writes sim_env.
Proof.
  intros w bs n w' H. cbn [dc_iostream_write sim_env] in H. unfold sim_write in H.
  inversion H; subst. reflexivity.
Defined.


(** ** The claims on the simulated device *)

(** One good exchange with a command of four bytes. *)
Lemma packet_framing_witness :
  let command := [xe7; x42; x0c; x00] in
  2 <= 4 /\
  device_is_cancelled sim_env (world sim_exchange) = false /\
  exists d',
    mares_iconhd_packet sim_env 8 sim_exchange command 4 4
    = Ret (DC_STATUS_SUCCESS, [x01; x02; x03; x04], d') /\
    sim_sent (world d') = [[xe7; x42]; [x0c; x00]] /\
    exists d1 d2 d3 sent1 sent2,
      frames_written sim_env (world sim_exchange) sent1 (world d1) /\
      concat sent1 = slice command 0 2 /\
      frames_written sim_env (world d2) sent2 (world d3) /\
      concat sent2 = slice command 2 (4 - 2).
Proof.
  intro command.
  split; [lia|]. split; [reflexivity|].
  destruct (@packet_framing _ sim_env 8 sim_exchange command 4 4 ltac:(lia))
    as (_ & H & Hconv).
  edestruct H as [_ H1]; [reflexivity | vm_compute; reflexivity | vm_compute; reflexivity |].
  edestruct H1 as [_ H2];
    [vm_compute; reflexivity | vm_compute; reflexivity | vm_compute; reflexivity
    | vm_compute; reflexivity |].
  assert (Ht : u8 (nth 0 [xea] x00) = 0xEA) by (vm_compute; reflexivity).
  specialize (H2 Ht).
  eexists. split; [exact H2|]. split; [vm_compute; reflexivity|].
  destruct (Hconv _ _ H2)
    as (d1 & header & d2 & d3 & d4 & trailer & _ & _ & _ & _ & _ & _ & _ & _ & _ & Hsent).
  destruct (Hsent sim_whole_writes) as (sent1 & sent2 & F1 & C1 & F2 & C2).
  exists d1, d2, d3, sent1, sent2.
  split; [exact F1|]. split; [exact C1|]. split; [exact F2 | exact C2].
Defined.

Lemma transfer_retry_witness :
  exists d',
    mares_iconhd_transfer sim_env 8 sim_noisy [xc2; x67] 2 4
    = Ret (DC_STATUS_SUCCESS, [x01; x02; x03; x04], d').
Proof.
  destruct (@transfer_retry _ sim_env 8 [xc2; x67] 2 4 sim_noisy) as (H & _).
  eexists. eapply (H 2%nat).
  - lia.
  - eapply retried_more;
      [eapply retried_more; [apply retried_none | vm_compute; reflexivity | left; reflexivity]
      | vm_compute; reflexivity | left; reflexivity].
  - vm_compute. reflexivity.
  - discriminate.
  - discriminate.
Defined.

Lemma model_detection_witness :
  mares_iconhd_device_open sim_env 8 true sim_puck2
    = Ret (DC_STATUS_SUCCESS, Some (sim_opened sim_puck2), world (sim_opened sim_puck2)) /\
  model (sim_opened sim_puck2) = PUCK2 /\
  layout (sim_opened sim_puck2) = Some mares_nemowide2_layout /\
  packetsize (sim_opened sim_puck2) = 256.
Proof.
  assert (Ho : mares_iconhd_device_open sim_env 8 true sim_puck2
               = Ret (DC_STATUS_SUCCESS, Some (sim_opened sim_puck2),
                      world (sim_opened sim_puck2))) by (vm_compute; reflexivity).
  split; [exact Ho|].
  destruct (model_detection sim_env) as [_ H].
  destruct (H 8%nat sim_puck2 _ _ Ho) as [Hp _].
  apply Hp. vm_compute. reflexivity.
Defined.

Lemma sim_record_found (s : walk_t sim_t) :
  sim_found s = true ->
  foreach_read_dive sim_env SMART (foreach_header SMART) 0x36000 s
  = Ret (Found (sim_record s)).
Proof.
  unfold sim_found, sim_record.
  destruct (foreach_read_dive sim_env SMART (foreach_header SMART) 0x36000 s)
    as [[r | s' | rc d] | |]; intro H; try discriminate H; reflexivity.
Defined.

(** One iteration of the walk on the simulated Smart, the callback
    being [sim_accept]. *)
Lemma sim_walked_once (s0 : walk_t sim_t) :
  foreach_header SMART + 4 <= wk_offset s0 ->
  sim_found s0 = true ->
  stored_length (sim_record s0) = fd_nbytes (sim_record s0) ->
  fingerprint_matches (sim_record s0) = false ->
  walked sim_env SMART (foreach_header SMART) 0x36000 sim_accept
    s0 [sim_record s0] (sim_next s0).
Proof.
  intros Hoff Hf Hlen Hfp.
  apply (@walked_more _ sim_env SMART (foreach_header SMART) 0x36000 sim_accept
           s0 [] s0 (sim_record s0) (world (wk_dev (fd_walk (sim_record s0))))).
  - apply walked_none.
  - exact Hoff.
  - apply sim_record_found. exact Hf.
  - exact Hlen.
  - exact Hfp.
  - reflexivity.
Defined.

(** The walk of a Smart ring of three dives in a session whose
    fingerprint is that of the second newest. *)
Lemma fingerprint_boundary_witness :
  let s0 := sim_walk (repeat x02 10) (sim_smart_memory 3 0x20000) in
  let r0 := sim_record s0 in
  let r1 := sim_record (sim_next s0) in
  dive_fingerprint r1 = slice (fingerprint (wk_dev (fd_walk r1))) 0 10 /\
  foreach_loop sim_env (length [r0] + S 6) SMART (foreach_header SMART) 0x36000
    (Some sim_accept) s0
  = Ret (DC_STATUS_SUCCESS, dc_rbstream_free sim_env (wk_dev (fd_walk r1)),
         wk_calls s0 ++ map (@dive_of sim_t) [r0]).
Proof.
  intros s0 r0 r1.
  assert (Hsize : 0x36000 <= 2 ^ 31) by (vm_compute; discriminate).
  assert (H0 : 0 <= wk_offset s0 <= 0x36000) by (vm_compute; split; discriminate).
  assert (Hw : walked sim_env SMART (foreach_header SMART) 0x36000 sim_accept
                 s0 [r0] (sim_next s0)).
  { apply sim_walked_once.
    - vm_compute. discriminate.
    - vm_compute. reflexivity.
    - vm_compute. reflexivity.
    - vm_compute. reflexivity. }
  assert (Hfp : dive_fingerprint r1 = slice (fingerprint (wk_dev (fd_walk r1))) 0 10)
    by (vm_compute; reflexivity).
  split; [exact Hfp|].
  destruct (fingerprint_boundary sim_env 6 SMART 0x36000 sim_accept s0 (sim_next s0)
              [r0] r1 Hsize H0 Hw) as (H & _ & _).
  - vm_compute. discriminate.
  - apply sim_record_found. vm_compute. reflexivity.
  - vm_compute. reflexivity.
  - exact (H Hfp).
Defined.

(** The walk of a Smart ring whose second newest dive declares a length
    other than its own. *)
Lemma length_mismatch_witness :
  let s0 := sim_walk (repeat x00 10) sim_smart_damaged in
  let r0 := sim_record s0 in
  let r1 := sim_record (sim_next s0) in
  stored_length r1 <> fd_nbytes r1 /\
  foreach_loop sim_env (length [r0] + S 6) SMART (foreach_header SMART) 0x36000
    (Some sim_accept) s0
  = Ret (DC_STATUS_SUCCESS, dc_rbstream_free sim_env (wk_dev (fd_walk r1)),
         wk_calls s0 ++ map (@dive_of sim_t) [r0]).
Proof.
  intros s0 r0 r1.
  assert (Hsize : 0x36000 <= 2 ^ 31) by (vm_compute; discriminate).
  assert (H0 : 0 <= wk_offset s0 <= 0x36000) by (vm_compute; split; discriminate).
  assert (Hw : walked sim_env SMART (foreach_header SMART) 0x36000 sim_accept
                 s0 [r0] (sim_next s0)).
  { apply sim_walked_once.
    - vm_compute. discriminate.
    - vm_compute. reflexivity.
    - vm_compute. reflexivity.
    - vm_compute. reflexivity. }
  assert (Hlen : stored_length r1 <> fd_nbytes r1) by (vm_compute; discriminate).
  split; [exact Hlen|].
  apply (length_mismatch sim_env 6 SMART 0x36000 sim_accept s0 (sim_next s0)
           [r0] r1 Hsize H0 Hw).
  - vm_compute. discriminate.
  - apply sim_record_found. vm_compute. reflexivity.
  - exact Hlen.
Defined.

(** The first iteration on a Smart with an erased ring, and on a Smart
    whose newest dive is a free dive with one sample. *)
Lemma mini_header_sentinel_witness :
  let s := sim_walk (repeat x00 10) sim_blank in
  let read := sim_rbstream_read (wk_dev s) (wk_progress s) (foreach_header SMART) in
  let s1 := sim_walk (repeat x00 10) (sim_smart_freedive 0x20000) in
  let r1 := sim_record s1 in
  (foreach_header SMART + 4 <= wk_offset s <= 0x36000 /\
   foreach_loop sim_env 1 SMART (foreach_header SMART) 0x36000 (Some sim_accept) s
   = Ret (DC_STATUS_SUCCESS, dc_rbstream_free sim_env (snd read), wk_calls s)) /\
  (fd_nsamples r1 = 1 /\ fd_type r1 = FREEDIVE /\
   (0x2E, 6, 0x20) = (fd_headersize r1, fd_samplesize r1, fd_fingerprint r1)).
Proof.
  intros s read s1 r1.
  assert (Hoff : foreach_header SMART + 4 <= wk_offset s <= 0x36000)
    by (vm_compute; split; discriminate).
  assert (Hread : dc_rbstream_read sim_env (wk_dev s) (wk_progress s) (foreach_header SMART)
                  = (DC_STATUS_SUCCESS, snd (fst (fst read)), snd (fst read), snd read))
    by reflexivity.
  split.
  - split; [exact Hoff|].
    destruct (mini_header_sentinel sim_env 0 SMART 0x36000 (Some sim_accept) s
                _ _ _ Hoff Hread) as (_ & _ & _ & Hstop & _).
    apply Hstop. left. vm_compute. reflexivity.
  - pose (read1 := sim_rbstream_read (wk_dev s1) (wk_progress s1) (foreach_header SMART)).
    assert (Hoff1 : foreach_header SMART + 4 <= wk_offset s1 <= 0x36000)
      by (vm_compute; split; discriminate).
    assert (Hread1 : dc_rbstream_read sim_env (wk_dev s1) (wk_progress s1)
                       (foreach_header SMART)
                     = (DC_STATUS_SUCCESS, snd (fst (fst read1)), snd (fst read1), snd read1))
      by reflexivity.
    assert (Hfound : foreach_read_dive sim_env SMART (foreach_header SMART) 0x36000 s1
                     = Ret (Found r1)) by (apply sim_record_found; vm_compute; reflexivity).
    destruct (mini_header_sentinel sim_env 0 SMART 0x36000 (Some sim_accept) s1
                _ _ _ Hoff1 Hread1) as (_ & _ & _ & _ & Horder).
    destruct (Horder r1 Hfound) as (_ & _ & Htype & Hcount & Hsizes & _).
    split; [rewrite Hcount; vm_compute; reflexivity|].
    split; [rewrite Htype; vm_compute; reflexivity|].
    rewrite <- Hsizes. vm_compute. reflexivity.
Defined.

(** C5, the part of the claim the code does not have: on an Icon HD the
    first read of an iteration asks the stream for 0x5C bytes, not for 4
    to 6. *)
Lemma mini_header_counterexample :
  sim_outcome (mares_iconhd_device_foreach sim_env 8 sim_iconhd_erased (Some sim_accept))
  = Some (DC_STATUS_SUCCESS, [0x5C], []) /\
  ~ (4 <= 0x5C <= 6).
Proof. split; [vm_compute; reflexivity | lia]. Qed.

(** A device whose two ring pointers are both 0xFFFFFFFF. *)
Lemma ring_pointer_witness :
  let l := mares_nemowide2_layout in
  let p0 := progress_at_pointer sim_env l in
  let dA := session_at_serial sim_env sim_no_pointer l in
  let d0 := session_at_pointer sim_env (sim_read_session dA 0x0C) l (sim_read_bytes dA 0x0C) in
  let d1' := emit sim_env (sim_read_session d0 0x2001) (DC_EVENT_PROGRESS (bump p0)) in
  array_uint32_le (of_list (sim_read_bytes d0 0x2001)) 0 = 0xFFFFFFFF /\
  array_uint32_le (of_list (sim_read_bytes d1' 0x3001)) 0 = 0xFFFFFFFF /\
  mares_iconhd_device_foreach sim_env 8 sim_no_pointer (Some sim_accept)
  = Ret (DC_STATUS_SUCCESS,
         emit sim_env (sim_read_session d1' 0x3001) (DC_EVENT_PROGRESS (bump (bump p0))),
         []).
Proof.
  intros l p0 dA d0 d1'.
  assert (H1 : array_uint32_le (of_list (sim_read_bytes d0 0x2001)) 0 = 0xFFFFFFFF)
    by (vm_compute; reflexivity).
  assert (H2 : array_uint32_le (of_list (sim_read_bytes d1' 0x3001)) 0 = 0xFFFFFFFF)
    by (vm_compute; reflexivity).
  split; [exact H1|]. split; [exact H2|].
  assert (Hs : mares_iconhd_device_read sim_env 8 dA 0x0C 4
               = Ret (DC_STATUS_SUCCESS, sim_read_bytes dA 0x0C, sim_read_session dA 0x0C))
    by (vm_compute; reflexivity).
  assert (Hr1 : mares_iconhd_device_read sim_env 8 d0 0x2001 4
                = Ret (DC_STATUS_SUCCESS, sim_read_bytes d0 0x2001, sim_read_session d0 0x2001))
    by (vm_compute; reflexivity).
  assert (Hr2 : mares_iconhd_device_read sim_env 8 d1' 0x3001 4
                = Ret (DC_STATUS_SUCCESS, sim_read_bytes d1' 0x3001,
                       sim_read_session d1' 0x3001))
    by (vm_compute; reflexivity).
  destruct (ring_pointer sim_env 8 sim_no_pointer (sim_read_session dA 0x0C)
              (Some sim_accept) l (sim_read_bytes dA 0x0C)
              eq_refl eq_refl ltac:(vm_compute; discriminate) Hs _ _ Hr1) as [_ H].
  destruct (H H1 _ _ Hr2) as (_ & Hstop & _).
  exact (Hstop H2).
Defined.

(** A Smart with an erased ring whose pointer is [rb_profile_begin]. *)
Lemma eop_at_begin_witness :
  let l := mares_nemowide2_layout in
  let p0 := progress_at_pointer sim_env l in
  let dA := session_at_serial sim_env sim_smart_erased l in
  let dB := sim_read_session dA 0x0C in
  let d0 := session_at_pointer sim_env dB l (sim_read_bytes dA 0x0C) in
  let d1' := emit sim_env (sim_read_session d0 0x2001) (DC_EVENT_PROGRESS (bump p0)) in
  let dN := snd (sim_rbstream_new d1' (packetsize d1') 0xA000 0x40000 0xA000) in
  let read := sim_rbstream_read dN (bump p0) (foreach_header (model dB)) in
  array_uint32_le (of_list (sim_read_bytes d0 0x2001)) 0 = rb_profile_begin l /\
  mares_iconhd_device_foreach sim_env 8 sim_smart_erased (Some sim_accept)
  = Ret (DC_STATUS_SUCCESS, dc_rbstream_free sim_env (snd read), []).
Proof.
  intros l p0 dA dB d0 d1' dN read.
  assert (Hp : array_uint32_le (of_list (sim_read_bytes d0 0x2001)) 0 = rb_profile_begin l)
    by (vm_compute; reflexivity).
  split; [exact Hp|].
  assert (Hs : mares_iconhd_device_read sim_env 8 dA 0x0C 4
               = Ret (DC_STATUS_SUCCESS, sim_read_bytes dA 0x0C, dB))
    by (vm_compute; reflexivity).
  assert (Hr1 : mares_iconhd_device_read sim_env 8 d0 0x2001 4
                = Ret (DC_STATUS_SUCCESS, sim_read_bytes d0 0x2001, sim_read_session d0 0x2001))
    by (vm_compute; reflexivity).
  apply (eop_at_begin sim_env 7 sim_smart_erased dB (sim_read_session d0 0x2001) dN
           (snd read) (Some sim_accept) l (sim_read_bytes dA 0x0C)
           (sim_read_bytes d0 0x2001) (snd (fst (fst read))) (fun _ => x00)
           (snd (fst read))).
  - reflexivity.
  - reflexivity.
  - vm_compute. discriminate.
  - vm_compute. discriminate.
  - vm_compute. discriminate.
  - exact Hs.
  - exact Hr1.
  - exact Hp.
  - reflexivity.
  - reflexivity.
  - vm_compute. reflexivity.
  - left. vm_compute. reflexivity.
Defined.

(** C9, the claim as the spec has it: a Smart whose ring pointer is
    [rb_profile_begin] and whose ring ends with a dive hands that dive
    to the callback. *)
Lemma eop_at_begin_counterexample :
  array_uint32_le (of_list [x00; xa0; x00; x00]) 0
    = rb_profile_begin mares_nemowide2_layout /\
  sim_incoming (world sim_smart_at_begin)
    = [[xaa; x01; x02; x03; x04; xea; xaa; x00; xa0; x00; x00; xea]] /\
  match sim_outcome (mares_iconhd_device_foreach sim_env 8 sim_smart_at_begin
                       (Some sim_accept)) with
  | Some (rc, _, calls) => rc = DC_STATUS_SUCCESS /\ length calls = 1%nat
  | None => False
  end.
Proof.
  split; [vm_compute; reflexivity|]. split; [vm_compute; reflexivity|].
  vm_compute. split; reflexivity.
Qed.

(** C2: a Smart Apnea dive whose header carries the dive time
    0x80000000 is handed to the callback as a record of 84 bytes, while
    the length the claim gives for it is 84 + 2^32: the code computes
    the sum in 32 bits and the term [divetime * samplerate * 2] wraps
    to 0. *)
Theorem apnea_length_wraps :
  match sim_outcome (mares_iconhd_device_foreach sim_env 8 sim_apnea_long
                       (Some sim_accept)) with
  | Some (rc, _, [(data, fp)]) =>
    rc = DC_STATUS_SUCCESS /\
    Z.of_nat (length data) = 84 /\
    array_uint32_le (of_list data) (4 + 0x24) = 0x80000000 /\
    dive_length SMARTAPNEA (of_list data) 4 0x50 14 0 = 84 + 2 ^ 32
  | _ => False
  end.
Proof. vm_compute. repeat split; reflexivity. Qed.

(** C10: on a Smart Apnea dive whose header carries the dive time
    0x7FFFFFD6 the computed length wraps to 0, the check
    [offset < nbytes] lets it through, and the read of the remainder
    of the dive asks for [0 - 0x50] bytes modulo 2^32 at the end of
    the scratch block: the run leaves the block. *)
Theorem apnea_read_leaves_buffer :
  mares_iconhd_device_foreach sim_env 8 sim_apnea_wrap (Some sim_accept) = Trap.
Proof. vm_compute. reflexivity. Qed.

(** * Further runs on the simulated device *)

(** The newest dive of a Smart ring of three. *)
Lemma record_length_witness :
  let s0 := sim_walk (repeat x00 10) (sim_smart_memory 3 0x20000) in
  let r0 := sim_record s0 in
  fd_nbytes r0 =
  dive_length SMART (wk_mem (fd_walk r0)) (wk_offset s0 - fd_headersize r0)
    (fd_headersize r0) (fd_samplesize r0) (fd_nsamples r0).
Proof.
  intros s0 r0.
  assert (Hsize : 0x36000 <= 2 ^ 31) by (vm_compute; discriminate).
  assert (H0 : 0 <= wk_offset s0 <= 0x36000) by (vm_compute; split; discriminate).
  assert (Hf : foreach_read_dive sim_env SMART (foreach_header SMART) 0x36000 s0
               = Ret (Found r0)) by (apply sim_record_found; vm_compute; reflexivity).
  destruct (record_length sim_env SMART 0x36000 s0 r0 Hsize H0 Hf)
    as (_ & _ & _ & _ & _ & H).
  apply H. vm_compute. discriminate.
Defined.

(** The walk of a Smart ring of three dives in a session whose
    fingerprint is that of the second newest. *)
Lemma foreach_loop_status_witness :
  let s0 := sim_walk (repeat x02 10) (sim_smart_memory 3 0x20000) in
  let run := foreach_loop sim_env 8 SMART (foreach_header SMART) 0x36000
               (Some sim_accept) s0 in
  let out := sim_result (DC_STATUS_SUCCESS, wk_dev s0, []) run in
  fst (fst out) = DC_STATUS_SUCCESS \/
  (fst (fst out) <> DC_STATUS_SUCCESS /\
   exists d0 progress k bs progress' d1,
     dc_rbstream_read sim_env d0 progress k = (fst (fst out), bs, progress', d1) /\
     snd (fst out) = dc_rbstream_free sim_env d1).
Proof.
  intros s0 run out.
  assert (Hsize : 0x36000 <= 2 ^ 31) by (vm_compute; discriminate).
  assert (H0 : 0 <= wk_offset s0 <= 0x36000) by (vm_compute; split; discriminate).
  assert (Hrun : run = Ret (fst (fst out), snd (fst out), snd out))
    by (apply sim_result_triple; vm_compute; reflexivity).
  exact (foreach_loop_status sim_env 8 SMART 0x36000 (Some sim_accept) s0
           (fst (fst out)) (snd (fst out)) (snd out) Hsize H0 eq_refl Hrun).
Defined.

(** A read of 22 bytes from a packet transport that delivers a packet
    of 20 bytes and a packet of 5. *)
Lemma read_serves_frames_witness :
  let run := mares_iconhd_read sim_env 8 sim_ble 22 in
  let out := sim_result (DC_STATUS_SUCCESS, [], sim_ble) run in
  cache_ok (snd out) /\ same_session sim_ble (snd out) /\
  Z.of_nat (length (snd (fst out))) = 22 /\
  exists frames,
    frames_read sim_env (world sim_ble) frames (world (snd out)) /\
    pending sim_ble ++ concat frames = snd (fst out) ++ pending (snd out).
Proof.
  intros run out.
  assert (Hrun : run = Ret (DC_STATUS_SUCCESS, snd (fst out), snd out))
    by (apply sim_result_ok3; vm_compute; reflexivity).
  assert (Hc : cache_ok sim_ble).
  { split; [reflexivity|]. split; [vm_compute; discriminate|].
    split; vm_compute; discriminate. }
  exact (read_serves_frames sim_env 8 sim_ble (snd out) 22 (snd (fst out))
           eq_refl Hc ltac:(lia) Hrun).
Defined.

(** A read of four bytes from the serial line of the simulated device. *)
Lemma mares_iconhd_read_returns_witness :
  exists rc data d', mares_iconhd_read sim_env 8 sim_exchange 4 = Ret (rc, data, d').
Proof.
  apply (mares_iconhd_read_returns sim_env 8 sim_exchange 4 sim_productive_reads).
  - vm_compute. discriminate.
  - vm_compute. discriminate.
Defined.

(** A write of 25 bytes to a packet transport. *)
Lemma write_sends_frames_witness :
  let data := map byte_of_Z (map Z.of_nat (seq 1 25)) in
  let run := mares_iconhd_write sim_env 8 sim_ble data 25 in
  let d' := snd (sim_result (DC_STATUS_SUCCESS, sim_ble) run) in
  d' = set_world sim_ble (world d') /\
  exists frames,
    frames_written sim_env (world sim_ble) frames (world d') /\
    concat frames = slice data 0 25 /\
    (dc_iostream_get_transport sim_env (world sim_ble) = DC_TRANSPORT_BLE ->
     Forall (fun f => (length f <= 20)%nat) frames) /\
    (dc_iostream_get_transport sim_env (world sim_ble) <> DC_TRANSPORT_BLE -> 0 < 25 ->
     frames = [slice data 0 25]).
Proof.
  intros data run d'.
  assert (Hrun : run = Ret (DC_STATUS_SUCCESS, d'))
    by (apply sim_result_ok2; vm_compute; reflexivity).
  exact (write_sends_frames sim_env 8 sim_ble d' data 25 sim_whole_writes Hrun).
Defined.

(** An exchange that succeeds at its third attempt. *)
Lemma transfer_keeps_session_witness :
  let run := mares_iconhd_transfer sim_env 8 sim_noisy [xc2; x67] 2 4 in
  let out := sim_result (DC_STATUS_SUCCESS, [], sim_noisy) run in
  layout (snd out) = layout sim_noisy /\ fingerprint (snd out) = fingerprint sim_noisy /\
  model (snd out) = model sim_noisy /\ packetsize (snd out) = packetsize sim_noisy /\
  0 <= available (snd out) /\
  (fst (fst out) = DC_STATUS_SUCCESS -> 0 <= 4 ->
   Z.of_nat (length (snd (fst out))) = 4).
Proof.
  intros run out.
  assert (Hrun : run = Ret (fst (fst out), snd (fst out), snd out))
    by (apply sim_result_triple; vm_compute; reflexivity).
  apply (transfer_keeps_session sim_env 8 sim_noisy (snd out) [xc2; x67] 2 4
           (fst (fst out)) (snd (fst out))).
  - vm_compute. discriminate.
  - exact Hrun.
Defined.

(** The read of the serial number of the simulated Smart. *)
Lemma device_read_length_witness :
  let run := mares_iconhd_device_read sim_env 8 sim_smart_erased 0x0C 4 in
  let out := sim_result (DC_STATUS_SUCCESS, [], sim_smart_erased) run in
  same_session sim_smart_erased (snd out) /\ 0 <= available (snd out) /\
  (fst (fst out) = DC_STATUS_SUCCESS -> Z.of_nat (length (snd (fst out))) = 4).
Proof.
  intros run out.
  assert (Hrun : run = Ret (fst (fst out), snd (fst out), snd out))
    by (apply sim_result_triple; vm_compute; reflexivity).
  apply (device_read_length sim_env 8 sim_smart_erased (snd out) 0x0C 4
           (fst (fst out)) (snd (fst out))).
  - vm_compute. discriminate.
  - vm_compute. discriminate.
  - lia.
  - exact Hrun.
Defined.

Lemma device_read_single_witness :
  exists command,
    length command = 10%nat /\
    firstn 2 command = [xe7; x42] /\
    array_uint32_le (of_list command) 2 = 0x0C /\
    array_uint32_le (of_list command) 6 = 4 /\
    mares_iconhd_device_read sim_env 8 sim_exchange 0x0C 4 =
      mares_iconhd_transfer sim_env 8 sim_exchange command 10 4.
Proof.
  apply (device_read_single sim_env 7 sim_exchange 0x0C 4).
  - lia.
  - split; [lia | vm_compute; discriminate].
  - lia.
Defined.

(** A session the application has cancelled before the enumeration. *)
Lemma cancelled_session_witness :
  mares_iconhd_device_foreach sim_env 8 sim_stopped (Some sim_accept) =
    Ret (DC_STATUS_CANCELLED,
         emit sim_env
           (emit sim_env sim_stopped
              (DC_EVENT_PROGRESS
                 {| current := current (EVENT_PROGRESS_INITIALIZER sim_env);
                    maximum := u32 (rb_profile_end mares_nemowide2_layout
                                    - rb_profile_begin mares_nemowide2_layout + 4) |}))
           (DC_EVENT_VENDOR (version sim_stopped) 140),
         []).
Proof.
  destruct (cancelled_session sim_env 7 sim_stopped mares_nemowide2_layout (Some sim_accept))
    as (_ & _ & H).
  - intros w e. reflexivity.
  - reflexivity.
  - reflexivity.
  - reflexivity.
  - exact H.
Defined.

(** The session [open] hands back on a device that names the Puck 2. *)
Lemma open_session_witness :
  let d := sim_opened sim_puck2 in
  DC_STATUS_SUCCESS = DC_STATUS_SUCCESS /\ true = true /\ world d = world d /\
  fingerprint d = repeat x00 10 /\
  length (version d) = 140%nat /\
  0 <= available d /\
  exists l, layout d = Some l /\
    In l [mares_iconhd_layout; mares_iconhdnet_layout;
          mares_matrix_layout; mares_nemowide2_layout] /\
    (packetsize d = 256 \/ packetsize d = 4096).
Proof.
  intro d.
  assert (Ho : mares_iconhd_device_open sim_env 8 true sim_puck2
               = Ret (DC_STATUS_SUCCESS, Some d, world d)) by (vm_compute; reflexivity).
  exact (open_session sim_env 8 true sim_puck2 (world d) DC_STATUS_SUCCESS (Some d) Ho).
Defined.

(** The enumeration of a Smart with an erased ring. *)
Lemma foreach_returns_witness :
  exists rc d' calls,
    mares_iconhd_device_foreach sim_env (Z.to_nat 0x36001) sim_smart_erased (Some sim_accept)
    = Ret (rc, d', calls).
Proof.
  destruct (foreach_returns sim_env sim_productive_reads sim_whole_writes
              (Z.to_nat 0x36001) sim_smart_erased mares_nemowide2_layout (Some sim_accept))
    as [_ H].
  - reflexivity.
  - unfold mares_nemowide2_layout, rb_profile_end, rb_profile_begin. lia.
  - unfold mares_nemowide2_layout, rb_profile_end, rb_profile_begin. lia.
  - lia.
  - unfold sim_smart_erased, sim_device, available. lia.
  - unfold sim_smart_erased, sim_device, packetsize. lia.
  - apply H. unfold sim_smart_erased, sim_device, model, SMART, SMARTAPNEA. lia.
Defined.

(** The enumeration of a Smart whose ring ends with one dive. *)
Lemma foreach_dives_witness :
  let run := mares_iconhd_device_foreach sim_env 8 sim_smart_at_begin (Some sim_accept) in
  let out := sim_result (DC_STATUS_SUCCESS, sim_smart_at_begin, []) run in
  Forall well_formed_dive (snd out) /\ (Some sim_accept = None -> snd out = []).
Proof.
  intros run out.
  assert (Hrun : run = Ret (fst (fst out), snd (fst out), snd out))
    by (apply sim_result_triple; vm_compute; reflexivity).
  apply (foreach_dives sim_env 8 sim_smart_at_begin (snd (fst out)) mares_nemowide2_layout
           (Some sim_accept) (fst (fst out)) (snd out)).
  - reflexivity.
  - unfold mares_nemowide2_layout, rb_profile_end, rb_profile_begin. lia.
  - exact Hrun.
Defined.

(** The walk of a Smart ring of three dives, in a session whose
    fingerprint has been set to that of the second newest, at that
    dive. *)
Lemma set_fingerprint_boundary_witness :
  let data := repeat x02 10 in
  let s0 := sim_walk (repeat x02 10) (sim_smart_memory 3 0x20000) in
  let s1 := sim_next s0 in
  let r1 := sim_record s1 in
  foreach_loop sim_env 1 SMART (foreach_header SMART) 0x36000 (Some sim_accept) s1
  = Ret (DC_STATUS_SUCCESS, dc_rbstream_free sim_env (wk_dev (fd_walk r1)), wk_calls s1).
Proof.
  intros data s0 s1 r1.
  destruct (set_fingerprint_boundary sim_env 0 sim_exchange
              (set_fingerprint sim_exchange (slice data 0 10)) data 10
              SMART 0x36000 (Some sim_accept) s1 r1) as [H _].
  - reflexivity.
  - vm_compute. discriminate.
  - vm_compute. split; discriminate.
  - apply sim_record_found. vm_compute. reflexivity.
  - vm_compute. reflexivity.
  - vm_compute. reflexivity.
  - apply H. vm_compute. reflexivity.
Defined.

Lemma model_table_reachable_witness :
  mares_iconhd_get_model (sim_opened sim_puck2) = PUCK2.
Proof.
  apply (model_table_reachable (sim_opened sim_puck2) (model_name "Puck 2") PUCK2).
  - cbn [In models]. do 7 right. left. reflexivity.
  - vm_compute. reflexivity.
Defined.
